(** * ns-scheduler: the scale state machine of [nsscheduler/updown.py]

    A shallow embedding of [updown.py] and the properties of its
    transition engine ([modify_workload]), batch throttler
    ([wait_on_batch_full]), namespace resolver ([resolve_namespaces]) and
    state aggregator ([get_state]).

    Modelling conventions.
    - Python [int] is [Z]; Python [str] is [string] (ASCII).
    - A Python [dict] with string keys is a [gmap string _]; an attribute
      that the kubernetes client leaves at [None] is an [option].
    - Module-level mutable state ([scale_up_counters], [ns_state_cache],
      [ns_state_cache_update_time]), the cluster behind the kubernetes
      client, the clock and the observable calls (client calls, sleeps,
      log records) live in a [World] threaded by a state-and-exception
      monad [M].
    - [Decimal] quantities and [time.time()] readings are exact rationals
      ([Q]); results on them are stated up to [==]. A reading of the clock
      is the reading of an oracle plus the seconds slept so far. *)

From Stdlib Require Import ZArith QArith Lqa Ascii String List Lia.
From Stdlib Require Import DecimalString DecimalPos DecimalZ.
From stdpp Require Import base option gmap strings.

Local Open Scope string_scope.
Local Open Scope list_scope.
Local Open Scope Z_scope.

(** ** Python exceptions and results *)

(** What a [raise] carries. All but the last are subclasses of Python's
    [Exception]; [KeyboardInterrupt] stands for the exceptions that derive
    from [BaseException] only. *)
Inductive Exception : Type :=
| ValueError         (* int(), parse_quantity() or sleep() on a bad value *)
| KeyError           (* d[k] on a missing key *)
| AttributeError     (* None.get *)
| ReError            (* re.compile on an invalid pattern *)
| ApiException       (* raised by the kubernetes client *)
| KeyboardInterrupt. (* not an Exception *)

(** [isinstance(e, Exception)] *)
Definition is_exception (e : Exception) : bool :=
  match e with
  | KeyboardInterrupt => false
  | _ => true
  end.

Inductive Exc (A : Type) : Type :=
| Ret (a : A)
| Raise (e : Exception).
Arguments Ret {A} a.
Arguments Raise {A} e.

Definition exc_bind {A B} (x : Exc A) (f : A -> Exc B) : Exc B :=
  match x with
  | Ret a => f a
  | Raise e => Raise e
  end.

(** ** Python's [str(int)] and [int(str)] *)

Module Py.

(** [str(n)] for an [int]: the decimal digits, with a leading [-] for a
    negative number. (The limit on the number of digits that CPython has
    since 3.11, 4300 unless configured otherwise, is not modelled, here
    or in [int]: it is far above any replica count.) *)
Definition str (n : Z) : string := NilZero.string_of_int (Z.to_int n).

(** The characters [int()] strips from an ASCII [str]: those of
    [Py_ISSPACE] (TAB, LF, VT, FF, CR and SPACE). *)
Definition is_space (c : ascii) : bool :=
  let n := N_of_ascii c in
  ((9 <=? n)%N && (n <=? 13)%N) || (n =? 32)%N.

Definition digit_of (c : ascii) : option Z :=
  let n := N_of_ascii c in
  if ((48 <=? n)%N && (n <=? 57)%N)%bool then Some (Z.of_N n - 48) else None.

Fixpoint lstrip (s : string) : string :=
  match s with
  | String c s' => if is_space c then lstrip s' else s
  | EmptyString => s
  end.

Fixpoint all_space (s : string) : bool :=
  match s with
  | String c s' => is_space c && all_space s'
  | EmptyString => true
  end.

(** Where the digit scanner of [PyLong_FromString] stands: nothing read
    yet, just after a digit, or just after an underscore. *)
Inductive scan_state : Type := AtStart | AfterDigit | AfterUnderscore.

(** The digit loop of [PyLong_FromString] in base 10: digits, single
    underscores between digits, then only trailing white space. *)
Fixpoint scan (s : string) (st : scan_state) (acc : Z) : option Z :=
  match s with
  | EmptyString =>
      match st with AfterDigit => Some acc | _ => None end
  | String c s' =>
      match digit_of c with
      | Some d => scan s' AfterDigit (acc * 10 + d)
      | None =>
          match st with
          | AfterDigit =>
              if Ascii.eqb c "_"%char then scan s' AfterUnderscore acc
              else if all_space s then Some acc else None
          | _ => None
          end
      end
  end.

(** [int(s)] for a [str]: optional white space, an optional sign, the
    digits. Anything else raises [ValueError]. *)
Definition int (s : string) : Exc Z :=
  let body :=
    match lstrip s with
    | String "+"%char r => scan r AtStart 0
    | String "-"%char r => Z.opp <$> scan r AtStart 0
    | r => scan r AtStart 0
    end in
  match body with
  | Some n => Ret n
  | None => Raise ValueError
  end.

(** The value of a digit sequence read left to right from [acc]. *)
Fixpoint uint_value (d : Decimal.uint) (acc : Z) : Z :=
  match d with
  | Decimal.Nil => acc
  | Decimal.D0 l => uint_value l (acc * 10 + 0)
  | Decimal.D1 l => uint_value l (acc * 10 + 1)
  | Decimal.D2 l => uint_value l (acc * 10 + 2)
  | Decimal.D3 l => uint_value l (acc * 10 + 3)
  | Decimal.D4 l => uint_value l (acc * 10 + 4)
  | Decimal.D5 l => uint_value l (acc * 10 + 5)
  | Decimal.D6 l => uint_value l (acc * 10 + 6)
  | Decimal.D7 l => uint_value l (acc * 10 + 7)
  | Decimal.D8 l => uint_value l (acc * 10 + 8)
  | Decimal.D9 l => uint_value l (acc * 10 + 9)
  end.

End Py.

(** ** Data model *)

Inductive NamespaceAction : Type := UP | DOWN.

Definition protected_namespaces : list string := ["kube-system"].
Definition updown_annotation : string := "ns.scheduler/replicas".

(** [c.resources.requests]: [None], or a dict from resource name to
    quantity. *)
Record Container : Type := { requests : option (gmap string string) }.

(** [metadata.name], [metadata.namespace] and [metadata.annotations]. The
    client leaves [annotations] at [None] for an object that has no
    annotation at all, and gives a dict otherwise. *)
Record ObjectMeta : Type := {
  name : string;
  namespace : string;
  annotations : option (gmap string string)
}.

(** [spec.replicas] and [spec.template.spec.containers]. *)
Record WorkloadSpec : Type := {
  replicas : Z;
  containers : list Container
}.

(** A Deployment or StatefulSet as the kubernetes client returns it. *)
Record Workload : Type := {
  metadata : ObjectMeta;
  spec : WorkloadSpec
}.

(** The body built by [modify_workload]: a dict with an optional
    ["metadata"] entry [{"annotations": {updown_annotation: v}}] and an
    optional ["spec"] entry [{"replicas": n}]. *)
Record Patch : Type := {
  patch_metadata : option string;
  patch_spec : option Z
}.

(** Truth value of the dict: non-empty. *)
Definition patch_nonempty (p : Patch) : bool :=
  match patch_metadata p, patch_spec p with
  | None, None => false
  | _, _ => true
  end.

(** Modelled from the spec: [NamespaceState] of
    [nsscheduler.data_models.internal], the aggregate with fields [pods],
    [cpu] and [memory]. *)
Record NamespaceState : Type := {
  pods : Z;
  cpu : Q;
  memory : Q
}.

(** The argument of [parse_quantity]: a quantity string, or the [int]
    default of [requests.get(key, 0)]. *)
Inductive QuantityArg : Type :=
| QStr (s : string)
| QInt (n : Z).

(** ** The world: cluster, module globals, clock and observable calls *)

Inductive LogRecord : Type :=
| LogDebugStartingUp (namespaces : list string)
| LogDebugShuttingDown (namespaces : list string)
| LogDebugGettingState (namespaces : list string)
| LogWaiting (batch_interval : Z) (ns : string)
| LogStartingUp (ns : string)
| LogShutDown (ns : string)
| LogCached (ns : string)
| LogState (state : gmap string NamespaceState)
| LogScaled (kind ns nm : string) (desired_replicas : Z)
| LogFailed (kind ns nm : string) (e : Exception)
| LogIntact (kind ns nm : string) (current_replicas : Z).

Inductive Event : Type :=
| CallListNamespace
| CallListDeployment (ns : string)
| CallListStatefulSet (ns : string)
| CallPatchDeployment (nm ns : string) (body : Patch)
| CallPatchStatefulSet (nm ns : string) (body : Patch)
| Sleep (seconds : Z)
| Log (r : LogRecord).

(** Modelled from the spec: the cluster behind the API client (section 6):
    the namespaces and the workloads of both kinds in listing order, and
    which workloads the API server refuses to patch. *)
Record Cluster : Type := {
  cluster_namespaces : list string;
  cluster_deployments : list Workload;
  cluster_stateful_sets : list Workload;
  cluster_rejects : string -> string -> bool
}.

Record World : Type := {
  cluster : Cluster;
  scale_up_counters : gmap string Z;
  ns_state_cache : gmap string NamespaceState;
  ns_state_cache_update_time : gmap string Q;
  clock : nat -> Q;          (* the clock at the successive readings *)
  clock_reads : nat;
  trace : list Event
}.

Definition with_cluster (c : Cluster) (w : World) : World :=
  {| cluster := c; scale_up_counters := scale_up_counters w;
     ns_state_cache := ns_state_cache w;
     ns_state_cache_update_time := ns_state_cache_update_time w;
     clock := clock w; clock_reads := clock_reads w; trace := trace w |}.

Definition with_scale_up_counters (m : gmap string Z) (w : World) : World :=
  {| cluster := cluster w; scale_up_counters := m;
     ns_state_cache := ns_state_cache w;
     ns_state_cache_update_time := ns_state_cache_update_time w;
     clock := clock w; clock_reads := clock_reads w; trace := trace w |}.

Definition with_ns_state_cache (m : gmap string NamespaceState) (w : World)
  : World :=
  {| cluster := cluster w; scale_up_counters := scale_up_counters w;
     ns_state_cache := m;
     ns_state_cache_update_time := ns_state_cache_update_time w;
     clock := clock w; clock_reads := clock_reads w; trace := trace w |}.

Definition with_ns_state_cache_update_time (m : gmap string Q) (w : World)
  : World :=
  {| cluster := cluster w; scale_up_counters := scale_up_counters w;
     ns_state_cache := ns_state_cache w;
     ns_state_cache_update_time := m;
     clock := clock w; clock_reads := clock_reads w; trace := trace w |}.

Definition with_clock_reads (n : nat) (w : World) : World :=
  {| cluster := cluster w; scale_up_counters := scale_up_counters w;
     ns_state_cache := ns_state_cache w;
     ns_state_cache_update_time := ns_state_cache_update_time w;
     clock := clock w; clock_reads := n; trace := trace w |}.

Definition with_trace (t : list Event) (w : World) : World :=
  {| cluster := cluster w; scale_up_counters := scale_up_counters w;
     ns_state_cache := ns_state_cache w;
     ns_state_cache_update_time := ns_state_cache_update_time w;
     clock := clock w; clock_reads := clock_reads w; trace := t |}.

(** ** The monad: state passing with exceptions

    An exception keeps the world reached so far, as in Python. *)

Definition M (A : Type) : Type := World -> Exc A * World.

Definition ret {A} (a : A) : M A := fun w => (Ret a, w).
Definition raise {A} (e : Exception) : M A := fun w => (Raise e, w).

Definition bind {A B} (c : M A) (k : A -> M B) : M B :=
  fun w =>
    match c w with
    | (Ret a, w') => k a w'
    | (Raise e, w') => (Raise e, w')
    end.

Notation "'let*' x ':=' c 'in' k" := (bind c (fun x => k))
  (at level 10, x binder, c at level 100, k at level 200).

Definition lift {A} (x : Exc A) : M A := fun w => (x, w).

(** [try: c except Exception as e: h e]; what is no [Exception] goes
    through. *)
Definition try_except {A} (c : M A) (h : Exception -> M A) : M A :=
  fun w =>
    match c w with
    | (Ret a, w') => (Ret a, w')
    | (Raise e, w') => if is_exception e then h e w' else (Raise e, w')
    end.

(** [for x in xs: body x] *)
Fixpoint for_each {A} (xs : list A) (body : A -> M unit) : M unit :=
  match xs with
  | [] => ret tt
  | x :: xs' => let* _ := body x in for_each xs' body
  end.

Definition emit (e : Event) : M unit :=
  fun w => (Ret tt, with_trace (trace w ++ [e]) w).

Definition logging (r : LogRecord) : M unit := emit (Log r).

(** The seconds slept so far, as the trace records them. *)
Fixpoint slept (t : list Event) : Z :=
  match t with
  | [] => 0
  | Sleep seconds :: t' => seconds + slept t'
  | _ :: t' => slept t'
  end.

(** What [time.time()] returns next: the reading of the oracle, later by
    the seconds slept. *)
Definition now (w : World) : Q :=
  (clock w (clock_reads w) + inject_Z (slept (trace w)))%Q.

Definition time_time : M Q :=
  fun w => (Ret (now w), with_clock_reads (S (clock_reads w)) w).

(** [time.sleep(seconds)]: a negative length is refused. *)
Definition time_sleep (seconds : Z) : M unit :=
  if seconds <? 0 then raise ValueError else emit (Sleep seconds).

(** ** The kubernetes client *)

Definition is_target (nm ns : string) (w : Workload) : bool :=
  String.eqb (name (metadata w)) nm && String.eqb (namespace (metadata w)) ns.

(** Modelled from the spec: what [patchWorkload] does to the workload it
    names: the annotation of a ["metadata"] entry is merged into the
    annotations (into an empty dict when the workload has none), the
    count of a ["spec"] entry replaces the replica count. *)
Definition apply_patch (body : Patch) (w : Workload) : Workload :=
  {| metadata :=
       {| name := name (metadata w);
          namespace := namespace (metadata w);
          annotations :=
            match patch_metadata body with
            | Some v =>
                Some (<[updown_annotation := v]>
                        (default ∅ (annotations (metadata w))))
            | None => annotations (metadata w)
            end |};
     spec :=
       {| replicas :=
            match patch_spec body with
            | Some n => n
            | None => replicas (spec w)
            end;
          containers := containers (spec w) |} |}.

Definition patch_in (nm ns : string) (body : Patch) (ws : list Workload)
  : list Workload :=
  map (fun w => if is_target nm ns w then apply_patch body w else w) ws.

Module CoreV1Api.

Definition list_namespace : M (list string) :=
  let* _ := emit CallListNamespace in
  fun w => (Ret (cluster_namespaces (cluster w)), w).

End CoreV1Api.

Module AppsV1Api.

Definition in_namespace (ns : string) (w : Workload) : bool :=
  String.eqb (namespace (metadata w)) ns.

Definition list_namespaced_deployment (ns : string) : M (list Workload) :=
  let* _ := emit (CallListDeployment ns) in
  fun w => (Ret (filter (fun d => in_namespace ns d = true)
                   (cluster_deployments (cluster w))), w).

Definition list_namespaced_stateful_set (ns : string) : M (list Workload) :=
  let* _ := emit (CallListStatefulSet ns) in
  fun w => (Ret (filter (fun d => in_namespace ns d = true)
                   (cluster_stateful_sets (cluster w))), w).

(** The call fails when the server refuses it or no such workload
    exists; otherwise the workload is patched. *)
Definition patch_namespaced_deployment (nm ns : string) (body : Patch)
  : M unit :=
  let* _ := emit (CallPatchDeployment nm ns body) in
  fun w =>
    let c := cluster w in
    if cluster_rejects c nm ns
       || negb (existsb (is_target nm ns) (cluster_deployments c))
    then (Raise ApiException, w)
    else (Ret tt,
          with_cluster
            {| cluster_namespaces := cluster_namespaces c;
               cluster_deployments :=
                 patch_in nm ns body (cluster_deployments c);
               cluster_stateful_sets := cluster_stateful_sets c;
               cluster_rejects := cluster_rejects c |} w).

Definition patch_namespaced_stateful_set (nm ns : string) (body : Patch)
  : M unit :=
  let* _ := emit (CallPatchStatefulSet nm ns body) in
  fun w =>
    let c := cluster w in
    if cluster_rejects c nm ns
       || negb (existsb (is_target nm ns) (cluster_stateful_sets c))
    then (Raise ApiException, w)
    else (Ret tt,
          with_cluster
            {| cluster_namespaces := cluster_namespaces c;
               cluster_deployments := cluster_deployments c;
               cluster_stateful_sets :=
                 patch_in nm ns body (cluster_stateful_sets c);
               cluster_rejects := cluster_rejects c |} w).

End AppsV1Api.

(** ** [wait_on_batch_full] (lines 32-38) *)

(** [scale_up_counters.get(ns, d)] *)
Definition scale_up_counters_get (ns : string) (d : Z) : M Z :=
  fun w => (Ret (default d (scale_up_counters w !! ns)), w).

(** [scale_up_counters[ns] = v] *)
Definition scale_up_counters_setitem (ns : string) (v : Z) : M unit :=
  fun w => (Ret tt, with_scale_up_counters (<[ns := v]> (scale_up_counters w)) w).

(** [scale_up_counters[ns]] *)
Definition scale_up_counters_getitem (ns : string) : M Z :=
  fun w =>
    match scale_up_counters w !! ns with
    | Some v => (Ret v, w)
    | None => (Raise KeyError, w)
    end.

Definition wait_on_batch_full (ns : string) (batch_size batch_interval : Z)
  : M unit :=
  let* c := scale_up_counters_get ns 0 in
  let* _ := scale_up_counters_setitem ns (c + 1) in
  let* c' := scale_up_counters_getitem ns in
  if (batch_size <? c') && (0 <? batch_interval) then
    let* _ := logging (LogWaiting batch_interval ns) in
    let* _ := time_sleep batch_interval in
    scale_up_counters_setitem ns 1
  else ret tt.

(** ** [modify_workload] (lines 172-204) *)

(** Lines 173-187: the desired replica count and the patch. Line 174
    comes first, whatever the action: [.get] on the annotations, which
    raises [AttributeError] when they are [None], and [int] on what it
    returns. *)
Definition build_patch (action : NamespaceAction) (workload : Workload)
  : Exc (Z * Patch) :=
  let current_replicas := replicas (spec workload) in
  match annotations (metadata workload) with
  | None => Raise AttributeError
  | Some dict =>
      (* int(dict.get(updown_annotation, 1)) *)
      exc_bind
        (match dict !! updown_annotation with
         | Some s => Py.int s
         | None => Ret 1
         end)
        (fun before_down_replicas =>
           let desired_replicas :=
             match action with
             | DOWN => 0
             | UP => if current_replicas =? 0 then before_down_replicas
                     else current_replicas
             end in
           Ret (desired_replicas,
                {| patch_metadata :=
                     match action with
                     | DOWN =>
                         if (0 <? current_replicas)
                            || negb (bool_decide
                                       (is_Some (dict !! updown_annotation)))
                         then Some (Py.str current_replicas)
                         else None
                     | UP => None
                     end;
                   patch_spec :=
                     if current_replicas =? desired_replicas then None
                     else Some desired_replicas |}))
  end.

Definition modify_workload (action : NamespaceAction) (workload : Workload)
    (kind : string) (updater : string -> string -> Patch -> M unit) : M unit :=
  let current_replicas := replicas (spec workload) in
  let nm := name (metadata workload) in
  let ns := namespace (metadata workload) in
  let* '(desired_replicas, patch) := lift (build_patch action workload) in
  if patch_nonempty patch then
    (* lines 190-199 *)
    try_except
      (let* _ := updater nm ns patch in
       logging (LogScaled kind ns nm desired_replicas))
      (fun e => logging (LogFailed kind ns nm e))
  else
    logging (LogIntact kind ns nm current_replicas).

(** ** The libraries the rest depends on

    [re] and [kubernetes.utils.quantity.parse_quantity] are taken as
    parameters: a compiler from pattern text to compiled patterns that may
    raise, the test [compiled.match(s)], and the quantity parser. *)

Record ReEngine : Type := {
  re_pattern : Type;
  re_compile : string -> Exc re_pattern;
  re_match : re_pattern -> string -> bool
}.

Section Scheduler.

Context (re : ReEngine) (parse_quantity : QuantityArg -> Exc Q).

(** *** [resolve_namespaces] (lines 92-123) *)

(** The loop of lines 119-122, from the list [resolved] built so far. *)
Fixpoint resolve_loop (namespaces all_namespaces resolved : list string)
  : Exc (list string) :=
  match namespaces with
  | [] => Ret resolved
  | pattern :: rest =>
      match re_compile re (String.append "^" (String.append pattern "$")) with
      | Ret compiled_pattern =>
          let matching_namespaces :=
            filter (fun n => re_match re compiled_pattern n = true)
              all_namespaces in
          resolve_loop rest all_namespaces (resolved ++ matching_namespaces)
      | Raise e => Raise e
      end
  end.

Definition resolve_namespaces (namespaces : list string) : M (list string) :=
  let* all_namespaces := CoreV1Api.list_namespace in
  lift (resolve_loop namespaces all_namespaces []).

(** *** [up] (lines 41-66) and [down] (lines 69-89) *)

Definition up (namespaces : list string) (batch_size batch_timeout : Z)
  : M unit :=
  let* _ := logging (LogDebugStartingUp namespaces) in
  let* resolved := resolve_namespaces namespaces in
  for_each resolved (fun ns =>
    let* deployments := AppsV1Api.list_namespaced_deployment ns in
    let* stateful_sets := AppsV1Api.list_namespaced_stateful_set ns in
    let* _ := logging (LogStartingUp ns) in
    let* _ := for_each stateful_sets (fun ss =>
      let* _ := wait_on_batch_full ns batch_size batch_timeout in
      modify_workload UP ss "StatefulSet"
        AppsV1Api.patch_namespaced_stateful_set) in
    for_each deployments (fun d =>
      let* _ := wait_on_batch_full ns batch_size batch_timeout in
      modify_workload UP d "Deployment"
        AppsV1Api.patch_namespaced_deployment)).

Definition down (namespaces : list string) : M unit :=
  let* _ := logging (LogDebugShuttingDown namespaces) in
  let* resolved := resolve_namespaces namespaces in
  for_each (rev resolved) (fun ns =>
    let* _ := logging (LogShutDown ns) in
    let* deployments := AppsV1Api.list_namespaced_deployment ns in
    let* stateful_sets := AppsV1Api.list_namespaced_stateful_set ns in
    let* _ := for_each deployments (fun d =>
      modify_workload DOWN d "Deployment"
        AppsV1Api.patch_namespaced_deployment) in
    for_each stateful_sets (fun ss =>
      modify_workload DOWN ss "StatefulSet"
        AppsV1Api.patch_namespaced_stateful_set)).

(** *** [get_state] (lines 126-169) *)

(** [requests.get(key, 0)] *)
Definition requests_get (r : gmap string string) (key : string)
  : QuantityArg :=
  match r !! key with
  | Some s => QStr s
  | None => QInt 0
  end.

(** The inner loop of [sum] (lines 140-143) over the containers of a
    workload with [d_replicas] replicas. *)
Fixpoint sum_containers (cs : list Container) (d_replicas : Z)
    (cpu memory : Q) : Exc (Q * Q) :=
  match cs with
  | [] => Ret (cpu, memory)
  | c :: cs' =>
      match requests c with
      | Some r =>
          if bool_decide (r = ∅) then
            sum_containers cs' d_replicas cpu memory
          else
            exc_bind (parse_quantity (requests_get r "memory")) (fun qm =>
            exc_bind (parse_quantity (requests_get r "cpu")) (fun qc =>
              sum_containers cs' d_replicas
                (cpu + qc * inject_Z d_replicas)%Q
                (memory + qm * inject_Z d_replicas)%Q))
      | None => sum_containers cs' d_replicas cpu memory
      end
  end.

(** The outer loop of [sum] (lines 138-143). *)
Fixpoint sum_loop (workloads : list Workload) (replicas0 : Z)
    (cpu memory : Q) : Exc (Z * Q * Q) :=
  match workloads with
  | [] => Ret (replicas0, cpu, memory)
  | d :: rest =>
      exc_bind
        (sum_containers (containers (spec d)) (replicas (spec d)) cpu memory)
        (fun '(cpu', memory') =>
           sum_loop rest (replicas0 + replicas (spec d)) cpu' memory')
  end.

(** The local function [sum] of [get_state] (lines 134-145). *)
Definition sum (workloads : list Workload) : Exc (Z * Q * Q) :=
  sum_loop workloads 0 0%Q 0%Q.

Definition Qlt_bool (x y : Q) : bool := negb (Qle_bool y x).

(** Lines 152-156: the cached state of [ns] when the cache has one that
    is younger than three seconds. The clock is read only when [ns] is
    in the cache. *)
Definition cached_state (ns : string) : M (option NamespaceState) :=
  fun w =>
    match ns_state_cache w !! ns with
    | Some cached =>
        match ns_state_cache_update_time w !! ns with
        | Some t =>
            (let* now := time_time in
             if Qlt_bool now (t + 3)%Q then
               let* _ := logging (LogCached ns) in
               ret (Some cached)
             else ret None) w
        | None => (Raise KeyError, w)
        end
    | None => (Ret None, w)
    end.

(** The body of the loop of lines 151-166 for one resolved namespace,
    from the dict [state] built so far. *)
Definition get_state_body (ns : string) (state : gmap string NamespaceState)
  : M (gmap string NamespaceState) :=
  let* hit := cached_state ns in
  match hit with
  | Some cached => ret (<[ns := cached]> state)
  | None =>
      let* deployments := AppsV1Api.list_namespaced_deployment ns in
      let* stateful_sets := AppsV1Api.list_namespaced_stateful_set ns in
      let* '(d_replicas, d_cpu, d_memory) := lift (sum deployments) in
      let* '(s_replicas, s_cpu, s_memory) := lift (sum stateful_sets) in
      let st := {| pods := d_replicas + s_replicas;
                   cpu := (d_cpu + s_cpu)%Q;
                   memory := (d_memory + s_memory)%Q |} in
      let* _ := (fun w => (Ret tt,
                   with_ns_state_cache (<[ns := st]> (ns_state_cache w)) w)) in
      let* now := time_time in
      let* _ := (fun w => (Ret tt,
                   with_ns_state_cache_update_time
                     (<[ns := now]> (ns_state_cache_update_time w)) w)) in
      ret (<[ns := st]> state)
  end.

Fixpoint get_state_loop (resolved : list string)
    (state : gmap string NamespaceState) : M (gmap string NamespaceState) :=
  match resolved with
  | [] => ret state
  | ns :: rest =>
      let* state' := get_state_body ns state in
      get_state_loop rest state'
  end.

Definition get_state (namespaces : list string)
  : M (gmap string NamespaceState) :=
  let* _ := logging (LogDebugGettingState namespaces) in
  let* resolved := resolve_namespaces namespaces in
  let* state := get_state_loop resolved ∅ in
  let* _ := logging (LogState state) in
  ret state.

End Scheduler.

(** ** A regular-expression engine for a fragment of [re]

    The fragment: literal characters, [.], the anchors [^] and [$],
    grouping, alternation and the postfix operators [*], [+] and [?].
    [compile] reports every other pattern text as [ReError], whether [re]
    would reject it or not; the properties that range over all patterns
    are proved for an arbitrary engine, and this one runs the examples. *)

Module MiniRe.

Local Open Scope char_scope.

Inductive regex : Type :=
| Eps
| Chr (c : ascii)
| AnyChar
| Bol
| Eol
| Seq (a b : regex)
| Alt (a b : regex)
| Star (a : regex).

Definition newline : ascii := "010".

(** A backtracking matcher in continuation style. [bos] tells whether
    the position is still the beginning of the string; [k] receives the
    position reached. [$] matches at the end and before a final
    newline, [.] matches everything but a newline. *)
Fixpoint accept (r : regex) (bos : bool) (s : list ascii)
    (k : bool -> list ascii -> bool) {struct r} : bool :=
  match r with
  | Eps => k bos s
  | Chr c =>
      match s with
      | c' :: s' => Ascii.eqb c c' && k false s'
      | [] => false
      end
  | AnyChar =>
      match s with
      | c' :: s' => negb (Ascii.eqb c' newline) && k false s'
      | [] => false
      end
  | Bol => bos && k bos s
  | Eol =>
      match s with
      | [] => k bos s
      | [c] => Ascii.eqb c newline && k bos s
      | _ => false
      end
  | Seq a b => accept a bos s (fun bos' s' => accept b bos' s' k)
  | Alt a b => accept a bos s k || accept b bos s k
  | Star a =>
      (fix loop (n : nat) (bos0 : bool) (s0 : list ascii) {struct n} : bool :=
         k bos0 s0 ||
         match n with
         | O => false
         | S n' =>
             accept a bos0 s0 (fun bos' s' =>
               (length s' <? length s0)%nat && loop n' bos' s')
         end) (length s) bos s
  end.

Definition is_postfix (c : ascii) : bool :=
  Ascii.eqb c "*" || Ascii.eqb c "+" || Ascii.eqb c "?".

(** Characters with a meaning of their own in [re]. *)
Definition is_special (c : ascii) : bool :=
  is_postfix c || Ascii.eqb c "." || Ascii.eqb c "^" || Ascii.eqb c "$"
  || Ascii.eqb c "(" || Ascii.eqb c ")" || Ascii.eqb c "|"
  || Ascii.eqb c "[" || Ascii.eqb c "]" || Ascii.eqb c "{"
  || Ascii.eqb c "}" || Ascii.eqb c "\".

(** One optional postfix operator after an atom; a second one in a row
    and a repeated anchor are refused. *)
Definition postfix (a : regex) (s : list ascii)
  : option (regex * list ascii) :=
  match s with
  | c :: s' =>
      if is_postfix c then
        match a, s' with
        | Bol, _ | Eol, _ => None
        | _, c' :: _ =>
            if is_postfix c' then None
            else Some (if Ascii.eqb c "*" then Star a
                       else if Ascii.eqb c "+" then Seq a (Star a)
                       else Alt a Eps, s')
        | _, [] =>
            Some (if Ascii.eqb c "*" then Star a
                  else if Ascii.eqb c "+" then Seq a (Star a)
                  else Alt a Eps, s')
        end
      else Some (a, s)
  | [] => Some (a, s)
  end.

Fixpoint parse_alt (fuel : nat) (s : list ascii)
  : option (regex * list ascii) :=
  match fuel with
  | O => None
  | S f =>
      match parse_seq f s with
      | Some (r, c :: s') =>
          if Ascii.eqb c "|" then
            match parse_alt f s' with
            | Some (r', s'') => Some (Alt r r', s'')
            | None => None
            end
          else Some (r, c :: s')
      | other => other
      end
  end
with parse_seq (fuel : nat) (s : list ascii)
  : option (regex * list ascii) :=
  match fuel with
  | O => None
  | S f =>
      match s with
      | [] => Some (Eps, [])
      | c :: _ =>
          if Ascii.eqb c "|" || Ascii.eqb c ")" then Some (Eps, s)
          else
            match parse_atom f s with
            | Some (a, s1) =>
                match postfix a s1 with
                | Some (a', s2) =>
                    match parse_seq f s2 with
                    | Some (r, s3) => Some (Seq a' r, s3)
                    | None => None
                    end
                | None => None
                end
            | None => None
            end
      end
  end
with parse_atom (fuel : nat) (s : list ascii)
  : option (regex * list ascii) :=
  match fuel with
  | O => None
  | S f =>
      match s with
      | [] => None
      | c :: s' =>
          if Ascii.eqb c "(" then
            match parse_alt f s' with
            | Some (r, c' :: s'') =>
                if Ascii.eqb c' ")" then Some (r, s'') else None
            | _ => None
            end
          else if Ascii.eqb c "." then Some (AnyChar, s')
          else if Ascii.eqb c "^" then Some (Bol, s')
          else if Ascii.eqb c "$" then Some (Eol, s')
          else if Ascii.eqb c "\" then
            match s' with
            | c' :: s'' => if is_special c' then Some (Chr c', s'') else None
            | [] => None
            end
          else if is_special c then None
          else Some (Chr c, s')
      end
  end.

Definition compile (pattern : string) : Exc regex :=
  let s := list_ascii_of_string pattern in
  match parse_alt (4 * length s + 4) s with
  | Some (r, []) => Ret r
  | _ => Raise ReError
  end.

(** [compiled.match(s)]: a match that starts at the beginning of [s]
    and may end anywhere. *)
Definition matches (r : regex) (s : string) : bool :=
  accept r true (list_ascii_of_string s) (fun _ _ => true).

(** [compiled.fullmatch(s)]: a match of the whole of [s]. *)
Definition fullmatch (r : regex) (s : string) : bool :=
  accept r true (list_ascii_of_string s)
    (fun _ rest => match rest with [] => true | _ :: _ => false end).

Definition engine : ReEngine :=
  {| re_pattern := regex; re_compile := compile; re_match := matches |}.

End MiniRe.

(** ** A model of [kubernetes.utils.quantity.parse_quantity]

    Plain decimal numbers ([sign] digits [. digits]) with one of the
    suffixes the library knows. The other literals of [Decimal]
    (exponents, [NaN], [Infinity], underscores) are outside the model and
    reported as [ValueError]. *)

Module K8sQuantity.

Local Open Scope char_scope.

(** The table [exponents] of the library. *)
Definition exponents (c : ascii) : option Z :=
  if Ascii.eqb c "n" then Some (-3)
  else if Ascii.eqb c "u" then Some (-2)
  else if Ascii.eqb c "m" then Some (-1)
  else if Ascii.eqb c "K" then Some 1
  else if Ascii.eqb c "k" then Some 1
  else if Ascii.eqb c "M" then Some 2
  else if Ascii.eqb c "G" then Some 3
  else if Ascii.eqb c "T" then Some 4
  else if Ascii.eqb c "P" then Some 5
  else if Ascii.eqb c "E" then Some 6
  else None.

(** Digits read left to right: their value and how many there are. *)
Fixpoint digits (s : list ascii) (acc : Z) (n : nat)
  : Z * nat * list ascii :=
  match s with
  | c :: s' =>
      match Py.digit_of c with
      | Some d => digits s' (acc * 10 + d) (S n)
      | None => (acc, n, s)
      end
  | [] => (acc, n, s)
  end.

Definition unsigned_decimal (s : list ascii) : option Q :=
  let '(ip, ni, rest) := digits s 0 O in
  match rest with
  | [] => if (ni =? 0)%nat then None else Some (inject_Z ip)
  | c :: rest' =>
      if Ascii.eqb c "." then
        let '(fp, nf, rest'') := digits rest' 0 O in
        match rest'' with
        | [] =>
            if (ni + nf =? 0)%nat then None
            else Some (inject_Z ip + inject_Z fp / inject_Z (10 ^ Z.of_nat nf))%Q
        | _ => None
        end
      else None
  end.

(** [Decimal(number)] on the fragment. *)
Definition decimal (s : list ascii) : option Q :=
  match s with
  | c :: s' =>
      if Ascii.eqb c "-" then Qopp <$> unsigned_decimal s'
      else if Ascii.eqb c "+" then unsigned_decimal s'
      else unsigned_decimal s
  | [] => None
  end.

(** The split of a quantity into number and suffix: the base and the
    first character of the suffix, when there is one. *)
Definition split_suffix (q : list ascii)
  : list ascii * option (Z * ascii) :=
  match rev q with
  | last :: before =>
      if Ascii.eqb last "i" then
        match before with
        | c :: number =>
            if bool_decide (is_Some (exponents c))
            then (rev number, Some (1024, c)) else (q, None)
        | [] => (q, None)
        end
      else if bool_decide (is_Some (exponents last))
      then (rev before, Some (1000, last))
      else (q, None)
  | [] => (q, None)
  end.

Definition parse_quantity (quantity : QuantityArg) : Exc Q :=
  match quantity with
  | QInt n => Ret (inject_Z n)
  | QStr s =>
      let '(number, suffix) := split_suffix (list_ascii_of_string s) in
      match decimal number with
      | None => Raise ValueError
      | Some x =>
          match suffix with
          | None => Ret x
          | Some (base, c) =>
              if Z.eqb base 1024 && Ascii.eqb c "k" then Raise ValueError
              else
                match exponents c with
                | Some e => Ret (x * inject_Z base ^ e)%Q
                | None => Raise ValueError
                end
          end
      end
  end.

End K8sQuantity.

(** ** Vocabulary of the statements *)

(** The two kinds of workload, with the label and the client call that
    [up] and [down] pass to [modify_workload] for each. *)
Inductive WorkloadKind : Type := Deployment | StatefulSet.

Definition kind_label (k : WorkloadKind) : string :=
  match k with
  | Deployment => "Deployment"
  | StatefulSet => "StatefulSet"
  end.

Definition updater_of (k : WorkloadKind) : string -> string -> Patch -> M unit :=
  match k with
  | Deployment => AppsV1Api.patch_namespaced_deployment
  | StatefulSet => AppsV1Api.patch_namespaced_stateful_set
  end.

Definition workloads_of (k : WorkloadKind) (c : Cluster) : list Workload :=
  match k with
  | Deployment => cluster_deployments c
  | StatefulSet => cluster_stateful_sets c
  end.

(** The workload of kind [k] that the cluster holds under a name. *)
Definition lookup_workload (k : WorkloadKind) (nm ns : string) (w : World)
  : option Workload :=
  find (is_target nm ns) (workloads_of k (cluster w)).

(** The same workload as the cluster holds it, read back under its own
    name. *)
Definition current (k : WorkloadKind) (wl : Workload) (w : World)
  : option Workload :=
  lookup_workload k (name (metadata wl)) (namespace (metadata wl)) w.

(** The saved-replicas annotation of a workload, when it has one. *)
Definition saved_replicas (wl : Workload) : option string :=
  match annotations (metadata wl) with
  | Some dict => dict !! updown_annotation
  | None => None
  end.

Definition is_patch_call (e : Event) : bool :=
  match e with
  | CallPatchDeployment _ _ _ | CallPatchStatefulSet _ _ _ => true
  | _ => false
  end.

(** The world when the module has just been imported: empty counters and
    caches, nothing observed yet. *)
Definition initial_world (c : Cluster) (clk : nat -> Q) : World :=
  {| cluster := c; scale_up_counters := ∅; ns_state_cache := ∅;
     ns_state_cache_update_time := ∅; clock := clk; clock_reads := O;
     trace := [] |}.

(** [n] successive UP transitions of the workload [wl]. *)
Definition repeat_up (n : nat) (wl : Workload) (kind : string)
    (updater : string -> string -> Patch -> M unit) : M unit :=
  for_each (replicate n wl) (fun d => modify_workload UP d kind updater).

(** How often [n] occurs in a list of names. *)
Definition occurrences (n : string) (l : list string) : nat :=
  length (filter (fun x => x = n) l).

(** The names of a listing that a compiled pattern matches. *)
Definition matching (re : ReEngine) (all_namespaces : list string)
    (compiled : re_pattern re) : list string :=
  filter (fun n => re_match re compiled n = true) all_namespaces.

(** The anchored text that [resolve_namespaces] compiles for a pattern. *)
Definition anchored (pattern : string) : string :=
  String.append "^" (String.append pattern "$").

(** Two workloads whose saved-replicas annotation is not an integer. *)
Definition stopped_with_bad_annotation : Workload :=
  {| metadata := {| name := "web"; namespace := "ns1";
                    annotations := Some {[ updown_annotation := "abc" ]} |};
     spec := {| replicas := 0; containers := [] |} |}.

Definition running_with_bad_annotation : Workload :=
  {| metadata := {| name := "web"; namespace := "ns1";
                    annotations := Some {[ updown_annotation := "abc" ]} |};
     spec := {| replicas := 2; containers := [] |} |}.

(** The annotation that the Deployment controller puts on a Deployment;
    it stands for the annotations that other tools have set. *)
Definition revision : gmap string string :=
  {[ "deployment.kubernetes.io/revision" := "1" ]}.

(** Two StatefulSets that have no annotation at all, as one created
    with [kubectl create] has: the client gives [None] for their
    annotations. *)
Definition running_without_annotations : Workload :=
  {| metadata := {| name := "db"; namespace := "ns1"; annotations := None |};
     spec := {| replicas := 3; containers := [] |} |}.

Definition stopped_without_annotations : Workload :=
  {| metadata := {| name := "db"; namespace := "ns1"; annotations := None |};
     spec := {| replicas := 0; containers := [] |} |}.

(** A cluster with one namespace and one Deployment, which accepts every
    patch. *)
Definition web (n : Z) (ann : gmap string string) : Workload :=
  {| metadata := {| name := "web"; namespace := "ns1";
                    annotations := Some ann |};
     spec := {| replicas := n; containers := [] |} |}.

Definition cluster_with (d : Workload) : Cluster :=
  {| cluster_namespaces := ["ns1"];
     cluster_deployments := [d];
     cluster_stateful_sets := [];
     cluster_rejects := fun _ _ => false |}.

Definition world_with (d : Workload) : World :=
  initial_world (cluster_with d) (fun _ => 0%Q).

(** The same with one StatefulSet. *)
Definition stateful_cluster_with (s : Workload) : Cluster :=
  {| cluster_namespaces := ["ns1"];
     cluster_deployments := [];
     cluster_stateful_sets := [s];
     cluster_rejects := fun _ _ => false |}.

Definition stateful_world_with (s : Workload) : World :=
  initial_world (stateful_cluster_with s) (fun _ => 0%Q).

(** The example of the resolver: three namespaces and two overlapping
    patterns, with the patterns as the engine compiles them. *)
Definition team_namespaces : list string :=
  ["team-a-dev"; "team-a-prod"; "team-b"].

Definition team_patterns : list string := ["team-a-.*"; "team-a-prod"].

Definition team_world : World :=
  initial_world
    {| cluster_namespaces := team_namespaces;
       cluster_deployments := [];
       cluster_stateful_sets := [];
       cluster_rejects := fun _ _ => false |}
    (fun _ => 0%Q).

(** Modelled from the spec: a name fully matches a pattern (section
    4.1): the pattern as it is written, without anchors, matches the
    whole of the name. *)
Definition fully_matches (pattern n : string) : bool :=
  match MiniRe.compile pattern with
  | Ret r => MiniRe.fullmatch r n
  | Raise _ => false
  end.

(** A pattern with an alternative, and a cluster with a namespace whose
    name begins like one of the two names it is meant for. *)
Definition either_pattern : string := "team-b|team-a-dev".

Definition either_world : World :=
  initial_world
    {| cluster_namespaces := ["team-a-dev"; "team-b"; "team-b-extra"];
       cluster_deployments := [];
       cluster_stateful_sets := [];
       cluster_rejects := fun _ _ => false |}
    (fun _ => 0%Q).

Definition compiled_or_empty (pattern : string) : MiniRe.regex :=
  match MiniRe.compile (anchored pattern) with
  | Ret r => r
  | Raise _ => MiniRe.Eps
  end.

Definition team_compiled : list MiniRe.regex :=
  Eval vm_compute in map compiled_or_empty team_patterns.

(** What the aggregation is meant to compute, with [val] the number a
    quantity string stands for. *)
Section Aggregate.

Variable val : string -> Q.

(** The request of a container for a resource; zero when absent. *)
Definition requested (key : string) (c : Container) : Q :=
  match requests c with
  | Some r =>
      match r !! key with
      | Some s => val s
      | None => 0%Q
      end
  | None => 0%Q
  end.

Fixpoint containers_request (key : string) (cs : list Container)
    (n : Z) : Q :=
  match cs with
  | [] => 0%Q
  | c :: cs' =>
      (requested key c * inject_Z n + containers_request key cs' n)%Q
  end.

Fixpoint total_request (key : string) (ws : list Workload) : Q :=
  match ws with
  | [] => 0%Q
  | d :: rest =>
      (containers_request key (containers (spec d)) (replicas (spec d))
       + total_request key rest)%Q
  end.

End Aggregate.

Fixpoint total_replicas (ws : list Workload) : Z :=
  match ws with
  | [] => 0
  | d :: rest => replicas (spec d) + total_replicas rest
  end.

(** The number a quantity string parses to. *)
Definition parsed (parse_quantity : QuantityArg -> Exc Q) (s : string) : Q :=
  match parse_quantity (QStr s) with
  | Ret q => q
  | Raise _ => 0%Q
  end.

(** The memory and cpu requests of a container parse. *)
Definition container_parses (parse_quantity : QuantityArg -> Exc Q)
    (c : Container) : bool :=
  match requests c with
  | Some r =>
      forallb (fun key =>
                 match r !! key with
                 | Some s =>
                     match parse_quantity (QStr s) with
                     | Ret _ => true
                     | Raise _ => false
                     end
                 | None => true
                 end) ["memory"; "cpu"]
  | None => true
  end.

(** Every quantity requested for cpu or memory in [ws] parses. *)
Definition requests_parse (parse_quantity : QuantityArg -> Exc Q)
    (ws : list Workload) : bool :=
  forallb (fun d => forallb (container_parses parse_quantity)
                      (containers (spec d))) ws.

(** The default [0] of [requests.get] parses to zero. *)
Definition parses_zero (parse_quantity : QuantityArg -> Exc Q) : Prop :=
  exists z : Q, parse_quantity (QInt 0) = Ret z /\ (z == 0)%Q.

(** The workloads of a namespace as the client lists them. *)
Definition listed (ns : string) (ws : list Workload) : list Workload :=
  filter (fun d => AppsV1Api.in_namespace ns d = true) ws.

(** The example of the aggregation: one Deployment of three replicas
    whose only container requests [cpu=500m] and [memory=256Mi]. *)
Definition api_deployment : Workload :=
  {| metadata := {| name := "api"; namespace := "ns1";
                    annotations := Some revision |};
     spec := {| replicas := 3;
                containers :=
                  [ {| requests := Some {[ "cpu" := "500m";
                                           "memory" := "256Mi" ]} |} ] |} |}.

Definition api_world : World := world_with api_deployment.

(** A world whose cache holds a state of ["ns1"] taken at time 10, with a
    clock that reads [now]. *)
Definition stale_state : NamespaceState :=
  {| pods := 7; cpu := 1%Q; memory := 2%Q |}.

Definition cached_world (now : Q) : World :=
  {| cluster := cluster_with api_deployment;
     scale_up_counters := ∅;
     ns_state_cache := {[ "ns1" := stale_state ]};
     ns_state_cache_update_time := {[ "ns1" := 10%Q ]};
     clock := fun _ => now; clock_reads := O; trace := [] |}.

(** The world of a [get_state] call when its loop starts: the debug
    record has been logged and the namespaces have been listed. *)
Definition loop_start (patterns : list string) (w : World) : World :=
  with_trace
    (trace w ++ [Log (LogDebugGettingState patterns); CallListNamespace]) w.

(** A [get_state] call from the point where its loop has the namespaces
    [rest] left, with the dict [state] built so far (lines 151-169). *)
Definition get_state_from (parse_quantity : QuantityArg -> Exc Q)
    (rest : list string) (state : gmap string NamespaceState)
  : M (gmap string NamespaceState) :=
  let* state' := get_state_loop parse_quantity rest state in
  let* _ := logging (LogState state') in
  ret state'.

(** The listing calls of a trace, in order. *)
Definition is_listing_call (e : Event) : bool :=
  match e with
  | CallListDeployment _ | CallListStatefulSet _ => true
  | _ => false
  end.

Definition listing_calls (t : list Event) : list Event :=
  filter (fun e => is_listing_call e = true) t.

(** A clock that gives the readings [ts] one after the other, and then
    stands at [last]. *)
Definition readings (ts : list Q) (last : Q) : nat -> Q :=
  fun n => nth n ts last.

(** Every state in the cache has its time: the two dicts are written
    together (lines 165-166). *)
Definition cache_timed (w : World) : Prop :=
  forall ns : string,
    is_Some (ns_state_cache w !! ns) ->
    is_Some (ns_state_cache_update_time w !! ns).

(** ** Vocabulary of the further properties *)

(** The saved-replicas annotation is absent or [int] reads it. *)
Definition annotation_ok (wl : Workload) : bool :=
  match saved_replicas wl with
  | Some s => match Py.int s with Ret _ => true | Raise _ => false end
  | None => true
  end.

(** Line 174 returns for the workload: its annotations are a dict, and
    the saved-replicas annotation is absent from it or [int] reads it. *)
Definition readable (wl : Workload) : bool :=
  match annotations (metadata wl) with
  | Some _ => annotation_ok wl
  | None => false
  end.

(** What line 174 raises for a workload that is not readable. *)
Definition line_174_error (wl : Workload) : Exception :=
  match annotations (metadata wl) with
  | Some _ => ValueError
  | None => AttributeError
  end.

(** The patch that [modify_workload] builds for a workload; the empty one
    when line 174 raises. *)
Definition patch_for (action : NamespaceAction) (wl : Workload) : Patch :=
  match build_patch action wl with
  | Ret (_, p) => p
  | Raise _ => {| patch_metadata := None; patch_spec := None |}
  end.

(** A workload with the patch built for it applied. *)
Definition transition (action : NamespaceAction) (wl : Workload) : Workload :=
  apply_patch (patch_for action wl) wl.

(** [x] goes by the name and namespace of [d]. *)
Definition same_key (d x : Workload) : bool :=
  is_target (name (metadata d)) (namespace (metadata d)) x.

Definition key (wl : Workload) : string * string :=
  (namespace (metadata wl), name (metadata wl)).

(** What the patch call made for the listed object [d] does to a workload
    of the cluster. *)
Definition patched_by (action : NamespaceAction) (d x : Workload) : Workload :=
  if same_key d x then apply_patch (patch_for action d) x else x.

Definition set_workloads (k : WorkloadKind) (ws : list Workload) (c : Cluster)
  : Cluster :=
  match k with
  | Deployment =>
      {| cluster_namespaces := cluster_namespaces c;
         cluster_deployments := ws;
         cluster_stateful_sets := cluster_stateful_sets c;
         cluster_rejects := cluster_rejects c |}
  | StatefulSet =>
      {| cluster_namespaces := cluster_namespaces c;
         cluster_deployments := cluster_deployments c;
         cluster_stateful_sets := ws;
         cluster_rejects := cluster_rejects c |}
  end.

(** The transition applied to every workload of the namespaces [nss]. *)
Definition scale_workloads (action : NamespaceAction) (nss : list string)
    (ws : list Workload) : list Workload :=
  map (fun x => if bool_decide (namespace (metadata x) ∈ nss)
                then transition action x else x) ws.

Definition scale_cluster (action : NamespaceAction) (nss : list string)
    (c : Cluster) : Cluster :=
  {| cluster_namespaces := cluster_namespaces c;
     cluster_deployments := scale_workloads action nss (cluster_deployments c);
     cluster_stateful_sets :=
       scale_workloads action nss (cluster_stateful_sets c);
     cluster_rejects := cluster_rejects c |}.

(** The server refuses no patch. *)
Definition accepting (c : Cluster) : Prop :=
  forall nm ns : string, cluster_rejects c nm ns = false.

(** No two workloads of a kind under the same name in a namespace. *)
Definition unique_names (c : Cluster) : Prop :=
  NoDup (map key (cluster_deployments c)) /\
  NoDup (map key (cluster_stateful_sets c)).

(** A property of every workload of the namespaces [nss]. *)
Definition all_in (nss : list string) (P : Workload -> Prop) (c : Cluster)
  : Prop :=
  forall (k : WorkloadKind) (x : Workload),
    x ∈ workloads_of k c -> namespace (metadata x) ∈ nss -> P x.

(** The namespaces that [resolve_namespaces] returns for compiled
    patterns. *)
Definition resolved_by (re : ReEngine) (compiled : list (re_pattern re))
    (c : Cluster) : list string :=
  concat (map (matching re (cluster_namespaces c)) compiled).

(** The seconds slept, in order. *)
Definition sleeps (t : list Event) : list Z :=
  omap (fun e => match e with Sleep s => Some s | _ => None end) t.

(** The patch calls made, in order. *)
Definition patch_calls (t : list Event) : list Event :=
  filter (fun e => is_patch_call e = true) t.

(** A cluster on which [up] and [down] for the namespaces [nss] run to
    the end: the server refuses nothing, names are unique, and the
    workloads concerned are readable. *)
Definition manageable (nss : list string) (c : Cluster) : Prop :=
  accepting c /\ unique_names c /\
  all_in nss (fun x => readable x = true) c.

(** The replicas of a readable workload after UP: unchanged when it
    runs, else the saved count, or 1 without the saved-replicas
    annotation. *)
Definition restored_replicas (x : Workload) : Z :=
  if replicas (spec x) =? 0 then
    match saved_replicas x with
    | Some s => match Py.int s with Ret n => n | Raise _ => 0 end
    | None => 1
    end
  else replicas (spec x).

(** A workload whose replica count DOWN and then UP bring back: it runs,
    or it is stopped and has no saved-replicas annotation. *)
Definition restorable (x : Workload) : Prop :=
  0 < replicas (spec x) \/
  (replicas (spec x) = 0 /\ saved_replicas x = None).

Definition replica_counts (ws : list Workload) : list Z :=
  map (fun x => replicas (spec x)) ws.

(** The cluster of the examples of [up] and [down]: a Deployment of three
    replicas in [team-a-dev], a StatefulSet of one in [team-a-prod], a
    Deployment of two in [team-b], and a server that refuses nothing. *)
Definition workload_in (ns nm : string) (n : Z) : Workload :=
  {| metadata := {| name := nm; namespace := ns;
                    annotations := Some revision |};
     spec := {| replicas := n; containers := [] |} |}.

Definition teams_cluster : Cluster :=
  {| cluster_namespaces := team_namespaces;
     cluster_deployments :=
       [workload_in "team-a-dev" "web" 3; workload_in "team-b" "api" 2];
     cluster_stateful_sets := [workload_in "team-a-prod" "db" 1];
     cluster_rejects := fun _ _ => false |}.

Definition teams_world : World := initial_world teams_cluster (fun _ => 0%Q).

(** Every run of [c] relates the world before to the world after. *)
Definition keeps {A : Type} (Rel : World -> World -> Prop) (c : M A) : Prop :=
  forall (w : World) (r : Exc A) (w' : World), c w = (r, w') -> Rel w w'.

(** The state cache and the clock are as they were. *)
Definition same_cache (w w' : World) : Prop :=
  ns_state_cache w' = ns_state_cache w /\
  ns_state_cache_update_time w' = ns_state_cache_update_time w /\
  clock w' = clock w /\ clock_reads w' = clock_reads w.

(** No time was slept. *)
Definition same_time (w w' : World) : Prop :=
  slept (trace w') = slept (trace w).

(** Nothing was counted or slept. *)
Definition unthrottled (w w' : World) : Prop :=
  scale_up_counters w' = scale_up_counters w /\
  sleeps (trace w') = sleeps (trace w).

(** A cluster whose only container has a memory request that is no
    quantity. *)
Definition broken_deployment : Workload :=
  {| metadata := {| name := "api"; namespace := "ns1";
                    annotations := Some revision |};
     spec := {| replicas := 3;
                containers :=
                  [ {| requests := Some {[ "memory" := "lots" ]} |} ] |} |}.

(** The Deployment of the aggregation example after DOWN. *)
Definition stopped_api_deployment : Workload :=
  {| metadata := {| name := "api"; namespace := "ns1";
                    annotations :=
                      Some (<[ updown_annotation := "3" ]> revision) |};
     spec := {| replicas := 0;
                containers :=
                  [ {| requests := Some {[ "cpu" := "500m";
                                           "memory" := "256Mi" ]} |} ] |} |}.

(** Workloads can be compared. *)
#[global] Instance Container_eq_dec : EqDecision Container.
Proof. solve_decision. Defined.

#[global] Instance ObjectMeta_eq_dec : EqDecision ObjectMeta.
Proof. solve_decision. Defined.

#[global] Instance WorkloadSpec_eq_dec : EqDecision WorkloadSpec.
Proof. solve_decision. Defined.

#[global] Instance Workload_eq_dec : EqDecision Workload.
Proof. solve_decision. Defined.

(** A namespace with three Deployments, the second with an annotation
    that is no integer. *)
Definition half_cluster : Cluster :=
  {| cluster_namespaces := ["ns1"];
     cluster_deployments :=
       [workload_in "ns1" "a" 3;
        {| metadata := {| name := "b"; namespace := "ns1";
                          annotations :=
                            Some {[ updown_annotation := "many" ]} |};
           spec := {| replicas := 2; containers := [] |} |};
        workload_in "ns1" "c" 1];
     cluster_stateful_sets := [workload_in "ns1" "db" 1];
     cluster_rejects := fun _ _ => false |}.

(** The world of [cached_world] after a hit of the cache for ["ns1"] in
    a [get_state] call for the patterns [queried]. *)
Definition served_from_cache (queried : list string) (ns : string)
    (cached : NamespaceState) (w : World) : World :=
  with_trace
    (trace w ++ [Log (LogDebugGettingState queried); CallListNamespace;
                 Log (LogCached ns); Log (LogState {[ ns := cached ]})])
    (with_clock_reads (S (clock_reads w)) w).

(** A namespace with two StatefulSets and three Deployments. *)
Definition busy_cluster : Cluster :=
  {| cluster_namespaces := ["ns1"];
     cluster_deployments :=
       [workload_in "ns1" "a" 0; workload_in "ns1" "b" 0;
        workload_in "ns1" "c" 2];
     cluster_stateful_sets :=
       [workload_in "ns1" "db" 0; workload_in "ns1" "mq" 0];
     cluster_rejects := fun _ _ => false |}.

(** The busy namespace in a process whose earlier calls of [up] have
    left the counter of ["ns1"] at [c]. *)
Definition counting_busy_world (c : Z) : World :=
  {| cluster := busy_cluster;
     scale_up_counters := {[ "ns1" := c ]};
     ns_state_cache := ∅;
     ns_state_cache_update_time := ∅;
     clock := fun _ => 0%Q; clock_reads := O; trace := [] |}.

(** The busy namespace with a state in the cache taken at time 10, and a
    clock that stands at [t0]. *)
Definition cached_busy_world (t0 : Q) : World :=
  {| cluster := busy_cluster;
     scale_up_counters := ∅;
     ns_state_cache := {[ "ns1" := stale_state ]};
     ns_state_cache_update_time := {[ "ns1" := 10%Q ]};
     clock := fun _ => t0; clock_reads := O; trace := [] |}.

(** The workload that an outcome record of [modify_workload] is about:
    its kind label, namespace and name. *)
Definition outcome_of (e : Event) : option (string * string * string) :=
  match e with
  | Log (LogScaled kind ns nm _) | Log (LogFailed kind ns nm _)
  | Log (LogIntact kind ns nm _) => Some (kind, ns, nm)
  | _ => None
  end.

(** The workloads handled, in order. *)
Definition handled (t : list Event) : list (string * string * string) :=
  omap outcome_of t.

(** The workloads of one kind in a namespace, in listing order. *)
Definition handled_in (label ns : string) (ws : list Workload)
  : list (string * string * string) :=
  map (fun x => (label, namespace (metadata x), name (metadata x)))
    (listed ns ws).

(** The order in which [down] and [up] handle a namespace. *)
Definition down_order (c : Cluster) (ns : string)
  : list (string * string * string) :=
  handled_in "Deployment" ns (cluster_deployments c)
  ++ handled_in "StatefulSet" ns (cluster_stateful_sets c).

Definition up_order (c : Cluster) (ns : string)
  : list (string * string * string) :=
  handled_in "StatefulSet" ns (cluster_stateful_sets c)
  ++ handled_in "Deployment" ns (cluster_deployments c).

(** The same names in the same places as in [c]. *)
Definition same_names (c c' : Cluster) : Prop :=
  forall k : WorkloadKind,
    map key (workloads_of k c') = map key (workloads_of k c).

(** The invariant of the loops: the names are those of the cluster [c0]
    at the start, and the annotations of the namespaces [R] are
    readable. *)
Definition in_order (c0 : Cluster) (R : list string) (w : World) : Prop :=
  same_names c0 (cluster w) /\
  all_in R (fun x => readable x = true) (cluster w).

(** A cluster with workloads of both kinds in two of the team
    namespaces, and a server that refuses every patch of [db]. *)
Definition ordered_cluster : Cluster :=
  {| cluster_namespaces := team_namespaces;
     cluster_deployments :=
       [workload_in "team-a-dev" "web" 3; workload_in "team-a-prod" "api" 2;
        workload_in "team-b" "batch" 1; workload_in "team-a-prod" "worker" 0];
     cluster_stateful_sets :=
       [workload_in "team-a-prod" "db" 1; workload_in "team-a-dev" "cache" 0];
     cluster_rejects := fun nm _ => String.eqb nm "db" |}.

Definition ordered_world : World :=
  initial_world ordered_cluster (fun _ => 0%Q).

(** * Properties *)

(** ** [int] reads back what [str] prints *)

Module PyFacts.

Import Py.

Example int_plain : int "3" = Ret 3.
Proof. reflexivity. Qed.
Example int_spaces_sign : int "  -12 " = Ret (-12).
Proof. reflexivity. Qed.
Example int_underscore : int "1_000" = Ret 1000.
Proof. reflexivity. Qed.
Example int_letters : int "abc" = Raise ValueError.
Proof. reflexivity. Qed.
Example int_empty : int "" = Raise ValueError.
Proof. reflexivity. Qed.
Example int_float : int "1.5" = Raise ValueError.
Proof. reflexivity. Qed.
Example int_double_underscore : int "1__0" = Raise ValueError.
Proof. reflexivity. Qed.
Example str_neg : str (-40) = "-40".
Proof. reflexivity. Qed.
Example str_zero : str 0 = "0".
Proof. reflexivity. Qed.

Lemma scan_digits (d : Decimal.uint) : forall st acc,
  scan (NilEmpty.string_of_uint d) st acc =
  match d with
  | Decimal.Nil => match st with AfterDigit => Some acc | _ => None end
  | _ => Some (uint_value d acc)
  end.
Proof.
  induction d; intros st acc; [reflexivity | ..];
    cbn [NilEmpty.string_of_uint scan];
    match goal with
    | |- context [digit_of ?c] =>
        let v := eval vm_compute in (digit_of c) in
        change (digit_of c) with v
    end;
    cbv iota; rewrite IHd; destruct d; reflexivity.
Qed.

Lemma uint_value_acc (d : Decimal.uint) : forall acc : positive,
  Z.pos (Pos.of_uint_acc d acc) = uint_value d (Z.pos acc).
Proof.
  induction d; intros acc; cbn [Pos.of_uint_acc uint_value];
    try reflexivity; rewrite IHd; f_equal; lia.
Qed.

Lemma uint_value_of_uint (d : Decimal.uint) :
  uint_value d 0 = Z.of_uint d.
Proof.
  unfold Z.of_uint.
  induction d; cbn [Pos.of_uint uint_value]; try reflexivity;
    try (rewrite <- IHd; reflexivity);
    cbn [Z.of_N]; rewrite uint_value_acc; reflexivity.
Qed.

Lemma string_of_uint_nonnil (d : Decimal.uint) :
  d <> Decimal.Nil ->
  NilZero.string_of_uint d = NilEmpty.string_of_uint d.
Proof. destruct d; intros H; try reflexivity. congruence. Qed.

Lemma scan_pos (p : positive) :
  scan (NilEmpty.string_of_uint (Pos.to_uint p)) AtStart 0 = Some (Z.pos p).
Proof.
  rewrite scan_digits.
  pose proof (Unsigned.to_uint_nonnil p) as Hnil.
  pose proof (DecimalZ.of_to (Z.pos p)) as Hval.
  cbn [Z.to_int Z.of_int] in Hval.
  rewrite <- uint_value_of_uint in Hval.
  destruct (Pos.to_uint p); try congruence.
Qed.

Lemma lstrip_digits (d : Decimal.uint) :
  lstrip (NilEmpty.string_of_uint d) = NilEmpty.string_of_uint d.
Proof. destruct d; reflexivity. Qed.

Lemma first_not_sign (d : Decimal.uint) :
  match NilEmpty.string_of_uint d with
  | String "+"%char _ | String "-"%char _ => False
  | _ => True
  end.
Proof. destruct d; exact I. Qed.

(** Reading back what [str] printed gives the number. *)
Lemma int_str (n : Z) : int (str n) = Ret n.
Proof.
  destruct n as [|p|p]; [reflexivity| |].
  - unfold int, str. cbn [Z.to_int NilZero.string_of_int].
    rewrite string_of_uint_nonnil by apply Unsigned.to_uint_nonnil.
    rewrite lstrip_digits.
    pose proof (first_not_sign (Pos.to_uint p)) as Hs.
    pose proof (scan_pos p) as Hp.
    destruct (NilEmpty.string_of_uint (Pos.to_uint p)) as [|c r] eqn:E.
    + rewrite Hp. reflexivity.
    + destruct c as [[] [] [] [] [] [] [] []]; try (rewrite Hp; reflexivity);
        contradiction.
  - unfold int, str. cbn [Z.to_int NilZero.string_of_int].
    rewrite string_of_uint_nonnil by apply Unsigned.to_uint_nonnil.
    cbn [lstrip]. change (is_space "-"%char) with false. cbv iota.
    rewrite scan_pos. reflexivity.
Qed.

Lemma str_inj (n m : Z) : str n = str m -> n = m.
Proof.
  intros H. pose proof (int_str n) as Hn. rewrite H, int_str in Hn.
  congruence.
Qed.

End PyFacts.

(** ** How [modify_workload] runs, by the outcome of [build_patch] *)

Section ModifyWorkloadRuns.

Variables (action : NamespaceAction) (wl : Workload) (kind : string).
Variable updater : string -> string -> Patch -> M unit.

Lemma modify_workload_raise (e : Exception) (w : World) :
  build_patch action wl = Raise e ->
  modify_workload action wl kind updater w = (Raise e, w).
Proof.
  intros H. unfold modify_workload, bind, lift. rewrite H. reflexivity.
Qed.

Lemma modify_workload_intact (d : Z) (p : Patch) (w : World) :
  build_patch action wl = Ret (d, p) ->
  patch_nonempty p = false ->
  modify_workload action wl kind updater w =
  (Ret tt,
   with_trace (trace w ++ [Log (LogIntact kind (namespace (metadata wl)) (name (metadata wl)) (replicas (spec wl)))]) w).
Proof.
  intros H Hp. unfold modify_workload, bind, lift. rewrite H.
  cbv beta iota. rewrite Hp. reflexivity.
Qed.

Lemma modify_workload_applied (d : Z) (p : Patch) (w w' : World) :
  build_patch action wl = Ret (d, p) ->
  patch_nonempty p = true ->
  updater (name (metadata wl)) (namespace (metadata wl)) p w = (Ret tt, w') ->
  modify_workload action wl kind updater w =
  (Ret tt, with_trace (trace w' ++ [Log (LogScaled kind (namespace (metadata wl)) (name (metadata wl)) d)]) w').
Proof.
  intros H Hp Hu. unfold modify_workload, bind, lift. rewrite H.
  cbv beta iota. rewrite Hp. unfold try_except, bind.
  rewrite Hu. reflexivity.
Qed.

Lemma modify_workload_failed (d : Z) (p : Patch) (e : Exception)
    (w w' : World) :
  build_patch action wl = Ret (d, p) ->
  patch_nonempty p = true ->
  updater (name (metadata wl)) (namespace (metadata wl)) p w = (Raise e, w') ->
  is_exception e = true ->
  modify_workload action wl kind updater w =
  (Ret tt, with_trace (trace w' ++ [Log (LogFailed kind (namespace (metadata wl)) (name (metadata wl)) e)]) w').
Proof.
  intros H Hp Hu He. unfold modify_workload, bind, lift. rewrite H.
  cbv beta iota. rewrite Hp. unfold try_except, bind.
  rewrite Hu, He. reflexivity.
Qed.

(** What the updater raises and [except Exception] does not catch leaves
    [modify_workload]. *)
Lemma modify_workload_interrupted (d : Z) (p : Patch) (e : Exception)
    (w w' : World) :
  build_patch action wl = Ret (d, p) ->
  patch_nonempty p = true ->
  updater (name (metadata wl)) (namespace (metadata wl)) p w = (Raise e, w') ->
  is_exception e = false ->
  modify_workload action wl kind updater w = (Raise e, w').
Proof.
  intros H Hp Hu He. unfold modify_workload, bind, lift. rewrite H.
  cbv beta iota. rewrite Hp. unfold try_except, bind.
  rewrite Hu, He. reflexivity.
Qed.

End ModifyWorkloadRuns.

(** ** The client's patch call on the cluster *)

Lemma apply_patch_is_target (nm ns : string) (body : Patch) (wl : Workload) :
  is_target nm ns (apply_patch body wl) = is_target nm ns wl.
Proof. reflexivity. Qed.

Lemma find_patch_in (nm ns : string) (body : Patch) (ws : list Workload) :
  find (is_target nm ns) (patch_in nm ns body ws) =
  apply_patch body <$> find (is_target nm ns) ws.
Proof.
  induction ws as [|x ws IH]; [reflexivity|].
  cbn [patch_in map find]. destruct (is_target nm ns x) eqn:E.
  - rewrite apply_patch_is_target, E. reflexivity.
  - rewrite E. exact IH.
Qed.

(** A patch under one name leaves the workloads under another name
    alone. *)
Lemma find_patch_in_other (nm ns nm' ns' : string) (body : Patch)
    (ws : list Workload) :
  forall x,
    find (is_target nm' ns') ws = Some x ->
    exists x',
      find (is_target nm' ns') (patch_in nm ns body ws) = Some x' /\
      (is_target nm ns x = false -> x' = x) /\
      (is_target nm ns x = true -> x' = apply_patch body x).
Proof.
  induction ws as [|y ws IH]; intros x Hx; [discriminate|].
  cbn [patch_in map find] in *.
  destruct (is_target nm ns y) eqn:E.
  - rewrite apply_patch_is_target.
    destruct (is_target nm' ns' y) eqn:E'.
    + inversion Hx; subst. exists (apply_patch body x).
      split; [reflexivity|]. split; [congruence|reflexivity].
    + apply IH, Hx.
  - destruct (is_target nm' ns' y) eqn:E'.
    + inversion Hx; subst. exists x.
      split; [reflexivity|]. split; [reflexivity|congruence].
    + apply IH, Hx.
Qed.

Lemma find_existsb (nm ns : string) (ws : list Workload) (x : Workload) :
  find (is_target nm ns) ws = Some x -> existsb (is_target nm ns) ws = true.
Proof.
  induction ws as [|y ws IH]; [discriminate|].
  cbn [find existsb]. destruct (is_target nm ns y); [reflexivity|exact IH].
Qed.

(** The outcome of a patch call: refused, with the cluster as it was, or
    applied to the workloads under that name. *)
Lemma updater_of_outcome (k : WorkloadKind) (nm ns : string) (body : Patch)
    (w : World) :
  exists r w',
    updater_of k nm ns body w = (r, w') /\
    cluster_rejects (cluster w') = cluster_rejects (cluster w) /\
    (forall k', k' <> k ->
       workloads_of k' (cluster w') = workloads_of k' (cluster w)) /\
    ((r = Raise ApiException /\
      workloads_of k (cluster w') = workloads_of k (cluster w)) \/
     (r = Ret tt /\
      cluster_rejects (cluster w) nm ns = false /\
      workloads_of k (cluster w') =
      patch_in nm ns body (workloads_of k (cluster w)))).
Proof.
  destruct k; cbn [updater_of];
    unfold AppsV1Api.patch_namespaced_deployment,
      AppsV1Api.patch_namespaced_stateful_set, bind, emit;
    cbn [cluster with_trace];
    destruct (cluster_rejects (cluster w) nm ns) eqn:Hr; cbn [orb];
    try match goal with
      | |- context [negb ?b] => destruct b
      end; cbn [negb];
    eexists _, _; (split; [reflexivity|]); (split; [reflexivity|]);
    (split; [intros [] Hk; try congruence; reflexivity|]);
    first [left; split; reflexivity | right; repeat split; reflexivity].
Qed.

(** A patch call that the server accepts for a workload the cluster
    holds. *)
Lemma updater_of_accepted (k : WorkloadKind) (wl x : Workload) (body : Patch)
    (w : World) :
  current k wl w = Some x ->
  cluster_rejects (cluster w) (name (metadata wl)) (namespace (metadata wl))
    = false ->
  exists w',
    updater_of k (name (metadata wl)) (namespace (metadata wl)) body w
      = (Ret tt, w') /\
    current k wl w' = Some (apply_patch body x) /\
    cluster_rejects (cluster w') = cluster_rejects (cluster w).
Proof.
  unfold current, lookup_workload. intros Hx Hr.
  pose proof (find_existsb _ _ _ _ Hx) as Hex.
  destruct k; cbn [updater_of workloads_of] in *;
    unfold AppsV1Api.patch_namespaced_deployment,
      AppsV1Api.patch_namespaced_stateful_set, bind, emit;
    cbn [cluster with_trace]; rewrite Hr, Hex; cbn [orb negb];
    eexists; (split; [reflexivity|]);
    cbn [cluster with_cluster workloads_of cluster_deployments
           cluster_stateful_sets cluster_rejects];
    rewrite find_patch_in, Hx; split; reflexivity.
Qed.

(** ** The patch that [build_patch] makes *)

Lemma str_positive_not_zero (n : Z) : 0 < n -> Py.str n <> "0".
Proof.
  intros Hn H. change "0" with (Py.str 0) in H.
  apply PyFacts.str_inj in H. lia.
Qed.

(** A workload that has the saved-replicas annotation has a dict of
    annotations. *)
Lemma saved_replicas_dict (wl : Workload) (s : string) :
  saved_replicas wl = Some s ->
  exists dict,
    annotations (metadata wl) = Some dict /\
    dict !! updown_annotation = Some s.
Proof.
  unfold saved_replicas. destruct (annotations (metadata wl)) as [dict|];
    [eauto | discriminate].
Qed.

(** Without annotations, line 174 raises. *)
Lemma build_patch_no_annotations (action : NamespaceAction) (wl : Workload) :
  annotations (metadata wl) = None ->
  build_patch action wl = Raise AttributeError.
Proof. unfold build_patch. intros ->. reflexivity. Qed.

(** DOWN of a workload whose annotations are a dict without the
    saved-replicas annotation: the count is saved and the replicas go to
    zero. *)
Lemma build_patch_down_fresh (wl : Workload) (dict : gmap string string) :
  annotations (metadata wl) = Some dict ->
  saved_replicas wl = None ->
  build_patch DOWN wl =
  Ret (0, {| patch_metadata := Some (Py.str (replicas (spec wl)));
             patch_spec := if replicas (spec wl) =? 0 then None else Some 0 |}).
Proof.
  unfold saved_replicas, build_patch. intros -> ->. cbn [exc_bind].
  rewrite bool_decide_eq_false_2 by (intros [? ?]; discriminate).
  rewrite orb_true_r. reflexivity.
Qed.

(** UP of a stopped workload whose annotation reads as [n]. *)
Lemma build_patch_up_stopped (wl : Workload) (s : string) (n : Z) :
  replicas (spec wl) = 0 ->
  saved_replicas wl = Some s -> Py.int s = Ret n ->
  build_patch UP wl =
  Ret (n, {| patch_metadata := None;
             patch_spec := if 0 =? n then None else Some n |}).
Proof.
  intros Hr Hs Hn. destruct (saved_replicas_dict wl s Hs) as (dict & Hd & Hk).
  unfold build_patch. rewrite Hd, Hk, Hn, Hr. reflexivity.
Qed.

(** UP of a stopped workload whose annotations are a dict without the
    saved-replicas annotation: one replica. *)
Lemma build_patch_up_stopped_default (wl : Workload)
    (dict : gmap string string) :
  replicas (spec wl) = 0 ->
  annotations (metadata wl) = Some dict -> saved_replicas wl = None ->
  build_patch UP wl =
  Ret (1, {| patch_metadata := None; patch_spec := Some 1 |}).
Proof.
  unfold saved_replicas, build_patch. intros -> -> ->. reflexivity.
Qed.

(** UP of a running workload whose annotations are a dict in which the
    saved-replicas annotation is absent or an integer: nothing to patch,
    and the client is not called. *)
Lemma build_patch_up_running (wl : Workload) (dict : gmap string string) :
  replicas (spec wl) <> 0 ->
  annotations (metadata wl) = Some dict ->
  (saved_replicas wl = None \/
   exists s n, saved_replicas wl = Some s /\ Py.int s = Ret n) ->
  build_patch UP wl =
  Ret (replicas (spec wl), {| patch_metadata := None; patch_spec := None |}).
Proof.
  unfold saved_replicas, build_patch.
  intros Hr -> [-> | (s & n & -> & ->)]; cbn [exc_bind];
    destruct (Z.eqb_spec (replicas (spec wl)) 0) as [|_]; try contradiction;
    rewrite Z.eqb_refl; reflexivity.
Qed.

Lemma up_running_is_noop (wl : Workload) (dict : gmap string string)
    (kind : string) (updater : string -> string -> Patch -> M unit)
    (w : World) :
  replicas (spec wl) <> 0 ->
  annotations (metadata wl) = Some dict ->
  (saved_replicas wl = None \/
   exists s n, saved_replicas wl = Some s /\ Py.int s = Ret n) ->
  modify_workload UP wl kind updater w =
  (Ret tt,
   with_trace
     (trace w ++ [Log (LogIntact kind (namespace (metadata wl))
                         (name (metadata wl)) (replicas (spec wl)))]) w).
Proof.
  intros Hr Hd Ha.
  apply modify_workload_intact with (1 := build_patch_up_running wl dict Hr Hd Ha).
  reflexivity.
Qed.

(** Whatever the action, a malformed annotation makes line 174 raise
    before anything else happens. *)
Lemma modify_workload_malformed (action : NamespaceAction) (wl : Workload)
    (kind : string) (updater : string -> string -> Patch -> M unit)
    (w : World) (s : string) (e : Exception) :
  saved_replicas wl = Some s -> Py.int s = Raise e ->
  modify_workload action wl kind updater w = (Raise e, w).
Proof.
  intros Hs He. apply modify_workload_raise.
  destruct (saved_replicas_dict wl s Hs) as (dict & Hd & Hk).
  unfold build_patch. rewrite Hd, Hk, He. reflexivity.
Qed.

(** Whatever the action, a workload without annotations makes line 174
    raise before anything else happens. *)
Lemma modify_workload_no_annotations (action : NamespaceAction)
    (wl : Workload) (kind : string)
    (updater : string -> string -> Patch -> M unit) (w : World) :
  annotations (metadata wl) = None ->
  modify_workload action wl kind updater w = (Raise AttributeError, w).
Proof.
  intros H. apply modify_workload_raise, build_patch_no_annotations, H.
Qed.

(** The patch of DOWN carries an annotation only when the workload runs
    or has no annotation yet, and the patch of UP never carries one. *)
Lemma build_patch_metadata (action : NamespaceAction) (wl : Workload)
    (d : Z) (p : Patch) :
  build_patch action wl = Ret (d, p) ->
  patch_metadata p = None \/
  (action = DOWN /\
   patch_metadata p = Some (Py.str (replicas (spec wl))) /\
   (0 < replicas (spec wl) \/ saved_replicas wl = None)).
Proof.
  unfold build_patch, saved_replicas.
  destruct (annotations (metadata wl)) as [dict|]; [|discriminate].
  destruct (dict !! updown_annotation) as [s|] eqn:Ha;
    [destruct (Py.int s) as [n|e]; [|discriminate]|];
    cbn [exc_bind]; intros H; inversion H; subst; clear H;
    destruct action; cbn [patch_metadata]; auto.
  - destruct (Z.ltb_spec 0 (replicas (spec wl))); cbn [orb].
    + right. auto.
    + left. reflexivity.
  - right. rewrite orb_true_r. auto.
Qed.

(** A patch is built only from a dict of annotations. *)
Lemma build_patch_dict (action : NamespaceAction) (wl : Workload) (d : Z)
    (p : Patch) :
  build_patch action wl = Ret (d, p) ->
  exists dict, annotations (metadata wl) = Some dict.
Proof.
  unfold build_patch. destruct (annotations (metadata wl)) as [dict|];
    [eauto | discriminate].
Qed.

(** DOWN of a stopped workload that has the annotation: nothing to
    patch. *)
Lemma build_patch_down_stopped_saved (wl : Workload) (v : string) (d : Z)
    (p : Patch) :
  replicas (spec wl) = 0 -> saved_replicas wl = Some v ->
  build_patch DOWN wl = Ret (d, p) ->
  d = 0 /\ p = {| patch_metadata := None; patch_spec := None |}.
Proof.
  intros Hr Hs. destruct (saved_replicas_dict wl v Hs) as (dict & Hd & Hk).
  unfold build_patch. rewrite Hd, Hk, Hr.
  destruct (Py.int v) as [n|e]; cbn [exc_bind]; [|discriminate].
  rewrite bool_decide_eq_true_2 by eauto.
  intros H. inversion H. split; reflexivity.
Qed.

(** ** The transition engine *)

(** X24. A workload with [N > 0] replicas whose annotations are a dict
    without the saved-replicas annotation, held by a cluster that accepts
    the patches: DOWN stamps the annotation with [N] and sets the
    replicas to zero, and UP of the workload so patched sets the replicas
    back to exactly [N]. *)
Theorem down_then_up_restores_dict (k : WorkloadKind) (w : World)
    (wl : Workload) (dict : gmap string string) (N : Z) :
  current k wl w = Some wl ->
  cluster_rejects (cluster w) (name (metadata wl)) (namespace (metadata wl))
    = false ->
  replicas (spec wl) = N -> 0 < N ->
  annotations (metadata wl) = Some dict ->
  saved_replicas wl = None ->
  exists w1 wl1 w2 wl2,
    modify_workload DOWN wl (kind_label k) (updater_of k) w = (Ret tt, w1) /\
    current k wl w1 = Some wl1 /\
    replicas (spec wl1) = 0 /\
    saved_replicas wl1 = Some (Py.str N) /\
    modify_workload UP wl1 (kind_label k) (updater_of k) w1 = (Ret tt, w2) /\
    current k wl w2 = Some wl2 /\
    replicas (spec wl2) = N.
Proof.
  intros Hcur Hrej HN Hpos Hdict Hsaved.
  pose proof (build_patch_down_fresh wl dict Hdict Hsaved) as Hb1.
  rewrite HN in Hb1.
  destruct (Z.eqb_spec N 0) as [|_]; [lia|].
  set (p1 := {| patch_metadata := Some (Py.str N); patch_spec := Some 0 |}) in *.
  destruct (updater_of_accepted k wl wl p1 w Hcur Hrej) as (w1 & Hu1 & Hc1 & Hr1).
  set (wl1 := apply_patch p1 wl) in *.
  assert (Hs1 : saved_replicas wl1 = Some (Py.str N)).
  { unfold saved_replicas, wl1. cbn. apply lookup_insert_eq. }
  pose proof (build_patch_up_stopped wl1 (Py.str N) N eq_refl Hs1
                (PyFacts.int_str N)) as Hb2.
  destruct (Z.eqb_spec 0 N) as [|_]; [lia|].
  set (p2 := {| patch_metadata := None; patch_spec := Some N |}) in *.
  set (w1' := with_trace
                (trace w1 ++ [Log (LogScaled (kind_label k)
                                     (namespace (metadata wl))
                                     (name (metadata wl)) 0)]) w1).
  assert (Hrej1 : cluster_rejects (cluster w1') (name (metadata wl1))
                    (namespace (metadata wl1)) = false).
  { cbn. rewrite Hr1. exact Hrej. }
  destruct (updater_of_accepted k wl1 wl1 p2 w1' Hc1 Hrej1)
    as (w2 & Hu2 & Hc2 & Hr2).
  exists w1', wl1, (with_trace
                      (trace w2 ++ [Log (LogScaled (kind_label k)
                                           (namespace (metadata wl1))
                                           (name (metadata wl1)) N)]) w2),
    (apply_patch p2 wl1).
  split. { exact (modify_workload_applied DOWN wl _ _ 0 p1 w w1 Hb1 eq_refl Hu1). }
  split. { exact Hc1. }
  split. { reflexivity. }
  split. { exact Hs1. }
  split. { exact (modify_workload_applied UP wl1 _ _ N p2 w1' w2 Hb2 eq_refl Hu2). }
  split. { exact Hc2. }
  reflexivity.
Qed.

(** C2, at a stopped workload whose annotation is ["abc"]: UP raises
    [ValueError] on line 174; no replica count is computed and nothing is
    patched or logged. *)
Theorem up_malformed_annotation_raises (kind : string)
    (updater : string -> string -> Patch -> M unit) (w : World) :
  replicas (spec stopped_with_bad_annotation) = 0 /\
  saved_replicas stopped_with_bad_annotation = Some "abc" /\
  modify_workload UP stopped_with_bad_annotation kind updater w
  = (Raise ValueError, w).
Proof.
  split; [reflexivity|]. split; [reflexivity|].
  apply modify_workload_malformed with (s := "abc"); reflexivity.
Qed.

(** C4. A workload that the cluster holds with a saved-replicas value
    other than ["0"]: whatever DOWN does (patch applied, patch refused,
    or [int] raising), the value stored afterwards is not ["0"]: it is
    the old one, or the count of the running workload. DOWN of a stopped
    workload, as a second DOWN in a row is, leaves the workload as it
    was. A patch of DOWN carries an annotation only when the workload
    runs or has no annotation yet. *)
Theorem down_keeps_saved_replicas (k : WorkloadKind) (w : World)
    (wl : Workload) (v : string) :
  current k wl w = Some wl ->
  saved_replicas wl = Some v ->
  v <> "0" ->
  (forall d p,
     build_patch DOWN wl = Ret (d, p) ->
     patch_metadata p <> Some "0" /\
     (is_Some (patch_metadata p) -> 0 < replicas (spec wl))) /\
  (forall wl0 d p,
     build_patch DOWN wl0 = Ret (d, p) ->
     is_Some (patch_metadata p) ->
     0 < replicas (spec wl0) \/ saved_replicas wl0 = None) /\
  (forall r w',
     modify_workload DOWN wl (kind_label k) (updater_of k) w = (r, w') ->
     exists wl',
       current k wl w' = Some wl' /\
       saved_replicas wl' <> Some "0" /\
       (saved_replicas wl' = Some v \/
        (0 < replicas (spec wl) /\
         saved_replicas wl' = Some (Py.str (replicas (spec wl))))) /\
       (replicas (spec wl) = 0 ->
        wl' = wl /\ cluster w' = cluster w /\
        Forall (fun e => is_patch_call e = false)
          (drop (length (trace w)) (trace w')))).
Proof.
  intros Hcur Hsaved Hv.
  assert (Hmeta : forall wl0 d p,
            build_patch DOWN wl0 = Ret (d, p) ->
            is_Some (patch_metadata p) ->
            patch_metadata p = Some (Py.str (replicas (spec wl0))) /\
            (0 < replicas (spec wl0) \/ saved_replicas wl0 = None)).
  { intros wl0 d p Hb [x Hx].
    destruct (build_patch_metadata _ _ _ _ Hb) as [Hn | (_ & Hm & Hc)];
      [congruence | auto]. }
  split; [|split].
  - intros d p Hb. split.
    + intros H0. destruct (Hmeta wl d p Hb) as [Hm [Hc | Hc]];
        [rewrite H0; eauto | | congruence].
      rewrite Hm in H0. inversion H0 as [H1].
      exact (str_positive_not_zero _ Hc H1).
    + intros Hs. destruct (Hmeta wl d p Hb Hs) as [_ [Hc | Hc]];
        [exact Hc | congruence].
  - intros wl0 d p Hb Hs. exact (proj2 (Hmeta wl0 d p Hb Hs)).
  - intros r w' Hrun.
    destruct (build_patch DOWN wl) as [[d p]|e] eqn:Hb.
    2:{ rewrite (modify_workload_raise _ _ _ _ e w Hb) in Hrun.
        inversion Hrun; subst. exists wl.
        split; [exact Hcur|]. split; [congruence|]. split; [auto|].
        intros _. split; [reflexivity|]. split; [reflexivity|].
        rewrite drop_all. constructor. }
    destruct (patch_nonempty p) eqn:Hne.
    2:{ rewrite (modify_workload_intact _ _ _ _ d p w Hb Hne) in Hrun.
        inversion Hrun; subst. exists wl.
        split; [exact Hcur|]. split; [congruence|]. split; [auto|].
        intros _. split; [reflexivity|]. split; [reflexivity|].
        cbn [trace with_trace]. rewrite drop_app_length.
        repeat constructor. }
    assert (Hstopped : replicas (spec wl) <> 0).
    { intros E.
      destruct (build_patch_down_stopped_saved wl v d p E Hsaved Hb)
        as [_ ->].
      discriminate. }
    assert (Hsaved' : saved_replicas (apply_patch p wl) <> Some "0" /\
              (saved_replicas (apply_patch p wl) = Some v \/
               (0 < replicas (spec wl) /\
                saved_replicas (apply_patch p wl)
                = Some (Py.str (replicas (spec wl)))))).
    { assert (Hsp : saved_replicas (apply_patch p wl) =
                      match patch_metadata p with
                      | Some m => Some m
                      | None => saved_replicas wl
                      end).
      { unfold saved_replicas. cbn [apply_patch metadata annotations].
        destruct (patch_metadata p); [apply lookup_insert_eq|reflexivity]. }
      rewrite Hsp. clear Hsp.
      destruct (patch_metadata p) as [m|] eqn:Hm.
      - destruct (Hmeta wl d p Hb) as [Hm' [Hc | Hc]];
          [rewrite Hm; eauto | | congruence].
        rewrite Hm in Hm'. inversion Hm'; subst m.
        split; [|auto].
        intros H0. inversion H0 as [H1].
        exact (str_positive_not_zero _ Hc H1).
      - rewrite Hsaved. split; [congruence|auto]. }
    destruct (updater_of_outcome k (name (metadata wl))
                (namespace (metadata wl)) p w)
      as (r0 & w0 & Hu & _ & _ & [[-> Hws] | (-> & _ & Hws)]).
    + rewrite (modify_workload_failed _ _ _ _ d p _ w w0 Hb Hne Hu eq_refl) in Hrun.
      inversion Hrun; subst. exists wl.
      split. { unfold current, lookup_workload in *. cbn [cluster with_trace].
               rewrite Hws. exact Hcur. }
      split; [congruence|]. split; [auto|]. intros E. contradiction.
    + rewrite (modify_workload_applied _ _ _ _ d p w w0 Hb Hne Hu) in Hrun.
      inversion Hrun; subst. exists (apply_patch p wl).
      split. { unfold current, lookup_workload in *. cbn [cluster with_trace].
               rewrite Hws, find_patch_in, Hcur. reflexivity. }
      split; [exact (proj1 Hsaved')|]. split; [exact (proj2 Hsaved')|].
      intros E. contradiction.
Qed.

Lemma down_then_up_restores_dict_witness :
  exists w1 wl1 w2 wl2,
    modify_workload DOWN (web 3 revision) "Deployment"
      AppsV1Api.patch_namespaced_deployment (world_with (web 3 revision))
    = (Ret tt, w1) /\
    current Deployment (web 3 revision) w1 = Some wl1 /\
    replicas (spec wl1) = 0 /\
    saved_replicas wl1 = Some (Py.str 3) /\
    modify_workload UP wl1 "Deployment"
      AppsV1Api.patch_namespaced_deployment w1 = (Ret tt, w2) /\
    current Deployment (web 3 revision) w2 = Some wl2 /\
    replicas (spec wl2) = 3.
Proof.
  apply (down_then_up_restores_dict Deployment (world_with (web 3 revision))
           (web 3 revision) revision 3);
    [reflexivity | reflexivity | reflexivity | lia | reflexivity | reflexivity].
Defined.

(** C1, at a running StatefulSet without annotations: line 174 raises
    [AttributeError] for DOWN as for UP, before anything is patched, so
    the workload is neither stopped nor stamped, and [down] for its
    namespace is aborted with the cluster as it was. *)
Theorem down_without_annotations_raises (kind : string)
    (updater : string -> string -> Patch -> M unit) (w : World) :
  0 < replicas (spec running_without_annotations) /\
  saved_replicas running_without_annotations = None /\
  modify_workload DOWN running_without_annotations kind updater w
  = (Raise AttributeError, w) /\
  modify_workload UP running_without_annotations kind updater w
  = (Raise AttributeError, w) /\
  fst (down MiniRe.engine ["ns1"]
         (stateful_world_with running_without_annotations))
  = Raise AttributeError /\
  cluster (snd (down MiniRe.engine ["ns1"]
                  (stateful_world_with running_without_annotations)))
  = stateful_cluster_with running_without_annotations.
Proof.
  split; [reflexivity|]. split; [reflexivity|].
  split; [apply modify_workload_no_annotations; reflexivity|].
  split; [apply modify_workload_no_annotations; reflexivity|].
  split; reflexivity.
Qed.

Lemma down_keeps_saved_replicas_witness :
  exists wl',
    current Deployment (web 0 {[updown_annotation := "3"]})
      (snd (modify_workload DOWN (web 0 {[updown_annotation := "3"]})
              "Deployment" AppsV1Api.patch_namespaced_deployment
              (world_with (web 0 {[updown_annotation := "3"]})))) = Some wl' /\
    saved_replicas wl' = Some "3".
Proof.
  destruct (down_keeps_saved_replicas Deployment
              (world_with (web 0 {[updown_annotation := "3"]}))
              (web 0 {[updown_annotation := "3"]}) "3")
    as (_ & _ & Hrun); [reflexivity | reflexivity | discriminate |].
  destruct (Hrun _ _ (surjective_pairing _)) as (wl' & Hc & _ & _ & Hsame).
  exists wl'. split; [exact Hc|].
  destruct (Hsame eq_refl) as [-> _]. reflexivity.
Defined.

(** Successive UPs of a workload for which UP has nothing to patch leave
    the cluster alone and never call the client. *)
Lemma repeat_up_noop (wl : Workload) (d : Z) (kind : string)
    (updater : string -> string -> Patch -> M unit) :
  build_patch UP wl
  = Ret (d, {| patch_metadata := None; patch_spec := None |}) ->
  forall (n : nat) (w : World),
  exists w' evs,
    repeat_up n wl kind updater w = (Ret tt, w') /\
    cluster w' = cluster w /\
    trace w' = trace w ++ evs /\
    Forall (fun e => is_patch_call e = false) evs.
Proof.
  intros Hb. unfold repeat_up.
  induction n as [|n IH]; intros w.
  - exists w, []. cbn. rewrite app_nil_r. repeat split. constructor.
  - cbn [replicate for_each]. unfold bind at 1.
    rewrite (modify_workload_intact UP wl kind updater d _ w Hb eq_refl).
    destruct (IH (with_trace
                    (trace w ++ [Log (LogIntact kind (namespace (metadata wl))
                                        (name (metadata wl))
                                        (replicas (spec wl)))]) w))
      as (w' & evs & Hrun & Hc & Ht & Hf).
    exists w', (Log (LogIntact kind (namespace (metadata wl))
                       (name (metadata wl)) (replicas (spec wl))) :: evs).
    split; [exact Hrun|]. split; [exact Hc|].
    split; [rewrite Ht; cbn [trace with_trace]; rewrite <- app_assoc; reflexivity|].
    constructor; [reflexivity|exact Hf].
Qed.

(** X25. A stopped workload whose annotations are a dict without the
    saved-replicas annotation, held by a cluster that accepts the patch:
    DOWN writes the annotation ["0"]; for the workload so patched UP
    computes the desired count 0 and an empty patch, and any number of
    further UPs leaves the cluster as it is without a call of the
    client. *)
Theorem down_on_stopped_blocks_up_dict (k : WorkloadKind) (w : World)
    (wl : Workload) (dict : gmap string string) :
  current k wl w = Some wl ->
  cluster_rejects (cluster w) (name (metadata wl)) (namespace (metadata wl))
    = false ->
  replicas (spec wl) = 0 ->
  annotations (metadata wl) = Some dict ->
  saved_replicas wl = None ->
  exists w1 wl1,
    modify_workload DOWN wl (kind_label k) (updater_of k) w = (Ret tt, w1) /\
    current k wl w1 = Some wl1 /\
    saved_replicas wl1 = Some "0" /\
    replicas (spec wl1) = 0 /\
    build_patch UP wl1
    = Ret (0, {| patch_metadata := None; patch_spec := None |}) /\
    forall (n : nat) (kind : string)
           (updater : string -> string -> Patch -> M unit) (w' : World),
    exists w'' evs,
      repeat_up n wl1 kind updater w' = (Ret tt, w'') /\
      cluster w'' = cluster w' /\
      trace w'' = trace w' ++ evs /\
      Forall (fun e => is_patch_call e = false) evs.
Proof.
  intros Hcur Hrej Hrep Hdict Hsaved.
  pose proof (build_patch_down_fresh wl dict Hdict Hsaved) as Hb1.
  rewrite Hrep in Hb1. cbn in Hb1.
  set (p1 := {| patch_metadata := Some "0"; patch_spec := None |}) in *.
  destruct (updater_of_accepted k wl wl p1 w Hcur Hrej)
    as (w1 & Hu1 & Hc1 & Hr1).
  set (wl1 := apply_patch p1 wl) in *.
  assert (Hs1 : saved_replicas wl1 = Some "0").
  { unfold saved_replicas, wl1. cbn. apply lookup_insert_eq. }
  assert (Hrep1 : replicas (spec wl1) = 0) by exact Hrep.
  pose proof (build_patch_up_stopped wl1 "0" 0 Hrep1 Hs1 eq_refl) as Hb2.
  cbn in Hb2.
  exists (with_trace
            (trace w1 ++ [Log (LogScaled (kind_label k)
                                 (namespace (metadata wl))
                                 (name (metadata wl)) 0)]) w1), wl1.
  split. { exact (modify_workload_applied DOWN wl _ _ 0 p1 w w1 Hb1 eq_refl Hu1). }
  split. { exact Hc1. }
  split. { exact Hs1. }
  split. { exact Hrep1. }
  split. { exact Hb2. }
  intros n kind updater w'. exact (repeat_up_noop wl1 0 kind updater Hb2 n w').
Qed.

Lemma down_on_stopped_blocks_up_dict_witness :
  exists w1 wl1,
    modify_workload DOWN (web 0 revision) "Deployment"
      AppsV1Api.patch_namespaced_deployment (world_with (web 0 revision))
    = (Ret tt, w1) /\
    current Deployment (web 0 revision) w1 = Some wl1 /\
    saved_replicas wl1 = Some "0" /\
    replicas (spec wl1) = 0 /\
    build_patch UP wl1
    = Ret (0, {| patch_metadata := None; patch_spec := None |}).
Proof.
  destruct (down_on_stopped_blocks_up_dict Deployment
              (world_with (web 0 revision)) (web 0 revision) revision)
    as (w1 & wl1 & H1 & H2 & H3 & H4 & H5 & _);
    [reflexivity | reflexivity | reflexivity | reflexivity | reflexivity |].
  exists w1, wl1. repeat split; assumption.
Defined.

(** C5, at a stopped StatefulSet without annotations: DOWN raises
    [AttributeError] on line 174; no annotation is written, so the
    workload does not get the value ["0"], and [down] for its namespace
    is aborted. UP raises in the same way instead of being a no-op. *)
Theorem down_on_stopped_without_annotations_raises (kind : string)
    (updater : string -> string -> Patch -> M unit) (w : World) :
  replicas (spec stopped_without_annotations) = 0 /\
  saved_replicas stopped_without_annotations = None /\
  modify_workload DOWN stopped_without_annotations kind updater w
  = (Raise AttributeError, w) /\
  modify_workload UP stopped_without_annotations kind updater w
  = (Raise AttributeError, w) /\
  fst (down MiniRe.engine ["ns1"]
         (stateful_world_with stopped_without_annotations))
  = Raise AttributeError /\
  current StatefulSet stopped_without_annotations
    (snd (down MiniRe.engine ["ns1"]
            (stateful_world_with stopped_without_annotations)))
  = Some stopped_without_annotations.
Proof.
  split; [reflexivity|]. split; [reflexivity|].
  split; [apply modify_workload_no_annotations; reflexivity|].
  split; [apply modify_workload_no_annotations; reflexivity|].
  split; reflexivity.
Qed.

(** C6, at a running workload whose annotation is ["abc"]: UP raises
    [ValueError] on line 174 instead of leaving the workload intact. With
    a dict of annotations in which the annotation is absent or an
    integer, UP of a running workload is the no-op of
    [up_running_is_noop]. *)
Theorem up_running_malformed_annotation_raises (kind : string)
    (updater : string -> string -> Patch -> M unit) (w : World) :
  0 < replicas (spec running_with_bad_annotation) /\
  modify_workload UP running_with_bad_annotation kind updater w
  = (Raise ValueError, w).
Proof.
  split; [reflexivity|].
  apply modify_workload_malformed with (s := "abc"); reflexivity.
Qed.

(** C10. UP never builds an annotation patch, and after UP, whatever it
    did, every workload of the cluster has the annotations it had
    before; so the saved-replicas value outlives the restore. *)
Theorem up_leaves_annotations (k : WorkloadKind) (w : World) (wl : Workload) :
  (forall d p, build_patch UP wl = Ret (d, p) -> patch_metadata p = None) /\
  (forall r w',
     modify_workload UP wl (kind_label k) (updater_of k) w = (r, w') ->
     forall k' nm ns x,
       lookup_workload k' nm ns w = Some x ->
       exists x',
         lookup_workload k' nm ns w' = Some x' /\
         annotations (metadata x') = annotations (metadata x)).
Proof.
  assert (Hmeta : forall d p,
            build_patch UP wl = Ret (d, p) -> patch_metadata p = None).
  { intros d p Hb.
    destruct (build_patch_metadata _ _ _ _ Hb) as [H | (H & _)];
      [exact H | discriminate]. }
  split; [exact Hmeta|].
  intros r w' Hrun k' nm ns x Hx.
  destruct (build_patch UP wl) as [[d p]|e] eqn:Hb.
  2:{ rewrite (modify_workload_raise _ _ _ _ e w Hb) in Hrun.
      inversion Hrun; subst. eauto. }
  destruct (patch_nonempty p) eqn:Hne.
  2:{ rewrite (modify_workload_intact _ _ _ _ d p w Hb Hne) in Hrun.
      inversion Hrun; subst. eauto. }
  destruct (updater_of_outcome k (name (metadata wl))
              (namespace (metadata wl)) p w)
    as (r0 & w0 & Hu & _ & Hother & Hcase).
  assert (Hw' : cluster w' = cluster w0).
  { destruct Hcase as [[-> _] | (-> & _)].
    - rewrite (modify_workload_failed _ _ _ _ d p _ w w0 Hb Hne Hu eq_refl) in Hrun.
      inversion Hrun; subst. reflexivity.
    - rewrite (modify_workload_applied _ _ _ _ d p w w0 Hb Hne Hu) in Hrun.
      inversion Hrun; subst. reflexivity. }
  unfold lookup_workload in *. rewrite Hw'.
  assert (Hdec : k' = k \/ k' <> k)
    by (destruct k', k; auto; right; discriminate).
  destruct Hdec as [->|Hk].
  - destruct Hcase as [[_ Hws] | (_ & _ & Hws)]; rewrite Hws.
    + eauto.
    + destruct (find_patch_in_other (name (metadata wl))
                  (namespace (metadata wl)) nm ns p _ x Hx)
        as (x' & Hf & Hsame & Hpatched).
      exists x'. split; [exact Hf|].
      destruct (is_target (name (metadata wl)) (namespace (metadata wl)) x).
      * rewrite Hpatched by reflexivity. cbn.
        rewrite (Hmeta d p eq_refl). reflexivity.
      * rewrite Hsame by reflexivity. reflexivity.
  - rewrite (Hother k' Hk). eauto.
Qed.

(** ** The batch throttler *)

(** One call: the counter of [ns] goes up by one; the call pauses, and
    sets the counter to 1, exactly when the new count exceeds
    [batch_size] and [batch_interval] is positive. *)
Lemma wait_on_batch_full_run (ns : string) (batch_size batch_interval : Z)
    (w : World) :
  let c := default 0 (scale_up_counters w !! ns) + 1 in
  wait_on_batch_full ns batch_size batch_interval w =
  if (batch_size <? c) && (0 <? batch_interval) then
    (Ret tt,
     with_scale_up_counters (<[ns := 1]> (<[ns := c]> (scale_up_counters w)))
       (with_trace (trace w ++ [Log (LogWaiting batch_interval ns);
                                Sleep batch_interval])
          (with_scale_up_counters (<[ns := c]> (scale_up_counters w)) w)))
  else
    (Ret tt, with_scale_up_counters (<[ns := c]> (scale_up_counters w)) w).
Proof.
  cbv zeta.
  unfold wait_on_batch_full, bind, scale_up_counters_get,
    scale_up_counters_setitem, scale_up_counters_getitem.
  cbn [scale_up_counters with_scale_up_counters].
  rewrite lookup_insert_eq.
  destruct (batch_size <? default 0 (scale_up_counters w !! ns) + 1);
    [|reflexivity].
  destruct (Z.ltb_spec 0 batch_interval) as [Hi|_]; [|reflexivity].
  cbn [andb]. unfold logging, time_sleep, emit.
  destruct (Z.ltb_spec batch_interval 0) as [|_]; [lia|].
  cbn [trace with_trace scale_up_counters with_scale_up_counters].
  rewrite <- app_assoc. reflexivity.
Qed.

(** With [batch_interval = 0] no sequence of calls ever pauses: the trace
    stays as it is. *)
Lemma no_pause_when_interval_zero (batch_size : Z) (calls : list string) :
  forall w : World,
  exists w',
    for_each calls (fun ns => wait_on_batch_full ns batch_size 0) w
    = (Ret tt, w') /\
    trace w' = trace w.
Proof.
  induction calls as [|ns calls IH]; intros w.
  - exists w. split; reflexivity.
  - cbn [for_each]. unfold bind at 1.
    rewrite wait_on_batch_full_run. cbv zeta.
    rewrite andb_false_r.
    destruct (IH (with_scale_up_counters
                    (<[ns := default 0 (scale_up_counters w !! ns) + 1]>
                       (scale_up_counters w)) w)) as (w' & Hrun & Ht).
    exists w'. split; [exact Hrun | exact Ht].
Qed.

(** With [batch_size = 0] and a positive interval a call pauses whenever
    the counter is not negative, and leaves the counter at 1: every call
    from the start pauses. *)
Lemma pause_when_size_zero (ns : string) (batch_interval : Z) (w : World) :
  0 < batch_interval ->
  0 <= default 0 (scale_up_counters w !! ns) ->
  exists w',
    wait_on_batch_full ns 0 batch_interval w = (Ret tt, w') /\
    trace w' = trace w ++ [Log (LogWaiting batch_interval ns);
                           Sleep batch_interval] /\
    scale_up_counters w' !! ns = Some 1.
Proof.
  intros Hi Hc. rewrite wait_on_batch_full_run. cbv zeta.
  destruct (Z.ltb_spec 0 (default 0 (scale_up_counters w !! ns) + 1));
    [|lia].
  destruct (Z.ltb_spec 0 batch_interval); [|lia].
  cbn [andb]. eexists. split; [reflexivity|].
  split; [reflexivity|]. cbn. apply lookup_insert_eq.
Qed.

(** C3, at [batch_size = 0] and [batch_interval = 5]: the first call for
    a namespace, in a process that has just started, sleeps for five
    seconds. *)
Theorem batch_size_zero_pauses (c : Cluster) (clk : nat -> Q) (ns : string) :
  exists w',
    wait_on_batch_full ns 0 5 (initial_world c clk) = (Ret tt, w') /\
    trace w' = [Log (LogWaiting 5 ns); Sleep 5] /\
    scale_up_counters w' !! ns = Some 1.
Proof.
  destruct (pause_when_size_zero ns 5 (initial_world c clk))
    as (w' & Hrun & Ht & Hc); [lia | cbn; rewrite lookup_empty; cbn; lia |].
  exists w'. split; [exact Hrun|]. split; [exact Ht | exact Hc].
Qed.

(** The example of the spec: with [batch_size = 2] and
    [batch_interval = 5], of five calls in a row the third and the fifth
    pause. *)
Example batch_of_two :
  trace (snd (for_each ["ns1"; "ns1"; "ns1"; "ns1"; "ns1"]
                (fun ns => wait_on_batch_full ns 2 5) (world_with (web 1 revision))))
  = [Log (LogWaiting 5 "ns1"); Sleep 5; Log (LogWaiting 5 "ns1"); Sleep 5]
  /\ scale_up_counters
       (snd (for_each ["ns1"; "ns1"; "ns1"]
               (fun ns => wait_on_batch_full ns 2 5) (world_with (web 1 revision))))
     !! "ns1" = Some 1.
Proof. split; reflexivity. Qed.

(** ** The namespace resolver *)

Section Resolver.

Variable re : ReEngine.

Lemma resolve_loop_spec (all_namespaces : list string)
    (patterns : list string) (compiled : list (re_pattern re)) :
  Forall2 (fun p c => re_compile re (anchored p) = Ret c) patterns compiled ->
  forall resolved : list string,
    resolve_loop re patterns all_namespaces resolved =
    Ret (resolved ++ concat (map (matching re all_namespaces) compiled)).
Proof.
  induction 1 as [|p c ps cs Hp _ IH]; intros resolved.
  - cbn. rewrite app_nil_r. reflexivity.
  - cbn [resolve_loop map concat]. unfold anchored in Hp. rewrite Hp.
    rewrite IH, <- app_assoc. reflexivity.
Qed.

(** A pattern that does not compile makes the loop raise. *)
Lemma resolve_loop_raise (all_namespaces resolved : list string)
    (p : string) (rest : list string) (e : Exception) :
  re_compile re (anchored p) = Raise e ->
  resolve_loop re (p :: rest) all_namespaces resolved = Raise e.
Proof. intros H. cbn [resolve_loop]. unfold anchored in H. rewrite H. reflexivity. Qed.

Lemma occurrences_app (n : string) (l1 l2 : list string) :
  occurrences n (l1 ++ l2) = (occurrences n l1 + occurrences n l2)%nat.
Proof. unfold occurrences. rewrite filter_app, length_app. reflexivity. Qed.

Lemma occurrences_matching (n : string) (all_namespaces : list string)
    (c : re_pattern re) :
  occurrences n (matching re all_namespaces c) =
  if re_match re c n then occurrences n all_namespaces else O.
Proof.
  unfold occurrences, matching.
  induction all_namespaces as [|x l IH].
  - destruct (re_match re c n); reflexivity.
  - rewrite (filter_cons _ x l), (filter_cons (fun y => y = n) x l).
    destruct (decide (re_match re c x = true)) as [Hx|Hx].
    + rewrite (filter_cons (fun y => y = n) x).
      destruct (decide (x = n)) as [->|Hn].
      * cbn [length]. rewrite IH, Hx. reflexivity.
      * exact IH.
    + destruct (decide (x = n)) as [->|Hn].
      * rewrite IH. destruct (re_match re c n); [congruence|reflexivity].
      * exact IH.
Qed.

Lemma occurrences_concat (n : string) (all_namespaces : list string)
    (compiled : list (re_pattern re)) :
  occurrences n (concat (map (matching re all_namespaces) compiled)) =
  (length (filter (fun c => re_match re c n = true) compiled)
   * occurrences n all_namespaces)%nat.
Proof.
  induction compiled as [|c cs IH]; [reflexivity|].
  cbn [map concat]. rewrite occurrences_app, IH, occurrences_matching.
  rewrite (filter_cons _ c cs).
  destruct (decide (re_match re c n = true)) as [Hc|Hc].
  - rewrite Hc. reflexivity.
  - destruct (re_match re c n); [congruence|reflexivity].
Qed.

End Resolver.

(** X23. For patterns that compile once anchored as [^pattern$],
    [resolve_namespaces] lists the namespaces once and returns, pattern
    after pattern, the names of the listing for which [match] of the
    compiled text succeeds, in the order of the listing. Nothing is
    removed: a name occurs once for each pattern that matches it, times
    its occurrences in the listing. *)
Theorem resolve_namespaces_concat (re : ReEngine) (patterns : list string)
    (compiled : list (re_pattern re)) (w : World) :
  Forall2 (fun p c => re_compile re (anchored p) = Ret c) patterns compiled ->
  resolve_namespaces re patterns w =
  (Ret (concat (map (matching re (cluster_namespaces (cluster w))) compiled)),
   with_trace (trace w ++ [CallListNamespace]) w) /\
  forall n : string,
    occurrences n
      (concat (map (matching re (cluster_namespaces (cluster w))) compiled))
    = (length (filter (fun c => re_match re c n = true) compiled)
       * occurrences n (cluster_namespaces (cluster w)))%nat.
Proof.
  intros Hc. split.
  - unfold resolve_namespaces, CoreV1Api.list_namespace, bind, emit, lift.
    cbn [cluster with_trace].
    rewrite (resolve_loop_spec re _ _ _ Hc). reflexivity.
  - intros n. apply occurrences_concat.
Qed.

Lemma resolve_namespaces_concat_witness :
  resolve_namespaces MiniRe.engine team_patterns team_world =
  (Ret ["team-a-dev"; "team-a-prod"; "team-a-prod"],
   with_trace [CallListNamespace] team_world) /\
  occurrences "team-a-prod" ["team-a-dev"; "team-a-prod"; "team-a-prod"] = 2%nat.
Proof.
  assert (H : Forall2 (fun p c => re_compile MiniRe.engine (anchored p) = Ret c)
                team_patterns team_compiled)
    by (repeat constructor).
  destruct (resolve_namespaces_concat MiniRe.engine team_patterns
              team_compiled team_world H) as [Hr Ho].
  split; [exact Hr | exact (Ho "team-a-prod")].
Defined.

(** C7, at the pattern [team-b|team-a-dev]: the text that line 120
    compiles is [^team-b|team-a-dev$], in which each anchor belongs to
    one branch of the alternative only, and [match] accepts every name
    that begins with [team-b]. The namespace [team-b-extra] is returned
    although it does not fully match the pattern; the two names the
    pattern is written for do. *)
Theorem resolve_alternative_matches_prefix :
  anchored either_pattern = "^team-b|team-a-dev$" /\
  resolve_namespaces MiniRe.engine [either_pattern] either_world
  = (Ret ["team-a-dev"; "team-b"; "team-b-extra"],
     with_trace [CallListNamespace] either_world) /\
  fully_matches either_pattern "team-a-dev" = true /\
  fully_matches either_pattern "team-b" = true /\
  fully_matches either_pattern "team-b-extra" = false.
Proof. repeat split. Qed.

(** ** The state aggregator: the sums *)

Section Sums.

Variable parse_quantity : QuantityArg -> Exc Q.
Hypothesis zero : parses_zero parse_quantity.

Local Abbreviation val := (parsed parse_quantity).

(** What [parse_quantity(requests.get(key, 0))] returns for a key whose
    quantity, if any, parses. *)
Lemma parse_request (r : gmap string string) (key : string) :
  match r !! key with
  | Some s =>
      match parse_quantity (QStr s) with Ret _ => true | Raise _ => false end
  | None => true
  end = true ->
  exists q : Q,
    parse_quantity (requests_get r key) = Ret q /\
    (q == match r !! key with Some s => val s | None => 0 end)%Q.
Proof.
  unfold requests_get, parsed.
  destruct (r !! key) as [s|].
  - destruct (parse_quantity (QStr s)) as [q|e]; [|discriminate].
    intros _. exists q. split; reflexivity.
  - intros _. destruct zero as (z & Hz & Hz0). exists z. split; assumption.
Qed.

Lemma sum_containers_spec (n : Z) (cs : list Container) :
  forallb (container_parses parse_quantity) cs = true ->
  forall c0 m0 : Q,
  exists c1 m1 : Q,
    sum_containers parse_quantity cs n c0 m0 = Ret (c1, m1) /\
    (c1 == c0 + containers_request val "cpu" cs n)%Q /\
    (m1 == m0 + containers_request val "memory" cs n)%Q.
Proof.
  induction cs as [|c cs IH]; intros Hall c0 m0.
  - exists c0, m0. cbn. repeat split; ring.
  - cbn [forallb] in Hall. apply andb_true_iff in Hall as [Hc Hcs].
    cbn [sum_containers containers_request]. unfold requested.
    unfold container_parses in Hc.
    destruct (requests c) as [r|].
    + destruct (bool_decide (r = ∅)) eqn:Hr.
      * apply bool_decide_eq_true_1 in Hr. subst r.
        rewrite !lookup_empty.
        destruct (IH Hcs c0 m0) as (c1 & m1 & Hrun & H1 & H2).
        exists c1, m1. split; [exact Hrun|].
        split; [rewrite H1 | rewrite H2]; ring.
      * cbn [forallb] in Hc.
        apply andb_true_iff in Hc as [Hm Hc].
        apply andb_true_iff in Hc as [Hc _].
        destruct (parse_request r "memory" Hm) as (qm & Hqm & Hvm).
        destruct (parse_request r "cpu" Hc) as (qc & Hqc & Hvc).
        rewrite Hqm, Hqc. cbn [exc_bind].
        destruct (IH Hcs (c0 + qc * inject_Z n)%Q (m0 + qm * inject_Z n)%Q)
          as (c1 & m1 & Hrun & H1 & H2).
        exists c1, m1. split; [exact Hrun|].
        split; [rewrite H1, Hvc | rewrite H2, Hvm]; ring.
    + destruct (IH Hcs c0 m0) as (c1 & m1 & Hrun & H1 & H2).
      exists c1, m1. split; [exact Hrun|].
      split; [rewrite H1 | rewrite H2]; ring.
Qed.

Lemma sum_loop_spec (ws : list Workload) :
  requests_parse parse_quantity ws = true ->
  forall (r0 : Z) (c0 m0 : Q),
  exists c1 m1 : Q,
    sum_loop parse_quantity ws r0 c0 m0
    = Ret (r0 + total_replicas ws, c1, m1) /\
    (c1 == c0 + total_request val "cpu" ws)%Q /\
    (m1 == m0 + total_request val "memory" ws)%Q.
Proof.
  induction ws as [|d ws IH]; intros Hall r0 c0 m0.
  - exists c0, m0. cbn. rewrite Z.add_0_r. repeat split; ring.
  - unfold requests_parse in Hall. cbn [forallb] in Hall.
    apply andb_true_iff in Hall as [Hd Hws].
    cbn [sum_loop total_replicas total_request].
    destruct (sum_containers_spec (replicas (spec d)) _ Hd c0 m0)
      as (c1 & m1 & Hrun & H1 & H2).
    rewrite Hrun. cbn [exc_bind].
    destruct (IH Hws (r0 + replicas (spec d)) c1 m1)
      as (c2 & m2 & Hrun2 & H3 & H4).
    exists c2, m2. rewrite Hrun2, Z.add_assoc.
    split; [reflexivity|].
    split; [rewrite H3, H1 | rewrite H4, H2]; ring.
Qed.

(** [sum] returns the replicas and the requests, each multiplied by the
    replicas of its workload, added up. *)
Lemma sum_spec (ws : list Workload) :
  requests_parse parse_quantity ws = true ->
  exists c m : Q,
    sum parse_quantity ws = Ret (total_replicas ws, c, m) /\
    (c == total_request val "cpu" ws)%Q /\
    (m == total_request val "memory" ws)%Q.
Proof.
  intros Hall. unfold sum.
  destruct (sum_loop_spec ws Hall 0 0%Q 0%Q) as (c & m & Hrun & H1 & H2).
  exists c, m. split; [exact Hrun|].
  split; [rewrite H1 | rewrite H2]; ring.
Qed.

Lemma total_replicas_app (ws1 ws2 : list Workload) :
  total_replicas (ws1 ++ ws2) = total_replicas ws1 + total_replicas ws2.
Proof. induction ws1 as [|d ws1 IH]; cbn; [reflexivity | lia]. Qed.

Lemma total_request_app (key : string) (ws1 ws2 : list Workload) :
  (total_request val key (ws1 ++ ws2)
   == total_request val key ws1 + total_request val key ws2)%Q.
Proof.
  induction ws1 as [|d ws1 IH]; cbn [app total_request]; [ring|].
  rewrite IH. ring.
Qed.

Lemma requests_parse_app (ws1 ws2 : list Workload) :
  requests_parse parse_quantity (ws1 ++ ws2) = true ->
  requests_parse parse_quantity ws1 = true /\
  requests_parse parse_quantity ws2 = true.
Proof.
  unfold requests_parse. rewrite forallb_app. apply andb_true_iff.
Qed.

End Sums.

(** ** The state aggregator: the cache *)

Lemma Qlt_bool_iff (x y : Q) : Qlt_bool x y = true <-> (x < y)%Q.
Proof.
  unfold Qlt_bool. rewrite negb_true_iff. split.
  - intros H. apply Qnot_le_lt. intros Hle.
    apply Qle_bool_iff in Hle. congruence.
  - intros H. destruct (Qle_bool y x) eqn:E; [|reflexivity].
    apply Qle_bool_iff in E. exfalso. exact (Qlt_not_le _ _ H E).
Qed.

Lemma fresh_iff (now t : Q) : Qlt_bool now (t + 3) = true <-> (now - t < 3)%Q.
Proof. rewrite Qlt_bool_iff. split; intros H; lra. Qed.

Lemma slept_app (t1 t2 : list Event) :
  slept (t1 ++ t2) = slept t1 + slept t2.
Proof.
  induction t1 as [|e t1 IH]; [reflexivity|].
  destruct e; cbn [app slept]; rewrite IH; try reflexivity. lia.
Qed.

(** Events other than sleeps leave the time as it is. *)
Lemma now_quiet (evs : list Event) (w : World) :
  slept evs = 0 -> now (with_trace (trace w ++ evs) w) = now w.
Proof.
  intros He. unfold now. cbn [clock clock_reads trace with_trace].
  rewrite slept_app, He, Z.add_0_r. reflexivity.
Qed.

(** A cache entry younger than three seconds is returned: the clock is
    read once and the hit is logged. *)
Lemma cached_state_hit (ns : string) (w : World) (cached : NamespaceState)
    (t : Q) :
  ns_state_cache w !! ns = Some cached ->
  ns_state_cache_update_time w !! ns = Some t ->
  (now w - t < 3)%Q ->
  cached_state ns w =
  (Ret (Some cached),
   with_trace (trace w ++ [Log (LogCached ns)])
     (with_clock_reads (S (clock_reads w)) w)).
Proof.
  intros Hc Ht Hf. apply fresh_iff in Hf.
  unfold cached_state. rewrite Hc, Ht.
  unfold bind, time_time. rewrite Hf. reflexivity.
Qed.

(** No entry: nothing is read, not even the clock. *)
Lemma cached_state_absent (ns : string) (w : World) :
  ns_state_cache w !! ns = None ->
  cached_state ns w = (Ret None, w).
Proof. intros Hc. unfold cached_state. rewrite Hc. reflexivity. Qed.

(** An entry of three seconds or more: the clock is read once. *)
Lemma cached_state_expired (ns : string) (w : World)
    (cached : NamespaceState) (t : Q) :
  ns_state_cache w !! ns = Some cached ->
  ns_state_cache_update_time w !! ns = Some t ->
  ~ (now w - t < 3)%Q ->
  cached_state ns w = (Ret None, with_clock_reads (S (clock_reads w)) w).
Proof.
  intros Hc Ht Hf. rewrite <- fresh_iff in Hf.
  unfold cached_state. rewrite Hc, Ht.
  unfold bind, time_time.
  destruct (Qlt_bool (now w) (t + 3)); [congruence|].
  reflexivity.
Qed.

(** Looking into the cache leaves the cluster alone. *)
Lemma cached_state_cluster (ns : string) (w : World)
    (r : Exc (option NamespaceState)) (w1 : World) :
  cached_state ns w = (r, w1) -> cluster w1 = cluster w.
Proof.
  unfold cached_state, bind, time_time, logging, emit, ret.
  destruct (ns_state_cache w !! ns);
    [destruct (ns_state_cache_update_time w !! ns);
     [destruct (Qlt_bool _ _)|]|];
    intros H; inversion H; reflexivity.
Qed.

(** After a miss that left the world [w1]: both kinds are listed, the
    sums are made, and the state is stored with the next reading of the
    clock. *)
Lemma get_state_body_miss (parse_quantity : QuantityArg -> Exc Q)
    (ns : string) (state : gmap string NamespaceState) (w w1 : World)
    (dr sr : Z) (dc dm sc sm : Q) :
  cached_state ns w = (Ret None, w1) ->
  sum parse_quantity (listed ns (cluster_deployments (cluster w1)))
  = Ret (dr, dc, dm) ->
  sum parse_quantity (listed ns (cluster_stateful_sets (cluster w1)))
  = Ret (sr, sc, sm) ->
  let st := {| pods := dr + sr; cpu := (dc + sc)%Q; memory := (dm + sm)%Q |} in
  exists w',
    get_state_body parse_quantity ns state w = (Ret (<[ns := st]> state), w') /\
    trace w' = trace w1 ++ [CallListDeployment ns; CallListStatefulSet ns] /\
    ns_state_cache w' = <[ns := st]> (ns_state_cache w1) /\
    ns_state_cache_update_time w'
    = <[ns := now w1]> (ns_state_cache_update_time w1) /\
    clock_reads w' = S (clock_reads w1) /\
    clock w' = clock w1 /\
    cluster w' = cluster w1.
Proof.
  intros Hmiss Hd Hs st.
  unfold get_state_body, bind at 1. rewrite Hmiss.
  unfold AppsV1Api.list_namespaced_deployment,
    AppsV1Api.list_namespaced_stateful_set, bind, emit, lift, time_time, ret.
  cbn [cluster with_trace trace].
  unfold listed in Hd, Hs. rewrite Hd, Hs.
  eexists. split; [reflexivity|].
  cbn [trace with_trace with_ns_state_cache with_ns_state_cache_update_time
         with_clock_reads ns_state_cache ns_state_cache_update_time
         clock_reads clock cluster].
  rewrite <- app_assoc. split; [reflexivity|]. split; [reflexivity|].
  split; [|repeat split; reflexivity].
  f_equal. unfold now.
  cbn [trace with_trace with_ns_state_cache clock clock_reads].
  rewrite !slept_app. cbn [slept]. rewrite !Z.add_0_r. reflexivity.
Qed.

(** One step of the loop of [get_state], for the namespace [ns] in the
    world [w]. When the cache holds a state for it with a time [t] and
    [now - t < 3], that state is returned and the world only gains the
    log record of the hit: no listing call. When the cache holds nothing
    for it, or a state with [now - t >= 3], both kinds are listed, and
    the state computed from the listings is returned and stored in the
    cache with a time read from the clock after the listings. *)
Lemma get_state_body_cache (parse_quantity : QuantityArg -> Exc Q)
    (ns : string) (state : gmap string NamespaceState) (w : World) :
  (forall (cached : NamespaceState) (t : Q),
     ns_state_cache w !! ns = Some cached ->
     ns_state_cache_update_time w !! ns = Some t ->
     (now w - t < 3)%Q ->
     get_state_body parse_quantity ns state w =
     (Ret (<[ns := cached]> state),
      with_trace (trace w ++ [Log (LogCached ns)])
        (with_clock_reads (S (clock_reads w)) w))) /\
  (forall (dr sr : Z) (dc dm sc sm : Q),
     (ns_state_cache w !! ns = None \/
      exists cached t,
        ns_state_cache w !! ns = Some cached /\
        ns_state_cache_update_time w !! ns = Some t /\
        ~ (now w - t < 3)%Q) ->
     sum parse_quantity (listed ns (cluster_deployments (cluster w)))
     = Ret (dr, dc, dm) ->
     sum parse_quantity (listed ns (cluster_stateful_sets (cluster w)))
     = Ret (sr, sc, sm) ->
     let st :=
       {| pods := dr + sr; cpu := (dc + sc)%Q; memory := (dm + sm)%Q |} in
     exists (w' : World) (stored_at : Q),
       get_state_body parse_quantity ns state w
       = (Ret (<[ns := st]> state), w') /\
       trace w' = trace w ++ [CallListDeployment ns; CallListStatefulSet ns] /\
       ns_state_cache w' = <[ns := st]> (ns_state_cache w) /\
       ns_state_cache_update_time w'
       = <[ns := stored_at]> (ns_state_cache_update_time w) /\
       stored_at
       = (clock w (pred (clock_reads w')) + inject_Z (slept (trace w)))%Q).
Proof.
  split.
  - intros cached t Hc Ht Hf.
    unfold get_state_body, bind.
    rewrite (cached_state_hit ns w cached t Hc Ht Hf). reflexivity.
  - intros dr sr dc dm sc sm Hmiss Hd Hs.
    destruct Hmiss as [Hnone | (cached & t & Hc & Ht & Hf)].
    + destruct (get_state_body_miss parse_quantity ns state w w
                  dr sr dc dm sc sm (cached_state_absent ns w Hnone) Hd Hs)
        as (w' & Hrun & Htr & Hca & Hti & Hreads & _).
      exists w', (now w).
      rewrite Hreads. repeat split; assumption.
    + destruct (get_state_body_miss parse_quantity ns state w
                  (with_clock_reads (S (clock_reads w)) w)
                  dr sr dc dm sc sm
                  (cached_state_expired ns w cached t Hc Ht Hf) Hd Hs)
        as (w' & Hrun & Htr & Hca & Hti & Hreads & _).
      exists w', (now (with_clock_reads (S (clock_reads w)) w)).
      rewrite Hreads. repeat split; assumption.
Qed.

Example get_state_body_cache_example :
  (* within three seconds: the cached state, no listing *)
  get_state_body K8sQuantity.parse_quantity "ns1" ∅ (cached_world 12)
  = (Ret {[ "ns1" := stale_state ]},
     with_trace [Log (LogCached "ns1")]
       (with_clock_reads 1%nat (cached_world 12))) /\
  (* after four seconds: a fresh listing *)
  trace (snd (get_state_body K8sQuantity.parse_quantity "ns1" ∅
                (cached_world 14)))
  = [CallListDeployment "ns1"; CallListStatefulSet "ns1"].
Proof. split; reflexivity. Qed.

(** C9. One namespace of a [get_state] call that does not hit the cache,
    with requests that parse: the state returned and stored has for
    [pods] the sum of the replicas of the listed Deployments and
    StatefulSets, and for [cpu] and [memory] the sum, over every
    container of every listed workload, of the parsed request times the
    replicas of the workload, a request that is absent counting as
    zero. *)
Theorem get_state_body_aggregates (parse_quantity : QuantityArg -> Exc Q)
    (ns : string) (state : gmap string NamespaceState) (w w1 : World) :
  parses_zero parse_quantity ->
  cached_state ns w = (Ret None, w1) ->
  let ws := listed ns (cluster_deployments (cluster w))
            ++ listed ns (cluster_stateful_sets (cluster w)) in
  requests_parse parse_quantity ws = true ->
  exists (st : NamespaceState) (w' : World),
    get_state_body parse_quantity ns state w = (Ret (<[ns := st]> state), w') /\
    ns_state_cache w' !! ns = Some st /\
    pods st = total_replicas ws /\
    (cpu st == total_request (parsed parse_quantity) "cpu" ws)%Q /\
    (memory st == total_request (parsed parse_quantity) "memory" ws)%Q.
Proof.
  intros Hzero Hmiss ws Hall. subst ws.
  pose proof (cached_state_cluster ns w _ w1 Hmiss) as Hcl.
  apply requests_parse_app in Hall as [Hd Hs].
  destruct (sum_spec parse_quantity Hzero _ Hd) as (dc & dm & Hsd & Hdc & Hdm).
  destruct (sum_spec parse_quantity Hzero _ Hs) as (sc & sm & Hss & Hsc & Hsm).
  rewrite <- Hcl in Hsd, Hss.
  destruct (get_state_body_miss parse_quantity ns state w w1 _ _ _ _ _ _
              Hmiss Hsd Hss) as (w' & Hrun & _ & Hca & _).
  eexists _, w'. split; [exact Hrun|].
  split; [rewrite Hca; apply lookup_insert_eq|].
  cbn [pods cpu memory]. rewrite Hcl.
  split; [symmetry; apply total_replicas_app|].
  split; [rewrite Hdc, Hsc | rewrite Hdm, Hsm];
    symmetry; apply total_request_app.
Qed.

Lemma get_state_body_aggregates_witness :
  exists (st : NamespaceState) (w' : World),
    get_state_body K8sQuantity.parse_quantity "ns1" ∅ api_world
    = (Ret {[ "ns1" := st ]}, w') /\
    pods st = 3 /\
    (cpu st == 1.5)%Q /\
    (memory st == 768 * 1024 * 1024)%Q.
Proof.
  destruct (get_state_body_aggregates K8sQuantity.parse_quantity "ns1" ∅
              api_world api_world)
    as (st & w' & Hrun & _ & Hp & Hc & Hm).
  - exists 0%Q. split; reflexivity.
  - reflexivity.
  - reflexivity.
  - exists st, w'. split; [exact Hrun|]. split; [exact Hp|].
    split; [rewrite Hc | rewrite Hm]; reflexivity.
Defined.

(** The example of the spec, run through [get_state] itself. *)
Example get_state_example :
  match get_state MiniRe.engine K8sQuantity.parse_quantity ["ns1"] api_world with
  | (Ret state, w') =>
      match state !! "ns1" with
      | Some st =>
          pods st = 3 /\ (cpu st == 1.5)%Q /\ (memory st == 805306368)%Q /\
          ns_state_cache w' !! "ns1" = Some st
      | None => False
      end
  | _ => False
  end.
Proof. vm_compute. repeat split. Qed.

(** The cache never holds a state without its time, so a look into the
    cache never raises [KeyError]: the cases of the cache are the three
    above. *)
Lemma initial_world_timed (c : Cluster) (clk : nat -> Q) :
  cache_timed (initial_world c clk).
Proof. intros ns [x Hx]. cbn in Hx. rewrite lookup_empty in Hx. discriminate. Qed.

Lemma cached_state_caches (ns : string) (w : World)
    (r : Exc (option NamespaceState)) (w1 : World) :
  cached_state ns w = (r, w1) ->
  ns_state_cache w1 = ns_state_cache w /\
  ns_state_cache_update_time w1 = ns_state_cache_update_time w.
Proof.
  unfold cached_state, bind, time_time, logging, emit, ret.
  destruct (ns_state_cache w !! ns);
    [destruct (ns_state_cache_update_time w !! ns);
     [destruct (Qlt_bool _ _)|]|];
    intros H; inversion H; split; reflexivity.
Qed.

Lemma get_state_body_timed (parse_quantity : QuantityArg -> Exc Q)
    (ns : string) (state : gmap string NamespaceState) (w w' : World)
    (r : Exc (gmap string NamespaceState)) :
  cache_timed w ->
  get_state_body parse_quantity ns state w = (r, w') ->
  cache_timed w'.
Proof.
  intros Hinv. unfold get_state_body, bind at 1.
  destruct (cached_state ns w) as [[[hit|]|e] w1] eqn:Hc;
    destruct (cached_state_caches _ _ _ _ Hc) as [Hc1 Hc2].
  - unfold ret. intros H; inversion H; subst.
    intros n. rewrite Hc1, Hc2. apply Hinv.
  - unfold AppsV1Api.list_namespaced_deployment,
      AppsV1Api.list_namespaced_stateful_set, bind, emit, lift, time_time, ret.
    cbn [cluster with_trace].
    destruct (sum parse_quantity _) as [[[dr dc] dm]|e1];
      [destruct (sum parse_quantity _) as [[[sr sc] sm]|e2]|];
      intros H; inversion H; subst; intros n; cbn;
      rewrite ?Hc1, ?Hc2; try apply Hinv.
    destruct (decide (ns = n)) as [->|Hn].
    + rewrite !lookup_insert_eq. eauto.
    + rewrite !lookup_insert_ne by exact Hn. apply Hinv.
  - intros H; inversion H; subst.
    intros n. rewrite Hc1, Hc2. apply Hinv.
Qed.

(** ** [down] and then [up] on a cluster *)

(** One namespace with a Deployment of three replicas: [down] stops it
    and saves the count, [up] brings the three replicas back. *)
Example down_then_up_example :
  let w1 := snd (down MiniRe.engine ["ns1"] (world_with (web 3 revision))) in
  let w2 := snd (up MiniRe.engine ["ns1"] 0 0 w1) in
  cluster_deployments (cluster w1)
  = [web 0 (<[ updown_annotation := "3" ]> revision)] /\
  cluster_deployments (cluster w2)
  = [web 3 (<[ updown_annotation := "3" ]> revision)] /\
  filter (fun e => is_patch_call e = true) (trace w2) =
  [CallPatchDeployment "web" "ns1"
     {| patch_metadata := Some "3"; patch_spec := Some 0 |};
   CallPatchDeployment "web" "ns1"
     {| patch_metadata := None; patch_spec := Some 3 |}].
Proof. cbv zeta. repeat split; vm_compute; reflexivity. Qed.

(** * Further properties *)

(** ** The batch throttler over sequences of calls *)

Lemma occurrences_cons (n x : string) (l : list string) :
  occurrences n (x :: l)
  = ((if bool_decide (x = n) then 1 else 0) + occurrences n l)%nat.
Proof.
  unfold occurrences. rewrite (filter_cons (fun y => y = n) x l).
  destruct (decide (x = n)) as [->|Hne].
  - rewrite bool_decide_eq_true_2 by reflexivity. reflexivity.
  - rewrite bool_decide_eq_false_2 by exact Hne. reflexivity.
Qed.

Lemma sleeps_app (t1 t2 : list Event) : sleeps (t1 ++ t2) = sleeps t1 ++ sleeps t2.
Proof. unfold sleeps. apply omap_app. Qed.

(** X1. With a batch interval of zero, or a negative one, no sequence of
    calls, for whatever namespaces and batch size, pauses or logs: the
    trace and the cluster stay as they are, and the counter of each
    namespace goes up by the number of calls made for it. *)
Theorem wait_without_interval (batch_size batch_interval : Z)
    (calls : list string) (w : World) :
  batch_interval <= 0 ->
  exists w',
    for_each calls
      (fun ns => wait_on_batch_full ns batch_size batch_interval) w
    = (Ret tt, w') /\
    trace w' = trace w /\
    cluster w' = cluster w /\
    forall ns : string,
      default 0 (scale_up_counters w' !! ns)
      = default 0 (scale_up_counters w !! ns) + Z.of_nat (occurrences ns calls).
Proof.
  intros Hi. revert w. induction calls as [|n calls IH]; intros w.
  - exists w. repeat split. intros ns. cbn. lia.
  - cbn [for_each]. unfold bind at 1.
    rewrite wait_on_batch_full_run. cbv zeta.
    destruct (Z.ltb_spec 0 batch_interval) as [|_]; [lia|].
    rewrite andb_false_r.
    destruct (IH (with_scale_up_counters
                    (<[n := default 0 (scale_up_counters w !! n) + 1]>
                       (scale_up_counters w)) w))
      as (w' & Hrun & Ht & Hc & Hcount).
    exists w'. split; [exact Hrun|]. split; [exact Ht|]. split; [exact Hc|].
    intros ns. rewrite Hcount, occurrences_cons.
    cbn [scale_up_counters with_scale_up_counters].
    destruct (decide (n = ns)) as [->|Hne].
    + rewrite lookup_insert_eq, bool_decide_eq_true_2 by reflexivity.
      cbn [default from_option id]. lia.
    + rewrite lookup_insert_ne by exact Hne.
      rewrite bool_decide_eq_false_2 by exact Hne. lia.
Qed.

Lemma wait_without_interval_witness :
  exists w',
    for_each ["ns1"; "ns2"; "ns1"] (fun ns => wait_on_batch_full ns 1 0)
      (world_with (web 1 revision)) = (Ret tt, w') /\
    trace w' = [] /\
    default 0 (scale_up_counters w' !! "ns1") = 2.
Proof.
  destruct (wait_without_interval 1 0 ["ns1"; "ns2"; "ns1"]
              (world_with (web 1 revision))) as (w' & Hrun & Ht & _ & Hc); [lia|].
  exists w'. split; [exact Hrun|]. split; [exact Ht|]. exact (Hc "ns1").
Defined.

(** From a counter [c] between 1 and the batch size, [m] further calls
    pause [(c - 1 + m) / batch_size] times. *)
Lemma wait_counts (ns : string) (batch_size batch_interval : Z) :
  1 <= batch_size -> 0 < batch_interval ->
  forall (m : nat) (w : World) (c : Z),
    scale_up_counters w !! ns = Some c -> 1 <= c <= batch_size ->
    exists w',
      for_each (replicate m ns)
        (fun n => wait_on_batch_full n batch_size batch_interval) w
      = (Ret tt, w') /\
      sleeps (trace w')
      = sleeps (trace w)
        ++ replicate (Z.to_nat ((c - 1 + Z.of_nat m) / batch_size))
             batch_interval /\
      scale_up_counters w' !! ns
      = Some ((c - 1 + Z.of_nat m) mod batch_size + 1).
Proof.
  intros Hk Hi. induction m as [|m IH]; intros w c Hc Hr.
  - exists w. split; [reflexivity|].
    change (Z.of_nat 0) with 0. rewrite Z.add_0_r.
    rewrite (Z.div_small (c - 1) batch_size) by lia.
    rewrite (Z.mod_small (c - 1) batch_size) by lia.
    cbn. rewrite app_nil_r. split; [reflexivity|].
    rewrite Hc. f_equal. lia.
  - cbn [replicate for_each]. unfold bind at 1.
    rewrite wait_on_batch_full_run. cbv zeta. rewrite Hc. cbn [default from_option id].
    destruct (Z.ltb_spec 0 batch_interval) as [_|]; [|lia].
    rewrite andb_true_r.
    destruct (Z.ltb_spec batch_size (c + 1)) as [Hfull|Hroom].
    + assert (c = batch_size) by lia. subst c.
      match goal with
      | |- context [for_each _ _ ?w1] =>
          destruct (IH w1 1) as (w' & Hrun & Hs & Hcnt);
            [cbn; apply lookup_insert_eq | lia |]
      end.
      exists w'. split; [exact Hrun|].
      replace (1 - 1 + Z.of_nat m) with (Z.of_nat m) in Hs, Hcnt by lia.
      assert (Hd : (batch_size - 1 + Z.of_nat (S m)) / batch_size
                   = 1 + Z.of_nat m / batch_size).
      { replace (batch_size - 1 + Z.of_nat (S m))
          with (1 * batch_size + Z.of_nat m) by lia.
        apply Z.div_add_l. lia. }
      assert (Hm : (batch_size - 1 + Z.of_nat (S m)) mod batch_size
                   = Z.of_nat m mod batch_size).
      { replace (batch_size - 1 + Z.of_nat (S m))
          with (Z.of_nat m + 1 * batch_size) by lia.
        apply Z.mod_add. lia. }
      rewrite Hd, Hm. split; [|exact Hcnt].
      rewrite Hs. cbn [trace with_trace with_scale_up_counters].
      rewrite sleeps_app. cbn [sleeps omap]. rewrite <- app_assoc.
      f_equal.
      assert (0 <= Z.of_nat m / batch_size) by (apply Z.div_pos; lia).
      rewrite Z2Nat.inj_add by lia. reflexivity.
    + match goal with
      | |- context [for_each _ _ ?w1] =>
          destruct (IH w1 (c + 1)) as (w' & Hrun & Hs & Hcnt);
            [cbn; apply lookup_insert_eq | lia |]
      end.
      exists w'. split; [exact Hrun|].
      replace (c - 1 + Z.of_nat (S m)) with (c + 1 - 1 + Z.of_nat m) by lia.
      split; [exact Hs | exact Hcnt].
Qed.

(** X2. A batch size of at least one and a positive interval, in a
    process that has not yet counted for the namespace: of [m + 1] calls
    in a row the first [batch_size] go through, and from then on every
    [batch_size]-th call pauses, [m / batch_size] pauses in all, each of
    the interval; the counter ends at [m mod batch_size + 1]. *)
Theorem wait_pauses_every_batch (ns : string) (batch_size batch_interval : Z)
    (m : nat) (w : World) :
  1 <= batch_size -> 0 < batch_interval ->
  scale_up_counters w !! ns = None ->
  exists w',
    for_each (replicate (S m) ns)
      (fun n => wait_on_batch_full n batch_size batch_interval) w
    = (Ret tt, w') /\
    sleeps (trace w')
    = sleeps (trace w)
      ++ replicate (Z.to_nat (Z.of_nat m / batch_size)) batch_interval /\
    scale_up_counters w' !! ns = Some (Z.of_nat m mod batch_size + 1).
Proof.
  intros Hk Hi Hnone.
  cbn [replicate for_each]. unfold bind at 1.
  rewrite wait_on_batch_full_run. cbv zeta. rewrite Hnone. cbn [default from_option id].
  destruct (Z.ltb_spec batch_size (0 + 1)) as [|_]; [lia|]. cbn [andb].
  match goal with
  | |- context [for_each _ _ ?w1] =>
      destruct (wait_counts ns batch_size batch_interval Hk Hi m w1 1)
        as (w' & Hrun & Hs & Hcnt); [cbn; apply lookup_insert_eq | lia |]
  end.
  exists w'. split; [exact Hrun|].
  replace (1 - 1 + Z.of_nat m) with (Z.of_nat m) in * by lia.
  split; [exact Hs | exact Hcnt].
Qed.

Lemma wait_pauses_every_batch_witness :
  exists w',
    for_each (replicate 5 "ns1") (fun n => wait_on_batch_full n 2 5)
      (world_with (web 1 revision)) = (Ret tt, w') /\
    sleeps (trace w') = [5; 5] /\
    scale_up_counters w' !! "ns1" = Some 1.
Proof.
  destruct (wait_pauses_every_batch "ns1" 2 5 4 (world_with (web 1 revision)))
    as (w' & Hrun & Hs & Hc); [lia | lia | reflexivity |].
  exists w'. split; [exact Hrun|]. split; [exact Hs | exact Hc].
Defined.

(** ** The transition of one workload *)

Lemma int_raises_value_error (s : string) (e : Exception) :
  Py.int s = Raise e -> e = ValueError.
Proof.
  unfold Py.int.
  destruct (match Py.lstrip s with
            | String "+"%char r => Py.scan r Py.AtStart 0
            | String "-"%char r => Z.opp <$> Py.scan r Py.AtStart 0
            | r => Py.scan r Py.AtStart 0
            end); intros H; inversion H; reflexivity.
Qed.

Lemma readable_dict (wl : Workload) :
  readable wl = true ->
  exists dict,
    annotations (metadata wl) = Some dict /\
    annotation_ok wl = true.
Proof.
  unfold readable. destruct (annotations (metadata wl)) as [dict|];
    [eauto | discriminate].
Qed.

Lemma readable_ok (wl : Workload) :
  readable wl = true -> annotation_ok wl = true.
Proof. intros H. destruct (readable_dict wl H) as (_ & _ & Hok). exact Hok. Qed.

Lemma readable_build (action : NamespaceAction) (wl : Workload) :
  readable wl = true ->
  exists d p, build_patch action wl = Ret (d, p).
Proof.
  unfold readable, annotation_ok, saved_replicas, build_patch.
  destruct (annotations (metadata wl)) as [dict|]; [|discriminate].
  destruct (dict !! updown_annotation) as [s|].
  - destruct (Py.int s); [|discriminate]. intros _. cbn. eauto.
  - intros _. cbn. eauto.
Qed.

Lemma unreadable_build (action : NamespaceAction) (wl : Workload) :
  readable wl = false ->
  build_patch action wl = Raise (line_174_error wl).
Proof.
  unfold readable, line_174_error, annotation_ok, saved_replicas, build_patch.
  destruct (annotations (metadata wl)) as [dict|]; [|reflexivity].
  destruct (dict !! updown_annotation) as [s|]; [|discriminate].
  destruct (Py.int s) as [n|e] eqn:E; [discriminate|].
  intros _. rewrite (int_raises_value_error s e E). reflexivity.
Qed.

Lemma build_readable (action : NamespaceAction) (wl : Workload) (d : Z)
    (p : Patch) :
  build_patch action wl = Ret (d, p) -> readable wl = true.
Proof.
  intros Hb. destruct (readable wl) eqn:E; [reflexivity|].
  rewrite (unreadable_build action wl E) in Hb. discriminate.
Qed.

Lemma patch_nonempty_false (p : Patch) :
  patch_nonempty p = false ->
  p = {| patch_metadata := None; patch_spec := None |}.
Proof.
  destruct p as [[m|] [n|]]; cbn; intros H; try discriminate. reflexivity.
Qed.

Lemma apply_patch_empty (x : Workload) :
  apply_patch {| patch_metadata := None; patch_spec := None |} x = x.
Proof. destruct x as [[nm ns ann] [r cs]]. reflexivity. Qed.

Lemma saved_replicas_apply_patch (p : Patch) (x : Workload) :
  saved_replicas (apply_patch p x)
  = match patch_metadata p with
    | Some m => Some m
    | None => saved_replicas x
    end.
Proof.
  unfold saved_replicas. cbn [apply_patch metadata annotations].
  destruct (patch_metadata p); [apply lookup_insert_eq | reflexivity].
Qed.

(** A patch leaves a dict of annotations a dict. *)
Lemma annotations_apply_patch (p : Patch) (x : Workload) :
  is_Some (annotations (metadata x)) ->
  is_Some (annotations (metadata (apply_patch p x))).
Proof.
  cbn [apply_patch metadata annotations].
  destruct (patch_metadata p); eauto.
Qed.

Lemma patch_for_build (action : NamespaceAction) (wl : Workload) (d : Z)
    (p : Patch) :
  build_patch action wl = Ret (d, p) -> patch_for action wl = p.
Proof. unfold patch_for. intros ->. reflexivity. Qed.

Lemma patch_for_bad (action : NamespaceAction) (wl : Workload) :
  readable wl = false ->
  patch_for action wl = {| patch_metadata := None; patch_spec := None |}.
Proof.
  intros H. unfold patch_for. rewrite (unreadable_build action wl H).
  reflexivity.
Qed.

(** The patch built for a readable workload [d] keeps a readable
    workload [x] readable. *)
Lemma apply_patch_readable (action : NamespaceAction) (d x : Workload) :
  readable d = true -> readable x = true ->
  readable (apply_patch (patch_for action d) x) = true.
Proof.
  intros Hd Hx. destruct (readable_build action d Hd) as (n & p & Hb).
  rewrite (patch_for_build _ _ _ _ Hb).
  destruct (readable_dict x Hx) as (dict & Hdict & Hok).
  destruct (annotations_apply_patch p x) as [dict' Hdict'];
    [rewrite Hdict; eauto|].
  unfold readable. rewrite Hdict'.
  unfold annotation_ok. rewrite saved_replicas_apply_patch.
  destruct (build_patch_metadata _ _ _ _ Hb) as [-> | (_ & -> & _)].
  - exact Hok.
  - rewrite PyFacts.int_str. reflexivity.
Qed.

(** The transition keeps a readable workload readable. *)
Lemma transition_ok (action : NamespaceAction) (x : Workload) :
  readable x = true -> readable (transition action x) = true.
Proof. intros Hok. apply apply_patch_readable; exact Hok. Qed.

(** After DOWN the workload is stopped and has the annotation. *)
Lemma transition_down_stopped (x : Workload) :
  readable x = true ->
  replicas (spec (transition DOWN x)) = 0 /\
  is_Some (saved_replicas (transition DOWN x)).
Proof.
  intros Hok. destruct (readable_build DOWN x Hok) as (d & p & Hb).
  unfold transition. rewrite (patch_for_build _ _ _ _ Hb).
  rewrite saved_replicas_apply_patch.
  unfold build_patch in Hb. unfold readable, annotation_ok, saved_replicas in *.
  destruct (annotations (metadata x)) as [dict|]; [|discriminate].
  destruct (dict !! updown_annotation) as [s|] eqn:Ha;
    [destruct (Py.int s); [|discriminate]|];
    cbn [exc_bind] in Hb; inversion Hb; subst; clear Hb;
    cbn [apply_patch spec replicas patch_spec patch_metadata];
    (split; [destruct (Z.eqb_spec (replicas (spec x)) 0); auto|]).
  - destruct (_ || _); eauto.
  - rewrite orb_true_r. eauto.
Qed.

(** The patch built for a workload that has just made the transition is
    empty: a second transition in the same direction changes nothing. *)
Lemma patch_for_transition (action : NamespaceAction) (x : Workload) :
  patch_for action (transition action x)
  = {| patch_metadata := None; patch_spec := None |}.
Proof.
  destruct (readable x) eqn:Hok.
  2:{ unfold transition. rewrite (patch_for_bad action x Hok), apply_patch_empty.
      exact (patch_for_bad action x Hok). }
  pose proof (transition_ok action x Hok) as Hok1.
  destruct (readable_build action (transition action x) Hok1)
    as (d1 & p1 & Hb1).
  rewrite (patch_for_build _ _ _ _ Hb1).
  destruct action.
  - (* UP *)
    destruct (readable_build UP x Hok) as (d & p & Hb).
    unfold transition in Hb1. rewrite (patch_for_build _ _ _ _ Hb) in Hb1.
    assert (Hp : patch_metadata p = None).
    { destruct (build_patch_metadata _ _ _ _ Hb) as [H | (H & _)];
        [exact H | discriminate]. }
    assert (Ha : annotations (metadata (apply_patch p x))
                 = annotations (metadata x)).
    { cbn [apply_patch metadata annotations]. rewrite Hp. reflexivity. }
    unfold build_patch in Hb, Hb1. rewrite Ha in Hb1. clear Ha Hp.
    destruct (annotations (metadata x)) as [dict|]; [|discriminate].
    destruct (match dict !! updown_annotation with
              | Some s => Py.int s
              | None => Ret 1
              end) as [n|e]; [|discriminate].
    cbn [exc_bind] in Hb, Hb1. inversion Hb; subst; clear Hb.
    cbn [apply_patch spec replicas patch_spec] in Hb1.
    inversion Hb1; subst; clear Hb1. f_equal.
    destruct (Z.eqb_spec (replicas (spec x)) 0) as [E0|E0].
    + destruct (Z.eqb_spec (replicas (spec x)) n) as [E1|E1].
      * rewrite E0. cbn. rewrite <- E1, E0. reflexivity.
      * destruct (Z.eqb_spec n 0) as [E2|E2]; [congruence|].
        rewrite Z.eqb_refl. reflexivity.
    + rewrite Z.eqb_refl.
      destruct (Z.eqb_spec (replicas (spec x)) 0); [contradiction|].
      rewrite Z.eqb_refl. reflexivity.
  - (* DOWN *)
    destruct (transition_down_stopped x Hok) as [Hr [v Hv]].
    destruct (build_patch_down_stopped_saved _ v d1 p1 Hr Hv Hb1) as [_ ->].
    reflexivity.
Qed.

Lemma transition_idempotent (action : NamespaceAction) (x : Workload) :
  transition action (transition action x) = transition action x.
Proof.
  unfold transition at 1. rewrite patch_for_transition. apply apply_patch_empty.
Qed.

(** A readable workload that runs, or is stopped without the
    saved-replicas annotation, has its replica count back after DOWN and
    then UP. *)
Lemma transition_round_trip (x : Workload) :
  readable x = true ->
  0 < replicas (spec x) \/ (replicas (spec x) = 0 /\ saved_replicas x = None) ->
  replicas (spec (transition UP (transition DOWN x))) = replicas (spec x).
Proof.
  intros Hok Hres.
  destruct (readable_build DOWN x Hok) as (d & p & Hb).
  assert (Hsaved : saved_replicas (transition DOWN x)
                   = Some (Py.str (replicas (spec x)))).
  { unfold transition. rewrite (patch_for_build _ _ _ _ Hb).
    rewrite saved_replicas_apply_patch.
    destruct (build_patch_metadata _ _ _ _ Hb) as [Hn | (_ & -> & _)];
      [|reflexivity].
    exfalso. unfold build_patch in Hb.
    unfold saved_replicas in Hres.
    destruct (annotations (metadata x)) as [dict|]; [|discriminate].
    destruct (match dict !! updown_annotation with
              | Some s => Py.int s
              | None => Ret 1
              end); [|discriminate].
    cbn [exc_bind] in Hb. inversion Hb; subst; clear Hb.
    cbn [patch_metadata] in Hn.
    destruct Hres as [Hpos | [_ Hnone]].
    - destruct (Z.ltb_spec 0 (replicas (spec x))); [discriminate|lia].
    - rewrite Hnone in Hn.
      rewrite bool_decide_eq_false_2 in Hn by (intros [? ?]; discriminate).
      rewrite orb_true_r in Hn. discriminate. }
  destruct (transition_down_stopped x Hok) as [Hr _].
  pose proof (build_patch_up_stopped _ _ _ Hr Hsaved (PyFacts.int_str _)) as Hu.
  unfold transition at 1. rewrite (patch_for_build _ _ _ _ Hu).
  cbn [apply_patch spec replicas patch_spec].
  destruct (Z.eqb_spec 0 (replicas (spec x))) as [E|E]; [|reflexivity].
  rewrite Hr. exact E.
Qed.

(** ** One call of [modify_workload] *)

(** X3. What leaves [modify_workload], for whatever updater. Without
    annotations line 174 raises [AttributeError]; with a saved-replicas
    annotation that [int] rejects it raises [ValueError]; in both cases
    nothing has been done. In every other case a patch is built, and the
    call returns unless the updater raises what is no [Exception], which
    goes through: an [Exception] of the updater is caught and logged. *)
Theorem modify_workload_raises_iff (action : NamespaceAction) (wl : Workload)
    (kind : string) (updater : string -> string -> Patch -> M unit)
    (w : World) :
  let run := modify_workload action wl kind updater w in
  let failed e w0 :=
    with_trace (trace w0 ++ [Log (LogFailed kind (namespace (metadata wl))
                                    (name (metadata wl)) e)]) w0 in
  (annotations (metadata wl) = None /\ run = (Raise AttributeError, w)) \/
  (exists s, saved_replicas wl = Some s /\ Py.int s = Raise ValueError /\
             run = (Raise ValueError, w)) \/
  (readable wl = true /\
   exists d p,
     build_patch action wl = Ret (d, p) /\
     (patch_nonempty p = false -> fst run = Ret tt) /\
     (patch_nonempty p = true ->
      forall r w0,
        updater (name (metadata wl)) (namespace (metadata wl)) p w = (r, w0) ->
        match r with
        | Ret _ => fst run = Ret tt
        | Raise e =>
            if is_exception e then run = (Ret tt, failed e w0)
            else run = (Raise e, w0)
        end)).
Proof.
  cbv zeta. destruct (readable wl) eqn:Hok.
  - right. right. split; [reflexivity|].
    destruct (readable_build action wl Hok) as (d & p & Hb).
    exists d, p. split; [exact Hb|]. split.
    + intros Hne.
      rewrite (modify_workload_intact _ _ _ _ d p w Hb Hne). reflexivity.
    + intros Hne [[]|e] w0 Hu.
      * rewrite (modify_workload_applied _ _ _ _ d p w w0 Hb Hne Hu).
        reflexivity.
      * destruct (is_exception e) eqn:He.
        -- exact (modify_workload_failed _ _ _ _ d p e w w0 Hb Hne Hu He).
        -- exact (modify_workload_interrupted _ _ _ _ d p e w w0 Hb Hne Hu He).
  - pose proof (unreadable_build action wl Hok) as Hb.
    unfold readable, annotation_ok in Hok. unfold line_174_error in Hb.
    destruct (annotations (metadata wl)) as [dict|] eqn:Hd.
    + right. left.
      destruct (saved_replicas wl) as [s|] eqn:Hs; [|discriminate].
      exists s. split; [reflexivity|].
      destruct (Py.int s) as [n|e] eqn:E; [discriminate|].
      rewrite (int_raises_value_error s e E). split; [reflexivity|].
      apply modify_workload_raise, Hb.
    + left. split; [reflexivity|]. apply modify_workload_raise, Hb.
Qed.

Lemma set_workloads_same (k : WorkloadKind) (c : Cluster) :
  set_workloads k (workloads_of k c) c = c.
Proof. destruct k, c; reflexivity. Qed.

Lemma patch_in_absent (nm ns : string) (body : Patch) (ws : list Workload) :
  existsb (is_target nm ns) ws = false -> patch_in nm ns body ws = ws.
Proof.
  induction ws as [|x ws IH]; [reflexivity|].
  cbn [existsb patch_in map]. intros H.
  apply orb_false_iff in H as [Hx Hws]. rewrite Hx. f_equal. exact (IH Hws).
Qed.

Lemma patched_by_empty (action : NamespaceAction) (d : Workload)
    (ws : list Workload) :
  patch_for action d = {| patch_metadata := None; patch_spec := None |} ->
  map (patched_by action d) ws = ws.
Proof.
  intros Hp. rewrite <- (map_id ws) at 2. apply map_ext. intros x.
  unfold patched_by. rewrite Hp, apply_patch_empty.
  destruct (same_key d x); reflexivity.
Qed.

(** On a server that refuses nothing, a call for a listed object [d]
    with a readable annotation returns and applies the patch built from
    [d] to the workloads of the cluster under the name of [d]. *)
Lemma modify_workload_cluster (k : WorkloadKind) (action : NamespaceAction)
    (d : Workload) (w : World) :
  accepting (cluster w) -> readable d = true ->
  exists w',
    modify_workload action d (kind_label k) (updater_of k) w = (Ret tt, w') /\
    cluster w'
    = set_workloads k (map (patched_by action d) (workloads_of k (cluster w)))
        (cluster w).
Proof.
  intros Hacc Hok.
  destruct (readable_build action d Hok) as (n & p & Hb).
  pose proof (patch_for_build _ _ _ _ Hb) as Hp.
  destruct (patch_nonempty p) eqn:Hne.
  2:{ eexists. split; [exact (modify_workload_intact _ _ _ _ n p w Hb Hne)|].
      cbn [cluster with_trace].
      rewrite patched_by_empty
        by (rewrite Hp; exact (patch_nonempty_false p Hne)).
      symmetry. apply set_workloads_same. }
  assert (Hmap : map (patched_by action d) (workloads_of k (cluster w))
                 = patch_in (name (metadata d)) (namespace (metadata d)) p
                     (workloads_of k (cluster w))).
  { unfold patched_by, same_key, patch_in. rewrite Hp. reflexivity. }
  rewrite Hmap. clear Hmap.
  destruct (existsb (is_target (name (metadata d)) (namespace (metadata d)))
              (workloads_of k (cluster w))) eqn:Hex.
  - assert (Hu : exists w0,
               updater_of k (name (metadata d)) (namespace (metadata d)) p w
               = (Ret tt, w0) /\
               cluster w0
               = set_workloads k
                   (patch_in (name (metadata d)) (namespace (metadata d)) p
                      (workloads_of k (cluster w))) (cluster w)).
    { destruct k; cbn [updater_of workloads_of] in *;
        unfold AppsV1Api.patch_namespaced_deployment,
          AppsV1Api.patch_namespaced_stateful_set, bind, emit;
        cbn [cluster with_trace]; rewrite Hacc, Hex; cbn [orb negb];
        eexists; split; reflexivity. }
    destruct Hu as (w0 & Hu & Hc).
    eexists. split; [exact (modify_workload_applied _ _ _ _ n p w w0 Hb Hne Hu)|].
    exact Hc.
  - assert (Hu : exists w0,
               updater_of k (name (metadata d)) (namespace (metadata d)) p w
               = (Raise ApiException, w0) /\ cluster w0 = cluster w).
    { destruct k; cbn [updater_of workloads_of] in *;
        unfold AppsV1Api.patch_namespaced_deployment,
          AppsV1Api.patch_namespaced_stateful_set, bind, emit;
        cbn [cluster with_trace]; rewrite Hacc, Hex; cbn [orb negb];
        eexists; split; reflexivity. }
    destruct Hu as (w0 & Hu & Hc).
    eexists. split; [exact (modify_workload_failed _ _ _ _ n p _ w w0 Hb Hne Hu eq_refl)|].
    cbn [cluster with_trace]. rewrite Hc, (patch_in_absent _ _ _ _ Hex).
    symmetry. apply set_workloads_same.
Qed.

Lemma workloads_of_set (k : WorkloadKind) (ws : list Workload) (c : Cluster) :
  workloads_of k (set_workloads k ws c) = ws.
Proof. destruct k; reflexivity. Qed.

(** The same for a workload that the cluster holds: it makes the
    transition. *)
Lemma modify_workload_transition (k : WorkloadKind) (action : NamespaceAction)
    (wl : Workload) (w : World) :
  current k wl w = Some wl ->
  cluster_rejects (cluster w) (name (metadata wl)) (namespace (metadata wl))
  = false ->
  readable wl = true ->
  exists w',
    modify_workload action wl (kind_label k) (updater_of k) w = (Ret tt, w') /\
    current k wl w' = Some (transition action wl).
Proof.
  intros Hcur Hrej Hok.
  destruct (readable_build action wl Hok) as (n & p & Hb).
  unfold transition. rewrite (patch_for_build _ _ _ _ Hb).
  destruct (patch_nonempty p) eqn:Hne.
  - destruct (updater_of_accepted k wl wl p w Hcur Hrej) as (w0 & Hu & Hc & _).
    eexists. split; [exact (modify_workload_applied _ _ _ _ n p w w0 Hb Hne Hu)|].
    exact Hc.
  - eexists. split; [exact (modify_workload_intact _ _ _ _ n p w Hb Hne)|].
    rewrite (patch_nonempty_false p Hne), apply_patch_empty. exact Hcur.
Qed.

(** X4. The engine never leaves an annotation it cannot read back: for a
    workload of the cluster whose annotation is absent or an integer,
    after [modify_workload] in either direction, whether the patch was
    applied or refused, the annotation is again absent or an integer, so
    a later call does not raise. *)
Theorem modify_workload_keeps_annotation_readable (k : WorkloadKind)
    (action : NamespaceAction) (wl : Workload) (w : World) :
  current k wl w = Some wl ->
  annotation_ok wl = true ->
  exists wl',
    current k wl (snd (modify_workload action wl (kind_label k)
                         (updater_of k) w)) = Some wl' /\
    annotation_ok wl' = true /\
    (wl' = wl \/ wl' = transition action wl).
Proof.
  intros Hcur Hann.
  destruct (readable wl) eqn:Hok.
  2:{ rewrite (modify_workload_raise _ _ _ _ _ w
                 (unreadable_build action wl Hok)).
      exists wl. split; [exact Hcur|]. split; [exact Hann|]. left. reflexivity. }
  destruct (readable_build action wl Hok) as (n & p & Hb).
  destruct (patch_nonempty p) eqn:Hne.
  2:{ rewrite (modify_workload_intact _ _ _ _ n p w Hb Hne).
      exists wl. split; [exact Hcur|]. split; [exact Hann|]. left. reflexivity. }
  destruct (updater_of_outcome k (name (metadata wl))
              (namespace (metadata wl)) p w)
    as (r0 & w0 & Hu & _ & _ & [[-> Hws] | (-> & _ & Hws)]).
  - rewrite (modify_workload_failed _ _ _ _ n p _ w w0 Hb Hne Hu eq_refl).
    exists wl. split.
    { unfold current, lookup_workload in *. cbn [snd cluster with_trace].
      rewrite Hws. exact Hcur. }
    split; [exact Hann|]. left. reflexivity.
  - rewrite (modify_workload_applied _ _ _ _ n p w w0 Hb Hne Hu).
    exists (transition action wl). split.
    { unfold current, lookup_workload in *. cbn [snd cluster with_trace].
      rewrite Hws, find_patch_in, Hcur. unfold transition.
      rewrite (patch_for_build _ _ _ _ Hb). reflexivity. }
    split; [exact (readable_ok _ (transition_ok action wl Hok))|].
    right. reflexivity.
Qed.

Lemma modify_workload_keeps_annotation_readable_witness :
  exists wl',
    current Deployment (web 3 revision)
      (snd (modify_workload DOWN (web 3 revision) "Deployment"
              AppsV1Api.patch_namespaced_deployment (world_with (web 3 revision))))
    = Some wl' /\
    annotation_ok wl' = true.
Proof.
  destruct (modify_workload_keeps_annotation_readable Deployment DOWN
              (web 3 revision) (world_with (web 3 revision)))
    as (wl' & Hc & Hok & _); [reflexivity | reflexivity |].
  exists wl'. split; [exact Hc | exact Hok].
Defined.

(** X5. UP of a stopped workload that the cluster holds, that the server
    accepts and whose annotations are a dict: the replicas become the
    integer that [int] reads from the saved-replicas annotation (blanks,
    a sign and underscores between digits included), or 1 when the dict
    has no such annotation, and the annotations stay as they are. *)
Theorem up_restores_saved_or_one (k : WorkloadKind) (wl : Workload)
    (dict : gmap string string) (w : World) (n : Z) :
  current k wl w = Some wl ->
  cluster_rejects (cluster w) (name (metadata wl)) (namespace (metadata wl))
  = false ->
  replicas (spec wl) = 0 ->
  annotations (metadata wl) = Some dict ->
  match dict !! updown_annotation with
  | Some s => Py.int s
  | None => Ret 1
  end = Ret n ->
  exists w' wl',
    modify_workload UP wl (kind_label k) (updater_of k) w = (Ret tt, w') /\
    current k wl w' = Some wl' /\
    replicas (spec wl') = n /\
    annotations (metadata wl') = annotations (metadata wl).
Proof.
  intros Hcur Hrej Hr Hdict Hn.
  assert (Hok : readable wl = true).
  { unfold readable, annotation_ok, saved_replicas. rewrite Hdict.
    destruct (dict !! updown_annotation) as [s|]; [|reflexivity].
    rewrite Hn. reflexivity. }
  destruct (modify_workload_transition k UP wl w Hcur Hrej Hok)
    as (w' & Hrun & Hc).
  exists w', (transition UP wl). split; [exact Hrun|]. split; [exact Hc|].
  assert (Hb : build_patch UP wl
               = Ret (n, {| patch_metadata := None;
                            patch_spec := if 0 =? n then None else Some n |})).
  { unfold build_patch. rewrite Hdict, Hn, Hr. reflexivity. }
  unfold transition. rewrite (patch_for_build _ _ _ _ Hb).
  cbn [apply_patch spec replicas metadata annotations patch_spec patch_metadata].
  split; [|reflexivity].
  destruct (Z.eqb_spec 0 n); [congruence | reflexivity].
Qed.

Lemma up_restores_saved_or_one_witness :
  exists w' wl',
    modify_workload UP (web 0 (<[updown_annotation := " +1_0 "]> revision))
      "Deployment" AppsV1Api.patch_namespaced_deployment
      (world_with (web 0 (<[updown_annotation := " +1_0 "]> revision)))
    = (Ret tt, w') /\
    current Deployment (web 0 revision) w' = Some wl' /\
    replicas (spec wl') = 10 /\
    annotations (metadata wl')
    = Some (<[updown_annotation := " +1_0 "]> revision).
Proof.
  destruct (up_restores_saved_or_one Deployment
              (web 0 (<[updown_annotation := " +1_0 "]> revision))
              (<[updown_annotation := " +1_0 "]> revision)
              (world_with (web 0 (<[updown_annotation := " +1_0 "]> revision)))
              10)
    as (w' & wl' & Hrun & Hc & Hr & Ha);
    [reflexivity | reflexivity | reflexivity | reflexivity | reflexivity |].
  exists w', wl'. split; [exact Hrun|]. split; [exact Hc|].
  split; [exact Hr | exact Ha].
Defined.

(** X6. The transition is idempotent. For a readable workload (a dict of
    annotations in which the saved-replicas annotation is absent or an
    integer) that the cluster holds and the server accepts, the call
    returns, and a second call in the same direction for the workload as
    it is now builds an empty patch, calls no updater and only logs that
    the workload was left intact. *)
Theorem modify_workload_idempotent (k : WorkloadKind)
    (action : NamespaceAction) (wl : Workload) (w : World) :
  current k wl w = Some wl ->
  cluster_rejects (cluster w) (name (metadata wl)) (namespace (metadata wl))
  = false ->
  readable wl = true ->
  exists w1 wl1,
    modify_workload action wl (kind_label k) (updater_of k) w = (Ret tt, w1) /\
    current k wl w1 = Some wl1 /\
    forall (kind : string) (updater : string -> string -> Patch -> M unit)
           (w' : World),
      modify_workload action wl1 kind updater w'
      = (Ret tt,
         with_trace
           (trace w' ++ [Log (LogIntact kind (namespace (metadata wl1))
                                (name (metadata wl1)) (replicas (spec wl1)))])
           w').
Proof.
  intros Hcur Hrej Hok.
  destruct (modify_workload_transition k action wl w Hcur Hrej Hok)
    as (w1 & Hrun & Hc).
  exists w1, (transition action wl). split; [exact Hrun|]. split; [exact Hc|].
  intros kind updater w'.
  destruct (readable_build action (transition action wl)
              (transition_ok action wl Hok)) as (d1 & p1 & Hb1).
  pose proof (patch_for_build _ _ _ _ Hb1) as Hp.
  rewrite patch_for_transition in Hp. subst p1.
  exact (modify_workload_intact _ _ _ _ d1 _ w' Hb1 eq_refl).
Qed.

Lemma modify_workload_idempotent_witness :
  exists w1 wl1,
    modify_workload DOWN (web 3 revision) "Deployment"
      AppsV1Api.patch_namespaced_deployment (world_with (web 3 revision))
    = (Ret tt, w1) /\
    current Deployment (web 3 revision) w1 = Some wl1 /\
    fst (modify_workload DOWN wl1 "Deployment"
           AppsV1Api.patch_namespaced_deployment w1) = Ret tt /\
    cluster (snd (modify_workload DOWN wl1 "Deployment"
                    AppsV1Api.patch_namespaced_deployment w1)) = cluster w1.
Proof.
  destruct (modify_workload_idempotent Deployment DOWN (web 3 revision)
              (world_with (web 3 revision)))
    as (w1 & wl1 & Hrun & Hc & Hagain);
    [reflexivity | reflexivity | reflexivity |].
  exists w1, wl1. split; [exact Hrun|]. split; [exact Hc|].
  rewrite Hagain. split; reflexivity.
Defined.

(** ** The resolver: what is returned, and when it raises *)

Lemma in_resolved (re : ReEngine) (all_namespaces : list string)
    (compiled : list (re_pattern re)) (n : string) :
  In n (concat (map (matching re all_namespaces) compiled)) <->
  In n all_namespaces /\ Exists (fun c => re_match re c n = true) compiled.
Proof.
  rewrite in_concat. split.
  - intros (l & Hl & Hn). apply in_map_iff in Hl as (c & <- & Hc).
    unfold matching in Hn. apply list_elem_of_In, list_elem_of_filter in Hn.
    destruct Hn as [Hm Hin]. split; [apply list_elem_of_In, Hin|].
    apply Exists_exists. exists c. split; [apply list_elem_of_In, Hc | exact Hm].
  - intros [Hin Hex]. apply Exists_exists in Hex as (c & Hc & Hm).
    exists (matching re all_namespaces c). split.
    + apply in_map, list_elem_of_In, Hc.
    + unfold matching. apply list_elem_of_In, list_elem_of_filter.
      split; [exact Hm | apply list_elem_of_In, Hin].
Qed.

(** X7. For patterns that compile, a name is in the result of
    [resolve_namespaces] exactly when the cluster lists it and the
    anchored form of one of the patterns matches it: the resolver returns
    no name that does not exist, whatever the patterns, and no existing
    name that no pattern matches. *)
Theorem resolve_namespaces_membership (re : ReEngine) (patterns : list string)
    (compiled : list (re_pattern re)) (w : World) :
  Forall2 (fun p c => re_compile re (anchored p) = Ret c) patterns compiled ->
  exists resolved,
    fst (resolve_namespaces re patterns w) = Ret resolved /\
    forall n : string,
      In n resolved <->
      In n (cluster_namespaces (cluster w)) /\
      Exists (fun c => re_match re c n = true) compiled.
Proof.
  intros Hc. eexists. split.
  - unfold resolve_namespaces, CoreV1Api.list_namespace, bind, emit, lift.
    cbn [cluster with_trace fst].
    rewrite (resolve_loop_spec re _ _ _ Hc). reflexivity.
  - intros n. apply in_resolved.
Qed.

Lemma resolve_namespaces_membership_witness :
  exists resolved,
    fst (resolve_namespaces MiniRe.engine team_patterns team_world)
    = Ret resolved /\
    (In "team-b" resolved <->
     In "team-b" team_namespaces /\
     Exists (fun c => MiniRe.matches c "team-b" = true) team_compiled).
Proof.
  assert (H : Forall2 (fun p c => re_compile MiniRe.engine (anchored p) = Ret c)
                team_patterns team_compiled)
    by (repeat constructor).
  destruct (resolve_namespaces_membership MiniRe.engine team_patterns
              team_compiled team_world H) as (resolved & Hr & Hm).
  exists resolved. split; [exact Hr | exact (Hm "team-b")].
Defined.

Lemma resolve_loop_bad_pattern (re : ReEngine) (all_namespaces : list string)
    (good : list string) (compiled : list (re_pattern re)) (bad : string)
    (rest : list string) (e : Exception) :
  Forall2 (fun p c => re_compile re (anchored p) = Ret c) good compiled ->
  re_compile re (anchored bad) = Raise e ->
  forall resolved : list string,
    resolve_loop re (good ++ bad :: rest) all_namespaces resolved = Raise e.
Proof.
  intros Hgood Hbad.
  induction Hgood as [|p c ps cs Hp _ IH]; intros resolved.
  - apply resolve_loop_raise, Hbad.
  - cbn [app resolve_loop]. unfold anchored in Hp. rewrite Hp. apply IH.
Qed.

(** X8. A pattern that does not compile aborts the whole call, also when
    the patterns before it compile and match: [resolve_namespaces]
    raises the error of [re.compile] after it has listed the namespaces,
    with no partial result, and [up], [down] and [get_state] raise it
    before any workload is listed or patched and before the cache is
    read. *)
Theorem bad_pattern_aborts (re : ReEngine)
    (parse_quantity : QuantityArg -> Exc Q) (good : list string)
    (compiled : list (re_pattern re)) (bad : string) (rest : list string)
    (e : Exception) (batch_size batch_timeout : Z) (w : World) :
  Forall2 (fun p c => re_compile re (anchored p) = Ret c) good compiled ->
  re_compile re (anchored bad) = Raise e ->
  let patterns := good ++ bad :: rest in
  resolve_namespaces re patterns w
  = (Raise e, with_trace (trace w ++ [CallListNamespace]) w) /\
  up re patterns batch_size batch_timeout w
  = (Raise e,
     with_trace (trace w ++ [Log (LogDebugStartingUp patterns);
                             CallListNamespace]) w) /\
  down re patterns w
  = (Raise e,
     with_trace (trace w ++ [Log (LogDebugShuttingDown patterns);
                             CallListNamespace]) w) /\
  get_state re parse_quantity patterns w
  = (Raise e,
     with_trace (trace w ++ [Log (LogDebugGettingState patterns);
                             CallListNamespace]) w).
Proof.
  intros Hgood Hbad patterns.
  assert (Hres : forall w0 : World,
            resolve_namespaces re patterns w0
            = (Raise e, with_trace (trace w0 ++ [CallListNamespace]) w0)).
  { intros w0.
    unfold resolve_namespaces, CoreV1Api.list_namespace, bind, emit, lift.
    cbn [cluster with_trace]. unfold patterns.
    rewrite (resolve_loop_bad_pattern re _ good compiled bad rest e Hgood Hbad).
    reflexivity. }
  split; [apply Hres|].
  unfold up, down, get_state, bind, logging, emit.
  rewrite !Hres. cbn [trace with_trace]. rewrite <- !app_assoc.
  repeat split; reflexivity.
Qed.

Lemma bad_pattern_aborts_witness :
  fst (down MiniRe.engine ["team-a-.*"; "team-(b"; "team-b"] team_world)
  = Raise ReError /\
  cluster (snd (down MiniRe.engine ["team-a-.*"; "team-(b"; "team-b"]
                  team_world)) = cluster team_world.
Proof.
  destruct (bad_pattern_aborts MiniRe.engine K8sQuantity.parse_quantity
              ["team-a-.*"] [compiled_or_empty "team-a-.*"] "team-(b"
              ["team-b"] ReError 0 0 team_world)
    as (_ & _ & Hd & _); [repeat constructor | reflexivity |].
  cbn [app] in Hd. rewrite Hd. split; reflexivity.
Defined.

(** ** Patching the listed objects of a namespace one after the other *)

Lemma same_key_iff (d x : Workload) : same_key d x = true <-> key d = key x.
Proof.
  unfold same_key, is_target, key.
  rewrite andb_true_iff, !String.eqb_eq. split.
  - intros [-> ->]. reflexivity.
  - intros H. inversion H. split; reflexivity.
Qed.

Lemma key_patched_by (action : NamespaceAction) (d x : Workload) :
  key (patched_by action d x) = key x.
Proof. unfold patched_by. destruct (same_key d x); reflexivity. Qed.

Lemma map_key_patched_by (action : NamespaceAction) (d : Workload)
    (ws : list Workload) :
  map key (map (patched_by action d) ws) = map key ws.
Proof. rewrite map_map. apply map_ext. intros x. apply key_patched_by. Qed.

Lemma elem_of_map_key (x : Workload) (ws : list Workload) :
  x ∈ ws -> key x ∈ map key ws.
Proof. intros H. apply list_elem_of_In, in_map, list_elem_of_In, H. Qed.

Lemma key_inj_in (ws : list Workload) (x y : Workload) :
  NoDup (map key ws) -> x ∈ ws -> y ∈ ws -> key x = key y -> x = y.
Proof.
  induction ws as [|z ws IH]; intros Hnd Hx Hy Hk.
  - inversion Hx.
  - cbn [map] in Hnd. apply NoDup_cons in Hnd as [Hz Hnd].
    apply elem_of_cons in Hx as [->|Hx]; apply elem_of_cons in Hy as [->|Hy].
    + reflexivity.
    + exfalso. apply Hz. rewrite Hk. apply elem_of_map_key, Hy.
    + exfalso. apply Hz. rewrite <- Hk. apply elem_of_map_key, Hx.
    + exact (IH Hnd Hx Hy Hk).
Qed.

Lemma existsb_same_key_false (x : Workload) (D : list Workload) :
  key x ∉ map key D -> existsb (fun d => same_key d x) D = false.
Proof.
  induction D as [|d D IH]; [reflexivity|].
  cbn [map existsb]. intros Hn.
  apply not_elem_of_cons in Hn as [Hd HD].
  rewrite (IH HD), orb_false_r.
  destruct (same_key d x) eqn:E; [|reflexivity].
  apply same_key_iff in E. congruence.
Qed.

(** With names that are unique, patching for each listed object in turn
    is the transition of each workload that is listed. *)
Lemma fold_patched (action : NamespaceAction) (D : list Workload) :
  forall ws : list Workload,
    NoDup (map key ws) -> NoDup (map key D) ->
    (forall d, d ∈ D -> d ∈ ws) ->
    foldl (fun ws0 d => map (patched_by action d) ws0) ws D
    = map (fun x => if existsb (fun d => same_key d x) D
                    then transition action x else x) ws.
Proof.
  induction D as [|d D IH]; intros ws Hws HD Hsub.
  - cbn. symmetry. apply map_id.
  - cbn [foldl map] in *. apply NoDup_cons in HD as [Hd HD].
    rewrite IH.
    + rewrite map_map. apply map_ext_in. intros x Hx.
      apply list_elem_of_In in Hx. cbn beta. cbn [existsb].
      unfold patched_by. destruct (same_key d x) eqn:E.
      * apply same_key_iff in E.
        assert (x = d)
          by (symmetry; apply (key_inj_in ws); auto; apply Hsub; left).
        subst x. cbn [orb]. fold (transition action d).
        rewrite (existsb_same_key_false (transition action d) D Hd).
        reflexivity.
      * reflexivity.
    + rewrite map_key_patched_by. exact Hws.
    + exact HD.
    + intros d' Hd'. apply list_elem_of_In, in_map_iff. exists d'.
      split; [|apply list_elem_of_In, Hsub; right; exact Hd'].
      unfold patched_by. destruct (same_key d d') eqn:E; [|reflexivity].
      apply same_key_iff in E. exfalso. apply Hd. rewrite E.
      apply elem_of_map_key, Hd'.
Qed.

Lemma NoDup_key_listed (ns : string) (ws : list Workload) :
  NoDup (map key ws) -> NoDup (map key (listed ns ws)).
Proof.
  unfold listed. induction ws as [|x ws IH]; intros Hnd; [constructor|].
  cbn [map] in Hnd. apply NoDup_cons in Hnd as [Hx Hnd].
  rewrite filter_cons. destruct (decide _); [|exact (IH Hnd)].
  cbn [map]. apply NoDup_cons. split; [|exact (IH Hnd)].
  intros Hin. apply Hx.
  apply list_elem_of_In, in_map_iff in Hin as (y & Hy & Hin).
  rewrite <- Hy. apply elem_of_map_key.
  apply list_elem_of_In, list_elem_of_filter in Hin. apply Hin.
Qed.

Lemma existsb_same_key_listed (ns : string) (ws : list Workload)
    (x : Workload) :
  x ∈ ws ->
  existsb (fun d => same_key d x) (listed ns ws)
  = bool_decide (namespace (metadata x) ∈ [ns]).
Proof.
  intros Hx. destruct (decide (namespace (metadata x) = ns)) as [E|E].
  - rewrite bool_decide_eq_true_2 by (rewrite E; left).
    apply existsb_exists. exists x. split.
    + unfold listed. apply list_elem_of_In, list_elem_of_filter.
      split; [|exact Hx]. unfold AppsV1Api.in_namespace.
      apply String.eqb_eq, E.
    + apply same_key_iff. reflexivity.
  - rewrite bool_decide_eq_false_2
      by (intros H; apply list_elem_of_singleton in H; contradiction).
    destruct (existsb _ _) eqn:Hex; [|reflexivity].
    apply existsb_exists in Hex as (d & Hd & Hk).
    unfold listed in Hd. apply list_elem_of_In, list_elem_of_filter in Hd.
    destruct Hd as [Hns _]. unfold AppsV1Api.in_namespace in Hns.
    apply String.eqb_eq in Hns. apply same_key_iff in Hk.
    unfold key in Hk. inversion Hk. congruence.
Qed.

(** The listed objects of one namespace patched in turn: the transition
    of every workload of that namespace. *)
Lemma fold_patched_listed (action : NamespaceAction) (ns : string)
    (ws : list Workload) :
  NoDup (map key ws) ->
  foldl (fun ws0 d => map (patched_by action d) ws0) ws (listed ns ws)
  = scale_workloads action [ns] ws.
Proof.
  intros Hnd. rewrite fold_patched.
  - unfold scale_workloads. apply map_ext_in. intros x Hx.
    rewrite (existsb_same_key_listed ns ws x) by (apply list_elem_of_In, Hx).
    reflexivity.
  - exact Hnd.
  - apply NoDup_key_listed, Hnd.
  - intros d Hd. unfold listed in Hd. apply list_elem_of_filter in Hd. apply Hd.
Qed.

(** ** The loops of [up] and [down] on the cluster *)

(** A loop whose every step returns and changes the cluster by [step],
    keeping [Inv]. *)
Lemma for_each_steps {A : Type} (body : A -> M unit)
    (step : A -> Cluster -> Cluster) (Inv : Cluster -> Prop) (Q : A -> Prop) :
  (forall a w, Q a -> Inv (cluster w) ->
     exists w', body a w = (Ret tt, w') /\
                cluster w' = step a (cluster w) /\ Inv (cluster w')) ->
  forall (xs : list A) (w : World),
    Forall Q xs -> Inv (cluster w) ->
    exists w',
      for_each xs body w = (Ret tt, w') /\
      cluster w' = foldl (fun c a => step a c) (cluster w) xs /\
      Inv (cluster w').
Proof.
  intros Hbody. induction xs as [|a xs IH]; intros w HQ HI.
  - exists w. repeat split. exact HI.
  - apply Forall_cons in HQ as [Ha Hxs].
    destruct (Hbody a w Ha HI) as (w1 & Hrun1 & Hc1 & HI1).
    destruct (IH w1 Hxs HI1) as (w' & Hrun & Hc & HI').
    exists w'. cbn [for_each foldl]. unfold bind. rewrite Hrun1.
    split; [exact Hrun|]. split; [rewrite Hc, Hc1; reflexivity | exact HI'].
Qed.

Lemma set_workloads_twice (k : WorkloadKind) (a b : list Workload)
    (c : Cluster) :
  set_workloads k a (set_workloads k b c) = set_workloads k a c.
Proof. destruct k; reflexivity. Qed.

Lemma fold_set_workloads (k : WorkloadKind) (action : NamespaceAction)
    (D : list Workload) :
  forall c : Cluster,
    foldl (fun c0 d =>
             set_workloads k (map (patched_by action d) (workloads_of k c0)) c0)
      c D
    = set_workloads k
        (foldl (fun ws0 d => map (patched_by action d) ws0)
           (workloads_of k c) D) c.
Proof.
  induction D as [|d D IH]; intros c; cbn [foldl].
  - symmetry. apply set_workloads_same.
  - rewrite IH, workloads_of_set, set_workloads_twice. reflexivity.
Qed.

(** The loop over the listed objects of one kind in one namespace, for a
    body that patches as [modify_workload] does. *)
Lemma for_each_kind (k : WorkloadKind) (action : NamespaceAction)
    (body : Workload -> M unit) (ns : string) :
  (forall d w, accepting (cluster w) -> readable d = true ->
     exists w',
       body d w = (Ret tt, w') /\
       cluster w'
       = set_workloads k
           (map (patched_by action d) (workloads_of k (cluster w))) (cluster w)) ->
  forall w : World,
    accepting (cluster w) ->
    NoDup (map key (workloads_of k (cluster w))) ->
    (forall x, x ∈ workloads_of k (cluster w) ->
               namespace (metadata x) = ns -> readable x = true) ->
    exists w',
      for_each (listed ns (workloads_of k (cluster w))) body w = (Ret tt, w') /\
      cluster w'
      = set_workloads k
          (scale_workloads action [ns] (workloads_of k (cluster w))) (cluster w).
Proof.
  intros Hbody w Hacc Hnd Hok.
  destruct (for_each_steps body
              (fun d c => set_workloads k
                            (map (patched_by action d) (workloads_of k c)) c)
              accepting (fun d => readable d = true))
    with (xs := listed ns (workloads_of k (cluster w))) (w := w)
    as (w' & Hrun & Hc & _).
  - intros d w0 Hd Hacc0. destruct (Hbody d w0 Hacc0 Hd) as (w1 & Hr & Hc).
    exists w1. split; [exact Hr|]. split; [exact Hc|].
    rewrite Hc. intros nm n. destruct k; apply Hacc0.
  - apply Forall_forall. intros d Hd. unfold listed in Hd.
    apply list_elem_of_filter in Hd as [Hns Hd].
    apply (Hok d Hd). apply String.eqb_eq, Hns.
  - exact Hacc.
  - exists w'. split; [exact Hrun|].
    rewrite Hc, fold_set_workloads, fold_patched_listed by exact Hnd.
    reflexivity.
Qed.

(** The throttler returns and leaves the cluster alone. *)
Lemma wait_on_batch_full_cluster (ns : string) (batch_size batch_interval : Z)
    (w : World) :
  exists w',
    wait_on_batch_full ns batch_size batch_interval w = (Ret tt, w') /\
    cluster w' = cluster w.
Proof.
  rewrite wait_on_batch_full_run. cbv zeta.
  destruct (_ && _); eexists; split; reflexivity.
Qed.

Lemma scale_workloads_key (action : NamespaceAction) (nss : list string)
    (ws : list Workload) :
  map key (scale_workloads action nss ws) = map key ws.
Proof.
  unfold scale_workloads. rewrite map_map. apply map_ext. intros x.
  destruct (bool_decide _); reflexivity.
Qed.

Lemma manageable_scale (R : list string) (action : NamespaceAction)
    (nss : list string) (c : Cluster) :
  manageable R c -> manageable R (scale_cluster action nss c).
Proof.
  intros (Hacc & [Hd Hs] & Hok). split; [|split].
  - exact Hacc.
  - split; cbn [scale_cluster cluster_deployments cluster_stateful_sets];
      rewrite scale_workloads_key; assumption.
  - intros k y Hy Hns.
    assert (Hx : exists x, x ∈ workloads_of k c /\
                           namespace (metadata y) = namespace (metadata x) /\
                           (y = x \/ y = transition action x)).
    { destruct k; cbn [workloads_of scale_cluster cluster_deployments
                         cluster_stateful_sets] in Hy;
        unfold scale_workloads in Hy;
        apply list_elem_of_In, in_map_iff in Hy as (x & <- & Hx);
        exists x; (split; [apply list_elem_of_In, Hx|]);
        destruct (bool_decide _); auto. }
    destruct Hx as (x & Hx & Hn & [-> | ->]).
    + exact (Hok k x Hx Hns).
    + apply transition_ok. apply (Hok k x Hx). rewrite <- Hn. exact Hns.
Qed.

(** One namespace after the other is all of them at once: a second
    transition of a workload changes nothing. *)
Lemma scale_workloads_fold (action : NamespaceAction) (nss : list string) :
  forall ws : list Workload,
    foldl (fun ws0 ns => scale_workloads action [ns] ws0) ws nss
    = scale_workloads action nss ws.
Proof.
  induction nss as [|n nss IH]; intros ws; cbn [foldl].
  - unfold scale_workloads. rewrite <- (map_id ws) at 1. apply map_ext.
    intros x. rewrite bool_decide_eq_false_2 by apply not_elem_of_nil.
    reflexivity.
  - rewrite IH. unfold scale_workloads. rewrite map_map. apply map_ext.
    intros x. destruct (decide (namespace (metadata x) = n)) as [E|E].
    + rewrite (bool_decide_eq_true_2 (namespace (metadata x) ∈ [n]))
        by (rewrite E; left).
      rewrite (bool_decide_eq_true_2 (namespace (metadata x) ∈ n :: nss))
        by (rewrite E; left).
      change (namespace (metadata (transition action x)))
        with (namespace (metadata x)).
      destruct (bool_decide _); [apply transition_idempotent | reflexivity].
    + rewrite (bool_decide_eq_false_2 (namespace (metadata x) ∈ [n]))
        by (intros H; apply list_elem_of_singleton in H; contradiction).
      rewrite (bool_decide_ext (namespace (metadata x) ∈ n :: nss)
                 (namespace (metadata x) ∈ nss))
        by (rewrite elem_of_cons; tauto).
      reflexivity.
Qed.

Lemma scale_cluster_fold (action : NamespaceAction) (nss : list string) :
  forall c : Cluster,
    foldl (fun c0 ns => scale_cluster action [ns] c0) c nss
    = scale_cluster action nss c.
Proof.
  intros c.
  assert (H : forall c0 : Cluster,
            foldl (fun c1 ns => scale_cluster action [ns] c1) c0 nss
            = {| cluster_namespaces := cluster_namespaces c0;
                 cluster_deployments :=
                   foldl (fun ws0 ns => scale_workloads action [ns] ws0)
                     (cluster_deployments c0) nss;
                 cluster_stateful_sets :=
                   foldl (fun ws0 ns => scale_workloads action [ns] ws0)
                     (cluster_stateful_sets c0) nss;
                 cluster_rejects := cluster_rejects c0 |}).
  { induction nss as [|n nss IH]; intros c0; cbn [foldl].
    - destruct c0; reflexivity.
    - rewrite IH. reflexivity. }
  rewrite H, !scale_workloads_fold. reflexivity.
Qed.

Lemma scale_cluster_rev (action : NamespaceAction) (nss : list string)
    (c : Cluster) :
  scale_cluster action (rev nss) c = scale_cluster action nss c.
Proof.
  unfold scale_cluster, scale_workloads. f_equal; apply map_ext; intros x;
    (rewrite (bool_decide_ext (namespace (metadata x) ∈ rev nss)
                (namespace (metadata x) ∈ nss));
     [reflexivity | rewrite !list_elem_of_In; symmetry; apply in_rev]).
Qed.

Lemma bind_run {A B : Type} (c : M A) (k : A -> M B) (w w1 : World) (a : A) :
  c w = (Ret a, w1) -> bind c k w = k a w1.
Proof. intros H. unfold bind. rewrite H. reflexivity. Qed.

Lemma logging_run (r : LogRecord) (w : World) :
  logging r w = (Ret tt, with_trace (trace w ++ [Log r]) w).
Proof. reflexivity. Qed.

Lemma list_namespaced_deployment_run (ns : string) (w : World) :
  AppsV1Api.list_namespaced_deployment ns w
  = (Ret (listed ns (cluster_deployments (cluster w))),
     with_trace (trace w ++ [CallListDeployment ns]) w).
Proof. reflexivity. Qed.

Lemma list_namespaced_stateful_set_run (ns : string) (w : World) :
  AppsV1Api.list_namespaced_stateful_set ns w
  = (Ret (listed ns (cluster_stateful_sets (cluster w))),
     with_trace (trace w ++ [CallListStatefulSet ns]) w).
Proof. reflexivity. Qed.

Lemma resolve_namespaces_run (re : ReEngine) (patterns : list string)
    (compiled : list (re_pattern re)) (w : World) :
  Forall2 (fun p c => re_compile re (anchored p) = Ret c) patterns compiled ->
  resolve_namespaces re patterns w
  = (Ret (resolved_by re compiled (cluster w)),
     with_trace (trace w ++ [CallListNamespace]) w).
Proof.
  intros Hc.
  unfold resolve_namespaces, CoreV1Api.list_namespace, bind, emit, lift.
  cbn [cluster with_trace].
  rewrite (resolve_loop_spec re _ _ _ Hc). reflexivity.
Qed.

(** Both loops of one namespace, in either order, scale the namespace. *)
Lemma namespace_loops (action : NamespaceAction) (k1 k2 : WorkloadKind)
    (body1 body2 : Workload -> M unit) (R : list string) (ns : string)
    (w : World) :
  k1 <> k2 ->
  (forall d w0, accepting (cluster w0) -> readable d = true ->
     exists w',
       body1 d w0 = (Ret tt, w') /\
       cluster w'
       = set_workloads k1
           (map (patched_by action d) (workloads_of k1 (cluster w0)))
           (cluster w0)) ->
  (forall d w0, accepting (cluster w0) -> readable d = true ->
     exists w',
       body2 d w0 = (Ret tt, w') /\
       cluster w'
       = set_workloads k2
           (map (patched_by action d) (workloads_of k2 (cluster w0)))
           (cluster w0)) ->
  ns ∈ R -> manageable R (cluster w) ->
  exists w1 w2,
    for_each (listed ns (workloads_of k1 (cluster w))) body1 w = (Ret tt, w1) /\
    for_each (listed ns (workloads_of k2 (cluster w))) body2 w1 = (Ret tt, w2) /\
    cluster w2 = scale_cluster action [ns] (cluster w).
Proof.
  intros Hk Hb1 Hb2 Hns (Hacc & [Hd Hs] & Hok).
  assert (Hnd : forall k, NoDup (map key (workloads_of k (cluster w))))
    by (intros []; assumption).
  assert (Hoks : forall k x, x ∈ workloads_of k (cluster w) ->
                   namespace (metadata x) = ns -> readable x = true).
  { intros k x Hx E. apply (Hok k x Hx). rewrite E. exact Hns. }
  destruct (for_each_kind k1 action body1 ns Hb1 w Hacc (Hnd k1) (Hoks k1))
    as (w1 & Hrun1 & Hc1).
  assert (Hsame : workloads_of k2 (cluster w1) = workloads_of k2 (cluster w)).
  { rewrite Hc1. destruct k1, k2; try contradiction; reflexivity. }
  assert (Hacc1 : accepting (cluster w1)).
  { rewrite Hc1. intros nm n. destruct k1; apply Hacc. }
  destruct (for_each_kind k2 action body2 ns Hb2 w1 Hacc1) as (w2 & Hrun2 & Hc2).
  { rewrite Hsame. apply Hnd. }
  { rewrite Hsame. apply Hoks. }
  rewrite Hsame in Hrun2, Hc2.
  exists w1, w2. split; [exact Hrun1|]. split; [exact Hrun2|].
  rewrite Hc2, Hc1.
  destruct k1, k2; try contradiction; reflexivity.
Qed.

Lemma down_body_step (k : WorkloadKind) (d : Workload) (w0 : World) :
  accepting (cluster w0) -> readable d = true ->
  exists w',
    modify_workload DOWN d (kind_label k) (updater_of k) w0 = (Ret tt, w') /\
    cluster w'
    = set_workloads k
        (map (patched_by DOWN d) (workloads_of k (cluster w0))) (cluster w0).
Proof. apply modify_workload_cluster. Qed.

Lemma up_body_step (k : WorkloadKind) (ns : string)
    (batch_size batch_timeout : Z) (d : Workload) (w0 : World) :
  accepting (cluster w0) -> readable d = true ->
  exists w',
    bind (wait_on_batch_full ns batch_size batch_timeout)
      (fun _ => modify_workload UP d (kind_label k) (updater_of k)) w0
    = (Ret tt, w') /\
    cluster w'
    = set_workloads k
        (map (patched_by UP d) (workloads_of k (cluster w0))) (cluster w0).
Proof.
  intros Hacc Hok.
  destruct (wait_on_batch_full_cluster ns batch_size batch_timeout w0)
    as (w1 & Hw & Hc).
  rewrite (bind_run _ _ _ _ _ Hw). rewrite <- Hc in Hacc |- *.
  apply modify_workload_cluster; assumption.
Qed.

(** [down] on a manageable cluster returns and stops the namespaces that
    the patterns resolve to. *)
Lemma down_cluster (re : ReEngine) (patterns : list string)
    (compiled : list (re_pattern re)) (w : World) :
  Forall2 (fun p c => re_compile re (anchored p) = Ret c) patterns compiled ->
  manageable (resolved_by re compiled (cluster w)) (cluster w) ->
  exists w',
    down re patterns w = (Ret tt, w') /\
    cluster w'
    = scale_cluster DOWN (resolved_by re compiled (cluster w)) (cluster w).
Proof.
  intros Hc Hm. set (R := resolved_by re compiled (cluster w)) in *.
  unfold down.
  rewrite (bind_run _ _ _ _ _ (logging_run _ w)).
  rewrite (bind_run _ _ _ _ _ (resolve_namespaces_run re patterns compiled _ Hc)).
  cbn [cluster with_trace]. fold R.
  match goal with
  | |- exists w', for_each ?xs ?body ?w1 = _ /\ _ =>
      pose proof (fun H => for_each_steps body
                              (fun ns c => scale_cluster DOWN [ns] c)
                              (manageable R) (fun ns => ns ∈ R) H xs w1)
        as Hloop
  end.
  destruct Hloop as (w' & Hrun & Hcl & _).
  - intros ns w0 Hns Hm0.
    rewrite (bind_run _ _ _ _ _ (logging_run _ w0)).
    rewrite (bind_run _ _ _ _ _ (list_namespaced_deployment_run ns _)).
    rewrite (bind_run _ _ _ _ _ (list_namespaced_stateful_set_run ns _)).
    cbn [cluster with_trace].
    match goal with
    | |- exists w', bind (for_each _ ?b1) (fun _ => for_each _ ?b2) ?w1 = _ /\ _ =>
        destruct (namespace_loops DOWN Deployment StatefulSet b1 b2 R ns w1)
          as (wa & wb & Hr1 & Hr2 & Hcb)
    end.
    + discriminate.
    + apply (down_body_step Deployment).
    + apply (down_body_step StatefulSet).
    + exact Hns.
    + exact Hm0.
    + cbn [cluster with_trace workloads_of] in Hr1, Hr2, Hcb.
      exists wb. rewrite (bind_run _ _ _ _ _ Hr1).
      split; [exact Hr2|]. split; [exact Hcb|].
      rewrite Hcb. apply manageable_scale, Hm0.
  - apply Forall_forall. intros ns Hns.
    apply list_elem_of_In, in_rev, list_elem_of_In, Hns.
  - exact Hm.
  - exists w'. split; [exact Hrun|].
    rewrite Hcl. cbn [cluster with_trace].
    rewrite scale_cluster_fold. apply scale_cluster_rev.
Qed.

(** [up] on a manageable cluster returns, whatever the batch size and
    interval, and applies UP to the namespaces that the patterns resolve
    to. *)
Lemma up_cluster (re : ReEngine) (patterns : list string)
    (compiled : list (re_pattern re)) (batch_size batch_timeout : Z)
    (w : World) :
  Forall2 (fun p c => re_compile re (anchored p) = Ret c) patterns compiled ->
  manageable (resolved_by re compiled (cluster w)) (cluster w) ->
  exists w',
    up re patterns batch_size batch_timeout w = (Ret tt, w') /\
    cluster w'
    = scale_cluster UP (resolved_by re compiled (cluster w)) (cluster w).
Proof.
  intros Hc Hm. set (R := resolved_by re compiled (cluster w)) in *.
  unfold up.
  rewrite (bind_run _ _ _ _ _ (logging_run _ w)).
  rewrite (bind_run _ _ _ _ _ (resolve_namespaces_run re patterns compiled _ Hc)).
  cbn [cluster with_trace]. fold R.
  match goal with
  | |- exists w', for_each ?xs ?body ?w1 = _ /\ _ =>
      pose proof (fun H => for_each_steps body
                              (fun ns c => scale_cluster UP [ns] c)
                              (manageable R) (fun ns => ns ∈ R) H xs w1)
        as Hloop
  end.
  destruct Hloop as (w' & Hrun & Hcl & _).
  - intros ns w0 Hns Hm0.
    rewrite (bind_run _ _ _ _ _ (list_namespaced_deployment_run ns _)).
    rewrite (bind_run _ _ _ _ _ (list_namespaced_stateful_set_run ns _)).
    rewrite (bind_run _ _ _ _ _ (logging_run _ _)).
    cbn [cluster with_trace].
    match goal with
    | |- exists w', bind (for_each _ ?b1) (fun _ => for_each _ ?b2) ?w1 = _ /\ _ =>
        destruct (namespace_loops UP StatefulSet Deployment b1 b2 R ns w1)
          as (wa & wb & Hr1 & Hr2 & Hcb)
    end.
    + discriminate.
    + apply (up_body_step StatefulSet).
    + apply (up_body_step Deployment).
    + exact Hns.
    + exact Hm0.
    + cbn [cluster with_trace workloads_of] in Hr1, Hr2, Hcb.
      exists wb. rewrite (bind_run _ _ _ _ _ Hr1).
      split; [exact Hr2|]. split; [exact Hcb|].
      rewrite Hcb. apply manageable_scale, Hm0.
  - apply Forall_forall. intros ns Hns. exact Hns.
  - exact Hm.
  - exists w'. split; [exact Hrun|].
    rewrite Hcl. cbn [cluster with_trace].
    apply scale_cluster_fold.
Qed.

(** ** [down] and [up] on the cluster *)

Lemma workloads_of_scale (k : WorkloadKind) (action : NamespaceAction)
    (nss : list string) (c : Cluster) :
  workloads_of k (scale_cluster action nss c)
  = scale_workloads action nss (workloads_of k c).
Proof. destruct k; reflexivity. Qed.

Lemma elem_of_scale_workloads (action : NamespaceAction) (nss : list string)
    (ws : list Workload) (y : Workload) :
  y ∈ scale_workloads action nss ws <->
  exists x, x ∈ ws /\
            y = if bool_decide (namespace (metadata x) ∈ nss)
                then transition action x else x.
Proof.
  unfold scale_workloads. rewrite list_elem_of_In, in_map_iff.
  split; intros (x & H1 & H2).
  - exists x. split; [apply list_elem_of_In, H2 | symmetry; exact H1].
  - exists x. split; [symmetry; exact H2 | apply list_elem_of_In, H1].
Qed.

Lemma transition_up_replicas (x : Workload) :
  readable x = true ->
  replicas (spec (transition UP x)) = restored_replicas x /\
  annotations (metadata (transition UP x)) = annotations (metadata x).
Proof.
  intros Hok. destruct (readable_build UP x Hok) as (d & p & Hb).
  unfold transition. rewrite (patch_for_build _ _ _ _ Hb).
  unfold restored_replicas. unfold build_patch in Hb.
  unfold readable, annotation_ok, saved_replicas in *.
  destruct (annotations (metadata x)) as [dict|] eqn:Hdict; [|discriminate].
  destruct (dict !! updown_annotation) as [s|];
    [destruct (Py.int s) as [n|e]; [|discriminate]|];
    cbn [exc_bind] in Hb; inversion Hb; subst; clear Hb;
    cbn [apply_patch spec replicas metadata annotations patch_spec
           patch_metadata];
    (split; [|first [reflexivity | exact Hdict]]);
    destruct (Z.eqb_spec (replicas (spec x)) 0) as [E|E];
    try (rewrite Z.eqb_refl; reflexivity);
    match goal with
    | |- context [?a =? ?b] => destruct (Z.eqb_spec a b); congruence
    end.
Qed.

(** X9. [down] on a cluster whose server refuses nothing, where names
    are unique and the workloads of the namespaces concerned are
    readable (each has a dict of annotations in which the saved-replicas
    annotation is absent or an integer), for patterns that compile: the
    call returns; every workload of a namespace that the patterns
    resolve to makes the DOWN transition and ends with zero replicas and
    an annotation; the workloads of the other namespaces are left as
    they were. *)
Theorem down_stops_resolved_namespaces (re : ReEngine)
    (patterns : list string) (compiled : list (re_pattern re)) (w : World) :
  Forall2 (fun p c => re_compile re (anchored p) = Ret c) patterns compiled ->
  manageable (resolved_by re compiled (cluster w)) (cluster w) ->
  exists w',
    down re patterns w = (Ret tt, w') /\
    cluster w'
    = scale_cluster DOWN (resolved_by re compiled (cluster w)) (cluster w) /\
    (forall k x,
       x ∈ workloads_of k (cluster w') ->
       namespace (metadata x) ∈ resolved_by re compiled (cluster w) ->
       replicas (spec x) = 0 /\ is_Some (saved_replicas x)) /\
    (forall k x,
       x ∈ workloads_of k (cluster w) ->
       namespace (metadata x) ∉ resolved_by re compiled (cluster w) ->
       x ∈ workloads_of k (cluster w')).
Proof.
  intros Hc Hm. destruct (down_cluster re patterns compiled w Hc Hm)
    as (w' & Hrun & Hcl).
  exists w'. split; [exact Hrun|]. split; [exact Hcl|].
  rewrite Hcl. split; intros k x; rewrite workloads_of_scale,
    elem_of_scale_workloads.
  - intros (x0 & Hx0 & ->) Hns.
    assert (Hns0 : namespace (metadata x0)
                   ∈ resolved_by re compiled (cluster w))
      by (destruct (bool_decide _); exact Hns).
    rewrite bool_decide_eq_true_2 by exact Hns0.
    apply transition_down_stopped.
    destruct Hm as (_ & _ & Hok). exact (Hok k x0 Hx0 Hns0).
  - intros Hx Hns. exists x. split; [exact Hx|].
    rewrite bool_decide_eq_false_2 by exact Hns. reflexivity.
Qed.

Lemma teams_compiled :
  Forall2 (fun p c => re_compile MiniRe.engine (anchored p) = Ret c)
    team_patterns team_compiled.
Proof. repeat constructor. Defined.

Lemma teams_manageable :
  manageable (resolved_by MiniRe.engine team_compiled teams_cluster)
    teams_cluster.
Proof.
  split; [|split].
  - intros nm ns. reflexivity.
  - split; apply (bool_decide_unpack _); vm_compute; exact I.
  - intros k x Hx _. destruct k; cbn in Hx;
      repeat (apply elem_of_cons in Hx as [->|Hx]); try reflexivity;
      inversion Hx.
Defined.

Lemma down_stops_resolved_namespaces_witness :
  exists w',
    down MiniRe.engine team_patterns teams_world = (Ret tt, w') /\
    replica_counts (cluster_deployments (cluster w')) = [0; 2] /\
    replica_counts (cluster_stateful_sets (cluster w')) = [0].
Proof.
  destruct (down_stops_resolved_namespaces MiniRe.engine team_patterns
              team_compiled teams_world teams_compiled teams_manageable)
    as (w' & Hrun & Hcl & _).
  exists w'. split; [exact Hrun|]. rewrite Hcl. split; reflexivity.
Defined.

(** X10. [up] on such a cluster returns, whatever the batch size and
    interval, and in the namespaces that the patterns resolve to every
    stopped workload gets the replicas saved in its annotation, or 1
    when its dict of annotations has no such annotation, while running
    workloads, the workloads of other namespaces and all annotations
    stay as they are. *)
Theorem up_restores_resolved_namespaces (re : ReEngine)
    (patterns : list string) (compiled : list (re_pattern re))
    (batch_size batch_timeout : Z) (w : World) :
  Forall2 (fun p c => re_compile re (anchored p) = Ret c) patterns compiled ->
  manageable (resolved_by re compiled (cluster w)) (cluster w) ->
  exists w',
    up re patterns batch_size batch_timeout w = (Ret tt, w') /\
    forall k : WorkloadKind,
      replica_counts (workloads_of k (cluster w'))
      = map (fun x =>
               if bool_decide (namespace (metadata x)
                                 ∈ resolved_by re compiled (cluster w))
               then restored_replicas x else replicas (spec x))
          (workloads_of k (cluster w)) /\
      map (fun x => annotations (metadata x)) (workloads_of k (cluster w'))
      = map (fun x => annotations (metadata x)) (workloads_of k (cluster w)).
Proof.
  intros Hc Hm.
  destruct (up_cluster re patterns compiled batch_size batch_timeout w Hc Hm)
    as (w' & Hrun & Hcl).
  exists w'. split; [exact Hrun|]. intros k.
  rewrite Hcl, workloads_of_scale. unfold replica_counts, scale_workloads.
  rewrite !map_map. destruct Hm as (_ & _ & Hok).
  split; apply map_ext_in; intros x Hx; apply list_elem_of_In in Hx;
    destruct (bool_decide _) eqn:E; try reflexivity;
    apply bool_decide_eq_true_1 in E;
    apply (transition_up_replicas x (Hok k x Hx E)).
Qed.

Lemma up_restores_resolved_namespaces_witness :
  exists w',
    up MiniRe.engine team_patterns 1 5
      (snd (down MiniRe.engine team_patterns teams_world)) = (Ret tt, w') /\
    replica_counts (cluster_deployments (cluster w')) = [3; 2].
Proof.
  assert (Hm : manageable
                 (resolved_by MiniRe.engine team_compiled
                    (cluster (snd (down MiniRe.engine team_patterns
                                     teams_world))))
                 (cluster (snd (down MiniRe.engine team_patterns
                                  teams_world)))).
  { split; [|split].
    - intros nm ns. reflexivity.
    - split; apply (bool_decide_unpack _); vm_compute; exact I.
    - intros k x Hx _. destruct k; vm_compute in Hx;
        repeat (apply elem_of_cons in Hx as [->|Hx]); try reflexivity;
        inversion Hx. }
  destruct (up_restores_resolved_namespaces MiniRe.engine team_patterns
              team_compiled 1 5 _ teams_compiled Hm) as (w' & Hrun & Hr).
  exists w'. split; [exact Hrun|].
  pose proof (proj1 (Hr Deployment)) as H. cbn [workloads_of] in H.
  rewrite H. reflexivity.
Defined.

(** X11. On such a cluster, when every workload of the namespaces
    concerned runs, or is stopped without the saved-replicas annotation,
    [down] followed by [up] with the same patterns, whatever the batch
    size and interval, gives every workload of the cluster the replica
    count it had. *)
Theorem down_then_up_restores_cluster (re : ReEngine)
    (patterns : list string) (compiled : list (re_pattern re))
    (batch_size batch_timeout : Z) (w : World) :
  Forall2 (fun p c => re_compile re (anchored p) = Ret c) patterns compiled ->
  manageable (resolved_by re compiled (cluster w)) (cluster w) ->
  all_in (resolved_by re compiled (cluster w)) restorable (cluster w) ->
  exists w1 w2,
    down re patterns w = (Ret tt, w1) /\
    up re patterns batch_size batch_timeout w1 = (Ret tt, w2) /\
    forall k : WorkloadKind,
      replica_counts (workloads_of k (cluster w2))
      = replica_counts (workloads_of k (cluster w)).
Proof.
  intros Hc Hm Hres.
  destruct (down_cluster re patterns compiled w Hc Hm) as (w1 & Hrun1 & Hc1).
  assert (HR : resolved_by re compiled (cluster w1)
               = resolved_by re compiled (cluster w))
    by (rewrite Hc1; reflexivity).
  assert (Hm1 : manageable (resolved_by re compiled (cluster w1)) (cluster w1))
    by (rewrite HR, Hc1; apply manageable_scale, Hm).
  destruct (up_cluster re patterns compiled batch_size batch_timeout w1 Hc Hm1)
    as (w2 & Hrun2 & Hc2).
  exists w1, w2. split; [exact Hrun1|]. split; [exact Hrun2|].
  intros k. rewrite Hc2, HR, Hc1, !workloads_of_scale.
  unfold replica_counts, scale_workloads. rewrite !map_map.
  apply map_ext_in. intros x Hx. apply list_elem_of_In in Hx.
  destruct (bool_decide (namespace (metadata x)
                           ∈ resolved_by re compiled (cluster w))) eqn:E.
  - change (namespace (metadata (transition DOWN x)))
      with (namespace (metadata x)).
    rewrite E. apply bool_decide_eq_true_1 in E.
    destruct Hm as (_ & _ & Hok).
    exact (transition_round_trip x (Hok k x Hx E) (Hres k x Hx E)).
  - rewrite E. reflexivity.
Qed.

Lemma down_then_up_restores_cluster_witness :
  exists w1 w2,
    down MiniRe.engine team_patterns teams_world = (Ret tt, w1) /\
    up MiniRe.engine team_patterns 1 5 w1 = (Ret tt, w2) /\
    replica_counts (cluster_deployments (cluster w2)) = [3; 2] /\
    replica_counts (cluster_stateful_sets (cluster w2)) = [1].
Proof.
  destruct (down_then_up_restores_cluster MiniRe.engine team_patterns
              team_compiled 1 5 teams_world teams_compiled teams_manageable)
    as (w1 & w2 & Hd & Hu & Hr).
  - intros k x Hx _. left. destruct k; cbn in Hx;
      repeat (apply elem_of_cons in Hx as [->|Hx]); try (cbn; lia);
      inversion Hx.
  - exists w1, w2. split; [exact Hd|]. split; [exact Hu|].
    split; [exact (Hr Deployment) | exact (Hr StatefulSet)].
Defined.

(** ** What [up] and [down] leave alone *)

Section Keeps.

Variable Rel : World -> World -> Prop.
Hypothesis Rel_refl : forall w, Rel w w.
Hypothesis Rel_trans : forall w1 w2 w3, Rel w1 w2 -> Rel w2 w3 -> Rel w1 w3.

Lemma keeps_ret {A : Type} (a : A) : keeps Rel (ret a).
Proof. intros w r w' H. inversion H. apply Rel_refl. Qed.

Lemma keeps_lift {A : Type} (x : Exc A) : keeps Rel (lift x).
Proof. intros w r w' H. inversion H. apply Rel_refl. Qed.

Lemma keeps_bind {A B : Type} (c : M A) (k : A -> M B) :
  keeps Rel c -> (forall a, keeps Rel (k a)) -> keeps Rel (bind c k).
Proof.
  intros Hc Hk w r w'. unfold bind.
  destruct (c w) as [[a|e] w1] eqn:E; intros H.
  - exact (Rel_trans _ _ _ (Hc _ _ _ E) (Hk a _ _ _ H)).
  - inversion H; subst. exact (Hc _ _ _ E).
Qed.

Lemma keeps_try_except {A : Type} (c : M A) (h : Exception -> M A) :
  keeps Rel c -> (forall e, keeps Rel (h e)) -> keeps Rel (try_except c h).
Proof.
  intros Hc Hh w r w'. unfold try_except.
  destruct (c w) as [[a|e] w1] eqn:E; intros H.
  - inversion H; subst. exact (Hc _ _ _ E).
  - destruct (is_exception e).
    + exact (Rel_trans _ _ _ (Hc _ _ _ E) (Hh e _ _ _ H)).
    + inversion H; subst. exact (Hc _ _ _ E).
Qed.

Lemma keeps_for_each {A : Type} (xs : list A) (body : A -> M unit) :
  (forall a, keeps Rel (body a)) -> keeps Rel (for_each xs body).
Proof.
  intros Hb. induction xs as [|a xs IH]; cbn [for_each].
  - apply keeps_ret.
  - apply keeps_bind; [apply Hb | intros _; exact IH].
Qed.

(** An event that is no sleep, and the calls of the client. *)
Hypothesis Rel_emit :
  forall e, (forall s, e <> Sleep s) -> keeps Rel (emit e).
Hypothesis Rel_cluster :
  forall c w, Rel w (with_cluster c w).

Lemma keeps_logging (r : LogRecord) : keeps Rel (logging r).
Proof. apply Rel_emit. intros s. discriminate. Qed.

Lemma keeps_updater (k : WorkloadKind) (nm ns : string) (body : Patch) :
  keeps Rel (updater_of k nm ns body).
Proof.
  destruct k; cbn [updater_of];
    unfold AppsV1Api.patch_namespaced_deployment,
      AppsV1Api.patch_namespaced_stateful_set;
    (apply keeps_bind; [apply Rel_emit; intros s; discriminate|]);
    intros _ w r w'; destruct (_ || _); intros H; inversion H; subst;
    [apply Rel_refl | apply Rel_cluster | apply Rel_refl | apply Rel_cluster].
Qed.

Lemma keeps_modify_workload (k : WorkloadKind) (action : NamespaceAction)
    (d : Workload) (kind : string) :
  keeps Rel (modify_workload action d kind (updater_of k)).
Proof.
  unfold modify_workload. apply keeps_bind; [apply keeps_lift|].
  intros [n p]. destruct (patch_nonempty p).
  - apply keeps_try_except.
    + apply keeps_bind; [apply keeps_updater | intros _; apply keeps_logging].
    + intros e. apply keeps_logging.
  - apply keeps_logging.
Qed.

Lemma keeps_list_deployment (ns : string) :
  keeps Rel (AppsV1Api.list_namespaced_deployment ns).
Proof.
  unfold AppsV1Api.list_namespaced_deployment.
  apply keeps_bind; [apply Rel_emit; intros s; discriminate|].
  intros _ w r w' H. inversion H. apply Rel_refl.
Qed.

Lemma keeps_list_stateful_set (ns : string) :
  keeps Rel (AppsV1Api.list_namespaced_stateful_set ns).
Proof.
  unfold AppsV1Api.list_namespaced_stateful_set.
  apply keeps_bind; [apply Rel_emit; intros s; discriminate|].
  intros _ w r w' H. inversion H. apply Rel_refl.
Qed.

Lemma keeps_resolve_namespaces (re : ReEngine) (patterns : list string) :
  keeps Rel (resolve_namespaces re patterns).
Proof.
  unfold resolve_namespaces. apply keeps_bind.
  - unfold CoreV1Api.list_namespace.
    apply keeps_bind; [apply Rel_emit; intros s; discriminate|].
    intros _ w r w' H. inversion H. apply Rel_refl.
  - intros all. apply keeps_lift.
Qed.

Lemma keeps_down (re : ReEngine) (patterns : list string) :
  keeps Rel (down re patterns).
Proof.
  unfold down. apply keeps_bind; [apply keeps_logging|]. intros _.
  apply keeps_bind; [apply keeps_resolve_namespaces|]. intros resolved.
  apply keeps_for_each. intros ns.
  apply keeps_bind; [apply keeps_logging|]. intros _.
  apply keeps_bind; [apply keeps_list_deployment|]. intros ds.
  apply keeps_bind; [apply keeps_list_stateful_set|]. intros ss.
  apply keeps_bind; [|intros _]; apply keeps_for_each; intros d.
  - apply (keeps_modify_workload Deployment).
  - apply (keeps_modify_workload StatefulSet).
Qed.

(** [up] also calls the throttler. *)
Lemma keeps_up (re : ReEngine) (patterns : list string)
    (batch_size batch_timeout : Z) :
  (forall ns, keeps Rel (wait_on_batch_full ns batch_size batch_timeout)) ->
  keeps Rel (up re patterns batch_size batch_timeout).
Proof.
  intros Hwait.
  unfold up. apply keeps_bind; [apply keeps_logging|]. intros _.
  apply keeps_bind; [apply keeps_resolve_namespaces|]. intros resolved.
  apply keeps_for_each. intros ns.
  apply keeps_bind; [apply keeps_list_deployment|]. intros ds.
  apply keeps_bind; [apply keeps_list_stateful_set|]. intros ss.
  apply keeps_bind; [apply keeps_logging|]. intros _.
  apply keeps_bind; [|intros _]; apply keeps_for_each; intros d;
    (apply keeps_bind; [apply Hwait | intros _]).
  - apply (keeps_modify_workload StatefulSet).
  - apply (keeps_modify_workload Deployment).
Qed.

End Keeps.

Lemma same_cache_refl (w : World) : same_cache w w.
Proof. repeat split. Qed.

Lemma same_cache_trans (w1 w2 w3 : World) :
  same_cache w1 w2 -> same_cache w2 w3 -> same_cache w1 w3.
Proof.
  intros (A1 & A2 & A3 & A4) (B1 & B2 & B3 & B4).
  repeat split; congruence.
Qed.

Lemma same_cache_emit (e : Event) : keeps same_cache (emit e).
Proof. intros w r w' H. inversion H. repeat split. Qed.

Lemma unthrottled_refl (w : World) : unthrottled w w.
Proof. split; reflexivity. Qed.

Lemma unthrottled_trans (w1 w2 w3 : World) :
  unthrottled w1 w2 -> unthrottled w2 w3 -> unthrottled w1 w3.
Proof. intros [A1 A2] [B1 B2]. split; congruence. Qed.

Lemma unthrottled_emit (e : Event) :
  (forall s, e <> Sleep s) -> keeps unthrottled (emit e).
Proof.
  intros He w r w' H. inversion H. split; [reflexivity|].
  cbn [trace with_trace]. rewrite sleeps_app.
  destruct e; try (cbn; apply app_nil_r). exfalso. exact (He _ eq_refl).
Qed.

Lemma same_cache_wait (ns : string) (batch_size batch_interval : Z) :
  keeps same_cache (wait_on_batch_full ns batch_size batch_interval).
Proof.
  intros w r w'. rewrite wait_on_batch_full_run. cbv zeta.
  destruct (_ && _); intros H; inversion H; repeat split.
Qed.

(** X12. Whatever the cluster, the patterns and the outcome, [down]
    never sleeps and never counts for the throttler, and neither [down]
    nor [up] reads the clock or changes the state cache: the state that
    [get_state] cached stays in the cache across them. *)
Theorem up_down_leave_cache (re : ReEngine) (patterns : list string)
    (batch_size batch_timeout : Z) (w : World) :
  unthrottled w (snd (down re patterns w)) /\
  same_cache w (snd (down re patterns w)) /\
  same_cache w (snd (up re patterns batch_size batch_timeout w)).
Proof.
  split; [|split].
  - apply (keeps_down unthrottled unthrottled_refl unthrottled_trans
             unthrottled_emit (fun c w0 => unthrottled_refl w0)
             re patterns w (fst (down re patterns w))).
    apply surjective_pairing.
  - apply (keeps_down same_cache same_cache_refl same_cache_trans
             (fun e _ => same_cache_emit e) (fun c w0 => same_cache_refl w0)
             re patterns w (fst (down re patterns w))).
    apply surjective_pairing.
  - apply (keeps_up same_cache same_cache_refl same_cache_trans
             (fun e _ => same_cache_emit e) (fun c w0 => same_cache_refl w0)
             re patterns batch_size batch_timeout
             (fun ns => same_cache_wait ns batch_size batch_timeout)
             w (fst (up re patterns batch_size batch_timeout w))).
    apply surjective_pairing.
Qed.

(** What one step of the loop of [get_state] does to the result and to
    the cache when it returns. *)
Lemma get_state_body_result (parse_quantity : QuantityArg -> Exc Q)
    (ns : string) (state state' : gmap string NamespaceState) (w w' : World) :
  get_state_body parse_quantity ns state w = (Ret state', w') ->
  exists v,
    state' = <[ns := v]> state /\
    ns_state_cache w' !! ns = Some v /\
    forall n, n <> ns -> ns_state_cache w' !! n = ns_state_cache w !! n.
Proof.
  unfold get_state_body, bind at 1.
  destruct (cached_state ns w) as [[[hit|]|e] w1] eqn:Hc;
    pose proof (cached_state_caches _ _ _ _ Hc) as [Hc1 _].
  - unfold ret. intros H; inversion H; subst. exists hit.
    split; [reflexivity|]. rewrite Hc1. split; [|reflexivity].
    unfold cached_state in Hc.
    destruct (ns_state_cache w !! ns) as [c|]; [|inversion Hc].
    destruct (ns_state_cache_update_time w !! ns); [|inversion Hc].
    unfold bind, time_time, logging, emit, ret in Hc.
    destruct (Qlt_bool _ _); inversion Hc. reflexivity.
  - unfold AppsV1Api.list_namespaced_deployment,
      AppsV1Api.list_namespaced_stateful_set, bind, emit, lift, time_time, ret.
    cbn [cluster with_trace].
    destruct (sum parse_quantity _) as [[[dr dc] dm]|e1];
      [destruct (sum parse_quantity _) as [[[sr sc] sm]|e2]|];
      intros H; inversion H; subst.
    eexists. split; [reflexivity|]. cbn. rewrite Hc1.
    split; [apply lookup_insert_eq|].
    intros n Hn. apply lookup_insert_ne. congruence.
  - intros H; inversion H.
Qed.


(** ** The state cache inside [get_state] and across calls *)

Lemma get_state_loop_keeps (parse_quantity : QuantityArg -> Exc Q)
    (post : list string) (n : string) :
  n ∉ post ->
  forall (state state' : gmap string NamespaceState) (w w' : World),
    get_state_loop parse_quantity post state w = (Ret state', w') ->
    state' !! n = state !! n.
Proof.
  induction post as [|ns rest IH]; intros Hn state state' w w' Hrun.
  - inversion Hrun. reflexivity.
  - apply not_elem_of_cons in Hn as [Hne Hn].
    cbn [get_state_loop] in Hrun. unfold bind in Hrun.
    destruct (get_state_body parse_quantity ns state w) as [[s1|e] w1] eqn:Hb;
      [|inversion Hrun].
    destruct (get_state_body_result _ _ _ _ _ _ Hb) as (v & -> & _).
    rewrite (IH Hn _ _ _ _ Hrun). apply lookup_insert_ne. congruence.
Qed.

Lemma get_state_from_keeps (parse_quantity : QuantityArg -> Exc Q)
    (post : list string) (n : string)
    (state state' : gmap string NamespaceState) (w w' : World) :
  n ∉ post ->
  get_state_from parse_quantity post state w = (Ret state', w') ->
  state' !! n = state !! n.
Proof.
  intros Hn. unfold get_state_from, bind at 1.
  destruct (get_state_loop parse_quantity post state w) as [[s1|e] w1] eqn:Hl;
    [|intros H; inversion H].
  rewrite (bind_run _ _ _ _ _ (logging_run _ w1)). unfold ret.
  intros H. inversion H; subst.
  exact (get_state_loop_keeps parse_quantity post n Hn _ _ _ _ Hl).
Qed.

Lemma get_state_loop_app (parse_quantity : QuantityArg -> Exc Q)
    (pre rest : list string) :
  forall (state st0 : gmap string NamespaceState) (w w0 : World),
    get_state_loop parse_quantity pre state w = (Ret st0, w0) ->
    get_state_loop parse_quantity (pre ++ rest) state w
    = get_state_loop parse_quantity rest st0 w0.
Proof.
  induction pre as [|ns pre IH]; intros state st0 w w0 Hrun.
  - inversion Hrun. reflexivity.
  - cbn [app get_state_loop] in *. unfold bind in *.
    destruct (get_state_body parse_quantity ns state w) as [[s1|e] w1];
      [|inversion Hrun].
    exact (IH _ _ _ _ Hrun).
Qed.

(** [get_state] when its loop reaches the namespace [ns], after the
    namespaces [pre], with the dict [st0] in the world [w0]: the step for
    [ns], and then the rest of the call. *)
Lemma get_state_reaches (re : ReEngine)
    (parse_quantity : QuantityArg -> Exc Q) (patterns : list string)
    (compiled : list (re_pattern re)) (w : World) (pre post : list string)
    (ns : string) (st0 : gmap string NamespaceState) (w0 : World) :
  Forall2 (fun p c => re_compile re (anchored p) = Ret c) patterns compiled ->
  resolved_by re compiled (cluster w) = pre ++ ns :: post ->
  get_state_loop parse_quantity pre ∅ (loop_start patterns w) = (Ret st0, w0) ->
  get_state re parse_quantity patterns w
  = bind (get_state_body parse_quantity ns st0)
      (fun st1 => get_state_from parse_quantity post st1) w0.
Proof.
  intros Hc HR Hpre. unfold get_state.
  rewrite (bind_run _ _ _ _ _ (logging_run _ w)).
  rewrite (bind_run _ _ _ _ _ (resolve_namespaces_run re patterns compiled _ Hc)).
  cbn [cluster with_trace trace]. rewrite HR.
  rewrite <- app_assoc. cbn [app]. unfold bind at 1.
  change (with_trace ?t (with_trace _ w)) with (with_trace t w).
  fold (loop_start patterns w).
  rewrite (get_state_loop_app parse_quantity pre (ns :: post) _ _ _ _ Hpre).
  cbn [get_state_loop]. unfold get_state_from, bind.
  destruct (get_state_body parse_quantity ns st0 w0) as [[s1|e] w1];
    reflexivity.
Qed.

(** C8. Every resolved namespace of a [get_state] call: when the loop
    reaches an occurrence [ns] of the resolved list, after the
    namespaces [pre] and before the namespaces [post], with the dict
    [st0] in the world [w0], and [now] is the reading of the clock.
    If the cache holds a state for [ns] with a time [t] and
    [now - t < 3], the call goes on with that state under [ns] in the
    dict, and the world has only gained the log record of the hit: no
    listing call. If the cache holds nothing for [ns], or a state with
    [now - t >= 3], and the sums return, both kinds are listed and the
    call goes on with the state computed from the listings, which is
    also stored in the cache with a time read from the clock after the
    listings. The state put under [ns] is the one returned for it,
    unless [ns] is resolved again later. *)
Theorem get_state_cache (re : ReEngine)
    (parse_quantity : QuantityArg -> Exc Q) (patterns : list string)
    (compiled : list (re_pattern re)) (w : World) (pre post : list string)
    (ns : string) (st0 : gmap string NamespaceState) (w0 : World) :
  Forall2 (fun p c => re_compile re (anchored p) = Ret c) patterns compiled ->
  resolved_by re compiled (cluster w) = pre ++ ns :: post ->
  get_state_loop parse_quantity pre ∅ (loop_start patterns w) = (Ret st0, w0) ->
  (forall (cached : NamespaceState) (t : Q),
     ns_state_cache w0 !! ns = Some cached ->
     ns_state_cache_update_time w0 !! ns = Some t ->
     (now w0 - t < 3)%Q ->
     get_state re parse_quantity patterns w
     = get_state_from parse_quantity post (<[ns := cached]> st0)
         (with_trace (trace w0 ++ [Log (LogCached ns)])
            (with_clock_reads (S (clock_reads w0)) w0))) /\
  (forall (dr sr : Z) (dc dm sc sm : Q),
     (ns_state_cache w0 !! ns = None \/
      exists cached t,
        ns_state_cache w0 !! ns = Some cached /\
        ns_state_cache_update_time w0 !! ns = Some t /\
        ~ (now w0 - t < 3)%Q) ->
     sum parse_quantity (listed ns (cluster_deployments (cluster w0)))
     = Ret (dr, dc, dm) ->
     sum parse_quantity (listed ns (cluster_stateful_sets (cluster w0)))
     = Ret (sr, sc, sm) ->
     let st :=
       {| pods := dr + sr; cpu := (dc + sc)%Q; memory := (dm + sm)%Q |} in
     exists (w1 : World) (stored_at : Q),
       get_state re parse_quantity patterns w
       = get_state_from parse_quantity post (<[ns := st]> st0) w1 /\
       trace w1 = trace w0 ++ [CallListDeployment ns; CallListStatefulSet ns] /\
       ns_state_cache w1 = <[ns := st]> (ns_state_cache w0) /\
       ns_state_cache_update_time w1
       = <[ns := stored_at]> (ns_state_cache_update_time w0) /\
       stored_at
       = (clock w0 (pred (clock_reads w1)) + inject_Z (slept (trace w0)))%Q) /\
  (forall (v : NamespaceState) (w1 : World)
          (state : gmap string NamespaceState) (w' : World),
     get_state_from parse_quantity post (<[ns := v]> st0) w1 = (Ret state, w') ->
     ns ∉ post -> state !! ns = Some v).
Proof.
  intros Hc HR Hpre.
  pose proof (get_state_reaches re parse_quantity patterns compiled w pre post
                ns st0 w0 Hc HR Hpre) as Hstep.
  destruct (get_state_body_cache parse_quantity ns st0 w0) as [Hhit Hmiss].
  split; [|split].
  - intros cached t Hca Ht Hf. rewrite Hstep.
    exact (bind_run _ _ _ _ _ (Hhit cached t Hca Ht Hf)).
  - intros dr sr dc dm sc sm Hcase Hd Hs st.
    destruct (Hmiss dr sr dc dm sc sm Hcase Hd Hs)
      as (w1 & stored_at & Hrun & Htr & Hca & Hti & Hat).
    exists w1, stored_at. split; [|repeat split; assumption].
    rewrite Hstep. exact (bind_run _ _ _ _ _ Hrun).
  - intros v w1 state w' Hrun Hn.
    rewrite (get_state_from_keeps parse_quantity post ns _ _ _ _ Hn Hrun).
    apply lookup_insert_eq.
Qed.

Lemma get_state_cache_witness :
  exists (cached : NamespaceState) (state : gmap string NamespaceState)
         (w' : World),
    ns_state_cache
      (snd (get_state_loop K8sQuantity.parse_quantity ["ns1"] ∅
              (loop_start ["ns1"; "ns.*"] api_world))) !! "ns1"
    = Some cached /\
    get_state MiniRe.engine K8sQuantity.parse_quantity ["ns1"; "ns.*"] api_world
    = (Ret state, w') /\
    state !! "ns1" = Some cached /\
    listing_calls (trace w')
    = [CallListDeployment "ns1"; CallListStatefulSet "ns1"].
Proof.
  set (w0 := snd (get_state_loop K8sQuantity.parse_quantity ["ns1"] ∅
                    (loop_start ["ns1"; "ns.*"] api_world))).
  set (st0 := match fst (get_state_loop K8sQuantity.parse_quantity ["ns1"] ∅
                           (loop_start ["ns1"; "ns.*"] api_world)) with
              | Ret st => st
              | Raise _ => ∅
              end).
  destruct (ns_state_cache w0 !! "ns1") as [cached|] eqn:Hca;
    [|vm_compute in Hca; discriminate].
  destruct (get_state_cache MiniRe.engine K8sQuantity.parse_quantity
              ["ns1"; "ns.*"]
              [compiled_or_empty "ns1"; compiled_or_empty "ns.*"]
              api_world ["ns1"] [] "ns1" st0 w0)
    as (Hhit & _ & Hret).
  - repeat constructor.
  - reflexivity.
  - reflexivity.
  - specialize (Hhit cached 0%Q Hca eq_refl eq_refl).
    destruct (get_state_from K8sQuantity.parse_quantity []
                (<["ns1" := cached]> st0)
                (with_trace (trace w0 ++ [Log (LogCached "ns1")])
                   (with_clock_reads (S (clock_reads w0)) w0)))
      as [[state|e] w'] eqn:Hrest; [|inversion Hrest].
    exists cached, state, w'. split; [reflexivity|]. split; [exact Hhit|].
    split; [exact (Hret cached _ state w' Hrest (not_elem_of_nil _))|].
    inversion Hrest. reflexivity.
Defined.

(** The example of the spec: [get_state] for ["ns1"] three times, at the
    times 10, 11 and 14. The first call lists and stores, the second,
    one second later, hits the cache and lists nothing, and the third,
    four seconds after the first, lists again and stores anew. *)
Example get_state_three_calls :
  let get := get_state MiniRe.engine K8sQuantity.parse_quantity ["ns1"] in
  let w1 := snd (get (initial_world (cluster_with api_deployment)
                        (readings [10%Q; 11%Q; 14%Q] 15%Q))) in
  let w2 := snd (get w1) in
  let w3 := snd (get w2) in
  listing_calls (trace w1)
  = [CallListDeployment "ns1"; CallListStatefulSet "ns1"] /\
  ns_state_cache_update_time w1 !! "ns1" = Some 10%Q /\
  listing_calls (trace w2) = listing_calls (trace w1) /\
  listing_calls (trace w3)
  = [CallListDeployment "ns1"; CallListStatefulSet "ns1";
     CallListDeployment "ns1"; CallListStatefulSet "ns1"] /\
  ns_state_cache_update_time w3 !! "ns1" = Some 15%Q.
Proof. cbv zeta. repeat split; vm_compute; reflexivity. Qed.

Lemma now_loop_start (patterns : list string) (w : World) :
  now (loop_start patterns w) = now w.
Proof. unfold loop_start. apply now_quiet. reflexivity. Qed.

Lemma same_time_refl (w : World) : same_time w w.
Proof. reflexivity. Qed.

Lemma same_time_trans (w1 w2 w3 : World) :
  same_time w1 w2 -> same_time w2 w3 -> same_time w1 w3.
Proof. unfold same_time. congruence. Qed.

Lemma same_time_emit (e : Event) :
  (forall s, e <> Sleep s) -> keeps same_time (emit e).
Proof.
  intros He w r w' H. inversion H. unfold same_time.
  cbn [trace with_trace]. rewrite slept_app.
  destruct e; try (cbn [slept]; apply Z.add_0_r).
  exfalso. exact (He _ eq_refl).
Qed.

(** A hit of the cache in a [get_state] call for patterns that resolve
    to the one namespace [ns]. *)
Lemma get_state_single_hit (re : ReEngine)
    (parse_quantity : QuantityArg -> Exc Q) (queried : list string)
    (compiled : list (re_pattern re)) (ns : string) (w : World)
    (cached : NamespaceState) (t : Q) :
  Forall2 (fun p c => re_compile re (anchored p) = Ret c) queried compiled ->
  resolved_by re compiled (cluster w) = [ns] ->
  ns_state_cache w !! ns = Some cached ->
  ns_state_cache_update_time w !! ns = Some t ->
  (now w - t < 3)%Q ->
  get_state re parse_quantity queried w
  = (Ret {[ ns := cached ]}, served_from_cache queried ns cached w).
Proof.
  intros Hc HR Hca Ht Hf.
  rewrite (get_state_reaches re parse_quantity queried compiled w [] [] ns ∅
             (loop_start queried w) Hc HR eq_refl).
  destruct (get_state_body_cache parse_quantity ns ∅ (loop_start queried w))
    as [Hhit _].
  rewrite <- (now_loop_start queried w) in Hf.
  rewrite (bind_run _ _ _ _ _ (Hhit cached t Hca Ht Hf)).
  unfold get_state_from, get_state_loop, bind, ret, logging, emit,
    served_from_cache, loop_start.
  cbn [trace with_trace with_clock_reads clock_reads].
  rewrite <- !app_assoc. reflexivity.
Qed.

(** An entry of three seconds or more in such a call: both kinds are
    listed again, whatever comes of the sums. *)
Lemma get_state_single_expired (re : ReEngine)
    (parse_quantity : QuantityArg -> Exc Q) (queried : list string)
    (compiled : list (re_pattern re)) (ns : string) (w : World)
    (cached : NamespaceState) (t : Q) :
  Forall2 (fun p c => re_compile re (anchored p) = Ret c) queried compiled ->
  resolved_by re compiled (cluster w) = [ns] ->
  ns_state_cache w !! ns = Some cached ->
  ns_state_cache_update_time w !! ns = Some t ->
  ~ (now w - t < 3)%Q ->
  exists rest,
    trace (snd (get_state re parse_quantity queried w))
    = trace w ++ [Log (LogDebugGettingState queried); CallListNamespace;
                  CallListDeployment ns; CallListStatefulSet ns] ++ rest.
Proof.
  intros Hc HR Hca Ht Hf.
  rewrite (get_state_reaches re parse_quantity queried compiled w [] [] ns ∅
             (loop_start queried w) Hc HR eq_refl).
  unfold bind at 1, get_state_body, bind at 1.
  rewrite <- (now_loop_start queried w) in Hf.
  rewrite (cached_state_expired ns (loop_start queried w) cached t Hca Ht Hf).
  unfold AppsV1Api.list_namespaced_deployment,
    AppsV1Api.list_namespaced_stateful_set, bind, emit, lift, time_time, ret,
    get_state_from, get_state_loop, logging, emit, bind, ret, loop_start.
  cbn [cluster with_trace trace with_clock_reads].
  destruct (sum parse_quantity _) as [[[dr dc] dm]|e1];
    [destruct (sum parse_quantity _) as [[[sr sc] sm]|e2]|];
    cbn [snd trace with_trace with_ns_state_cache
           with_ns_state_cache_update_time with_clock_reads];
    rewrite <- ?app_assoc; cbn [app]; eexists; f_equal;
    repeat (f_equal; try reflexivity).
  all: try (instantiate (1 := []); reflexivity).
Qed.

(** X13. [down] and [up] leave the cache as it is, so a [get_state] call
    right after one of them answers from the cache alone as long as the
    entry is younger than three seconds at the reading it then takes,
    although the replicas in the cluster have changed; the reading is
    later by the seconds that [up] has slept ([down] sleeps none), and
    once the entry is three seconds old the workloads are listed
    again. *)
Theorem cached_state_survives_up_down (re : ReEngine)
    (parse_quantity : QuantityArg -> Exc Q) (patterns : list string)
    (batch_size batch_timeout : Z) (queried : list string)
    (compiled : list (re_pattern re)) (ns : string) (w w' : World)
    (cached : NamespaceState) (t : Q) :
  Forall2 (fun p c => re_compile re (anchored p) = Ret c) queried compiled ->
  w' = snd (down re patterns w) \/
  w' = snd (up re patterns batch_size batch_timeout w) ->
  ns_state_cache w !! ns = Some cached ->
  ns_state_cache_update_time w !! ns = Some t ->
  resolved_by re compiled (cluster w') = [ns] ->
  (now w' == now w + inject_Z (slept (trace w') - slept (trace w)))%Q /\
  (w' = snd (down re patterns w) -> now w' = now w) /\
  ((now w' - t < 3)%Q ->
   get_state re parse_quantity queried w'
   = (Ret {[ ns := cached ]}, served_from_cache queried ns cached w')) /\
  (~ (now w' - t < 3)%Q ->
   exists rest,
     trace (snd (get_state re parse_quantity queried w'))
     = trace w' ++ [Log (LogDebugGettingState queried); CallListNamespace;
                    CallListDeployment ns; CallListStatefulSet ns] ++ rest).
Proof.
  intros Hc Hw' Hca Ht HR.
  assert (Hsame : same_cache w w').
  { destruct Hw' as [-> | ->].
    - apply (keeps_down same_cache same_cache_refl same_cache_trans
               (fun e _ => same_cache_emit e) (fun c w0 => same_cache_refl w0)
               re patterns w (fst (down re patterns w))).
      apply surjective_pairing.
    - apply (keeps_up same_cache same_cache_refl same_cache_trans
               (fun e _ => same_cache_emit e) (fun c w0 => same_cache_refl w0)
               re patterns batch_size batch_timeout
               (fun n => same_cache_wait n batch_size batch_timeout)
               w (fst (up re patterns batch_size batch_timeout w))).
      apply surjective_pairing. }
  destruct Hsame as (H1 & H2 & H3 & H4).
  rewrite <- H1 in Hca. rewrite <- H2 in Ht.
  split; [|split; [|split]].
  - unfold now. rewrite H3, H4. unfold Z.sub.
    rewrite inject_Z_plus, inject_Z_opp. ring.
  - intros ->. unfold now. rewrite H3, H4. do 2 f_equal.
    apply (keeps_down same_time same_time_refl same_time_trans
             same_time_emit (fun c w0 => same_time_refl w0)
             re patterns w (fst (down re patterns w))).
    apply surjective_pairing.
  - intros Hf.
    exact (get_state_single_hit re parse_quantity queried compiled ns w'
             cached t Hc HR Hca Ht Hf).
  - intros Hf.
    exact (get_state_single_expired re parse_quantity queried compiled ns w'
             cached t Hc HR Hca Ht Hf).
Qed.

Lemma cached_state_survives_up_down_witness :
  slept (trace (snd (up MiniRe.engine ["ns1"] 2 1 (cached_busy_world 10.5))))
  = 2 /\
  replica_counts
    (cluster_stateful_sets
       (cluster (snd (up MiniRe.engine ["ns1"] 2 1 (cached_busy_world 10.5)))))
  = [1; 1] /\
  get_state MiniRe.engine K8sQuantity.parse_quantity ["ns1"]
    (snd (up MiniRe.engine ["ns1"] 2 1 (cached_busy_world 10.5)))
  = (Ret {[ "ns1" := stale_state ]},
     served_from_cache ["ns1"] "ns1" stale_state
       (snd (up MiniRe.engine ["ns1"] 2 1 (cached_busy_world 10.5)))).
Proof.
  split; [reflexivity|]. split; [reflexivity|].
  apply (cached_state_survives_up_down MiniRe.engine
           K8sQuantity.parse_quantity ["ns1"] 2 1 ["ns1"]
           [compiled_or_empty "ns1"] "ns1" (cached_busy_world 10.5) _
           stale_state 10%Q).
  - repeat constructor.
  - right. reflexivity.
  - reflexivity.
  - reflexivity.
  - reflexivity.
  - vm_compute. reflexivity.
Defined.

(** With an interval of five seconds [up] sleeps ten seconds in the busy
    namespace: the entry of the cache, half a second old before, has
    expired when [up] returns, and [get_state] lists the workloads
    again. *)
Example up_pauses_expire_cache :
  let w' := snd (up MiniRe.engine ["ns1"] 2 5 (cached_busy_world 10.5)) in
  slept (trace w') = 10 /\
  listing_calls
    (drop (length (trace w'))
       (trace (snd (get_state MiniRe.engine K8sQuantity.parse_quantity
                      ["ns1"] w'))))
  = [CallListDeployment "ns1"; CallListStatefulSet "ns1"].
Proof. cbv zeta. split; vm_compute; reflexivity. Qed.



(** X15. When the step of [get_state] for a namespace raises, the cache
    entry and the time of every namespace are what they were: a failed
    aggregation stores nothing. *)
Theorem failed_aggregation_stores_nothing
    (parse_quantity : QuantityArg -> Exc Q) (ns : string)
    (state : gmap string NamespaceState) (w w' : World) (e : Exception) :
  get_state_body parse_quantity ns state w = (Raise e, w') ->
  ns_state_cache w' = ns_state_cache w /\
  ns_state_cache_update_time w' = ns_state_cache_update_time w.
Proof.
  unfold get_state_body, bind at 1.
  destruct (cached_state ns w) as [[[hit|]|e0] w1] eqn:Hc;
    pose proof (cached_state_caches _ _ _ _ Hc) as [Hc1 Hc2].
  - unfold ret. intros H; inversion H.
  - unfold AppsV1Api.list_namespaced_deployment,
      AppsV1Api.list_namespaced_stateful_set, bind, emit, lift, time_time, ret.
    cbn [cluster with_trace].
    destruct (sum parse_quantity _) as [[[dr dc] dm]|e1];
      [destruct (sum parse_quantity _) as [[[sr sc] sm]|e2]|];
      intros H; inversion H; subst; cbn; split; assumption.
  - intros H; inversion H; subst. split; assumption.
Qed.

Lemma failed_aggregation_stores_nothing_witness :
  fst (get_state_body K8sQuantity.parse_quantity "ns1" ∅
         (world_with broken_deployment)) = Raise ValueError /\
  ns_state_cache (snd (get_state_body K8sQuantity.parse_quantity "ns1" ∅
                         (world_with broken_deployment))) = ∅.
Proof.
  split; [reflexivity|].
  apply (failed_aggregation_stores_nothing K8sQuantity.parse_quantity "ns1" ∅
           (world_with broken_deployment) _ ValueError).
  reflexivity.
Defined.

Lemma same_cache_timed (w w' : World) :
  same_cache w w' -> cache_timed w -> cache_timed w'.
Proof. intros (H1 & H2 & _) Hinv n. rewrite H1, H2. apply Hinv. Qed.

Lemma get_state_loop_timed (parse_quantity : QuantityArg -> Exc Q)
    (resolved : list string) :
  forall (state : gmap string NamespaceState) (w w' : World)
         (r : Exc (gmap string NamespaceState)),
    cache_timed w ->
    get_state_loop parse_quantity resolved state w = (r, w') ->
    cache_timed w'.
Proof.
  induction resolved as [|ns rest IH]; intros state w w' r Hinv Hrun.
  - inversion Hrun; subst. exact Hinv.
  - cbn [get_state_loop] in Hrun. unfold bind in Hrun.
    destruct (get_state_body parse_quantity ns state w) as [[s1|e] w1] eqn:Hb.
    + exact (IH _ _ _ _ (get_state_body_timed _ _ _ _ _ _ Hinv Hb) Hrun).
    + inversion Hrun; subst.
      exact (get_state_body_timed _ _ _ _ _ _ Hinv Hb).
Qed.

(** X16. The cache never holds a state without its time: when that is
    so before a call of [get_state], [up] or [down], it is so after it,
    whatever the outcome; and while it is so, the look-up of line 153
    does not raise [KeyError]. *)
Theorem cache_stays_timed (re : ReEngine)
    (parse_quantity : QuantityArg -> Exc Q) (patterns : list string)
    (batch_size batch_timeout : Z) (w : World) :
  cache_timed w ->
  (forall ns, fst (cached_state ns w) <> Raise KeyError) /\
  cache_timed (snd (get_state re parse_quantity patterns w)) /\
  cache_timed (snd (up re patterns batch_size batch_timeout w)) /\
  cache_timed (snd (down re patterns w)).
Proof.
  intros Hinv. split; [|split; [|split]].
  - intros ns. unfold cached_state.
    destruct (ns_state_cache w !! ns) as [c|] eqn:Hc; [|discriminate].
    destruct (Hinv ns (ex_intro _ c Hc)) as [t Ht]. rewrite Ht.
    unfold bind, time_time, logging, emit, ret.
    destruct (Qlt_bool _ _); discriminate.
  - unfold get_state.
    rewrite (bind_run _ _ _ _ _ (logging_run _ w)).
    unfold bind at 1.
    destruct (resolve_namespaces re patterns _) as [[resolved|e] w1] eqn:Hres;
      pose proof (keeps_resolve_namespaces same_cache same_cache_refl
                    same_cache_trans (fun ev _ => same_cache_emit ev)
                    re patterns _ _ _ Hres) as Hsame;
      assert (Hinv1 : cache_timed w1)
        by (apply (same_cache_timed _ _ Hsame); exact Hinv);
      [|exact Hinv1].
    unfold bind at 1.
    destruct (get_state_loop parse_quantity resolved ∅ w1) as [[s|e] w2]
      eqn:Hloop;
      pose proof (get_state_loop_timed _ _ _ _ _ _ Hinv1 Hloop) as Hinv2;
      [|exact Hinv2].
    rewrite (bind_run _ _ _ _ _ (logging_run _ w2)). exact Hinv2.
  - apply (same_cache_timed w); [|exact Hinv].
    apply (keeps_up same_cache same_cache_refl same_cache_trans
             (fun ev _ => same_cache_emit ev) (fun c w0 => same_cache_refl w0)
             re patterns batch_size batch_timeout
             (fun n => same_cache_wait n batch_size batch_timeout)
             w (fst (up re patterns batch_size batch_timeout w))).
    apply surjective_pairing.
  - apply (same_cache_timed w); [|exact Hinv].
    apply (keeps_down same_cache same_cache_refl same_cache_trans
             (fun ev _ => same_cache_emit ev) (fun c w0 => same_cache_refl w0)
             re patterns w (fst (down re patterns w))).
    apply surjective_pairing.
Qed.

Lemma cache_stays_timed_witness :
  cache_timed (snd (get_state MiniRe.engine K8sQuantity.parse_quantity
                      ["ns1"] api_world)) /\
  fst (cached_state "ns1"
         (snd (get_state MiniRe.engine K8sQuantity.parse_quantity
                 ["ns1"] api_world))) <> Raise KeyError.
Proof.
  pose proof (cache_stays_timed MiniRe.engine K8sQuantity.parse_quantity
                ["ns1"] 0 0 api_world
                (initial_world_timed (cluster_with api_deployment)
                   (fun _ => 0%Q))) as (_ & Hg & _).
  split; [exact Hg|].
  exact (proj1 (cache_stays_timed MiniRe.engine K8sQuantity.parse_quantity
                  ["ns1"] 0 0 _ Hg) "ns1").
Defined.

(** ** Aggregation of stopped workloads *)

Lemma total_replicas_stopped (ws : list Workload) :
  Forall (fun x => replicas (spec x) = 0) ws -> total_replicas ws = 0.
Proof.
  induction 1 as [|x ws Hx _ IH]; cbn [total_replicas]; [reflexivity|].
  rewrite Hx, IH. reflexivity.
Qed.

Lemma containers_request_zero (val : string -> Q) (key : string)
    (cs : list Container) :
  (containers_request val key cs 0 == 0)%Q.
Proof.
  induction cs as [|c cs IH]; cbn [containers_request]; [reflexivity|].
  rewrite IH. change (inject_Z 0) with 0%Q. ring.
Qed.

Lemma total_request_stopped (val : string -> Q) (key : string)
    (ws : list Workload) :
  Forall (fun x => replicas (spec x) = 0) ws ->
  (total_request val key ws == 0)%Q.
Proof.
  induction 1 as [|x ws Hx _ IH]; cbn [total_request]; [reflexivity|].
  rewrite Hx, IH, containers_request_zero. ring.
Qed.

(** X17. A namespace whose listed workloads all have zero replicas, as
    after [down], counts for nothing when its state is computed: zero
    pods, zero cpu and zero memory, whatever the containers request. *)
Theorem stopped_namespace_counts_nothing
    (parse_quantity : QuantityArg -> Exc Q) (ns : string)
    (state : gmap string NamespaceState) (w w1 : World) :
  parses_zero parse_quantity ->
  cached_state ns w = (Ret None, w1) ->
  let ws := listed ns (cluster_deployments (cluster w))
            ++ listed ns (cluster_stateful_sets (cluster w)) in
  requests_parse parse_quantity ws = true ->
  Forall (fun x => replicas (spec x) = 0) ws ->
  exists (st : NamespaceState) (w' : World),
    get_state_body parse_quantity ns state w = (Ret (<[ns := st]> state), w') /\
    pods st = 0 /\ (cpu st == 0)%Q /\ (memory st == 0)%Q.
Proof.
  intros Hzero Hmiss ws Hall Hstopped. subst ws.
  pose proof (cached_state_cluster ns w _ w1 Hmiss) as Hcl.
  apply requests_parse_app in Hall as [Hd Hs].
  apply Forall_app in Hstopped as [Hd0 Hs0].
  destruct (sum_spec parse_quantity Hzero _ Hd) as (dc & dm & Hsd & Hdc & Hdm).
  destruct (sum_spec parse_quantity Hzero _ Hs) as (sc & sm & Hss & Hsc & Hsm).
  rewrite <- Hcl in Hsd, Hss.
  destruct (get_state_body_miss parse_quantity ns state w w1 _ _ _ _ _ _
              Hmiss Hsd Hss) as (w' & Hrun & _).
  eexists _, w'. split; [exact Hrun|].
  cbn [pods cpu memory]. rewrite Hcl.
  rewrite !total_replicas_stopped by assumption.
  split; [reflexivity|].
  split; [rewrite Hdc, Hsc | rewrite Hdm, Hsm];
    rewrite !total_request_stopped by assumption; ring.
Qed.

Lemma stopped_namespace_counts_nothing_witness :
  exists (st : NamespaceState) (w' : World),
    get_state_body K8sQuantity.parse_quantity "ns1" ∅
      (world_with stopped_api_deployment) = (Ret {[ "ns1" := st ]}, w') /\
    pods st = 0 /\ (cpu st == 0)%Q /\ (memory st == 0)%Q.
Proof.
  apply (stopped_namespace_counts_nothing K8sQuantity.parse_quantity "ns1" ∅
           (world_with stopped_api_deployment)
           (world_with stopped_api_deployment)).
  - exists 0%Q. split; reflexivity.
  - reflexivity.
  - reflexivity.
  - repeat constructor.
Defined.

(** ** [down] stopped half-way *)

Lemma for_each_app_run {A : Type} (body : A -> M unit) (xs ys : list A) :
  forall w w1 : World,
    for_each xs body w = (Ret tt, w1) ->
    for_each (xs ++ ys) body w = for_each ys body w1.
Proof.
  induction xs as [|x xs IH]; intros w w1 Hrun.
  - inversion Hrun. reflexivity.
  - cbn [for_each app] in *. unfold bind in *.
    destruct (body x w) as [[[]|e] w0]; [|inversion Hrun].
    exact (IH _ _ Hrun).
Qed.

Lemma existsb_same_key_elem (ws D : list Workload) (x : Workload) :
  NoDup (map key ws) -> (forall d, d ∈ D -> d ∈ ws) -> x ∈ ws ->
  existsb (fun d => same_key d x) D = bool_decide (x ∈ D).
Proof.
  intros Hnd Hsub Hx. destruct (decide (x ∈ D)) as [Hin|Hin].
  - rewrite bool_decide_eq_true_2 by exact Hin.
    apply existsb_exists. exists x.
    split; [apply list_elem_of_In, Hin | apply same_key_iff; reflexivity].
  - rewrite bool_decide_eq_false_2 by exact Hin.
    destruct (existsb _ _) eqn:E; [|reflexivity].
    apply existsb_exists in E as (d & Hd & Hk).
    apply list_elem_of_In in Hd. apply same_key_iff in Hk.
    rewrite (key_inj_in ws x d Hnd Hx (Hsub d Hd)) in Hin by congruence.
    contradiction.
Qed.

(** X18. [down] does not roll back. When the namespace that it handles
    first lists a Deployment for which line 174 raises (it has no
    annotations, or a saved-replicas annotation that is no integer),
    after Deployments that are readable, the call raises there, with
    [AttributeError] or [ValueError]: the Deployments listed before it
    are already stopped, and that one, those listed after it and the
    StatefulSets are left as they were. *)
Theorem down_stops_half_way (re : ReEngine) (patterns : list string)
    (compiled : list (re_pattern re)) (w : World) (ns : string)
    (rest : list string) (D1 D2 : list Workload) (d : Workload) :
  Forall2 (fun p c => re_compile re (anchored p) = Ret c) patterns compiled ->
  accepting (cluster w) ->
  NoDup (map key (cluster_deployments (cluster w))) ->
  rev (resolved_by re compiled (cluster w)) = ns :: rest ->
  listed ns (cluster_deployments (cluster w)) = D1 ++ d :: D2 ->
  Forall (fun x => readable x = true) D1 ->
  readable d = false ->
  exists w',
    down re patterns w = (Raise (line_174_error d), w') /\
    cluster_deployments (cluster w')
    = map (fun x => if bool_decide (x ∈ D1) then transition DOWN x else x)
        (cluster_deployments (cluster w)) /\
    cluster_stateful_sets (cluster w') = cluster_stateful_sets (cluster w).
Proof.
  intros Hc Hacc Hnd HR HD Hok Hbad.
  unfold down.
  rewrite (bind_run _ _ _ _ _ (logging_run _ w)).
  rewrite (bind_run _ _ _ _ _ (resolve_namespaces_run re patterns compiled _ Hc)).
  cbn [cluster with_trace]. rewrite HR. cbn [for_each].
  unfold bind at 1.
  rewrite (bind_run _ _ _ _ _ (logging_run _ _)).
  rewrite (bind_run _ _ _ _ _ (list_namespaced_deployment_run ns _)).
  rewrite (bind_run _ _ _ _ _ (list_namespaced_stateful_set_run ns _)).
  cbn [cluster with_trace]. rewrite HD.
  match goal with
  | |- context [bind (for_each (D1 ++ d :: D2) ?body) _ ?w1] =>
      destruct (for_each_steps body
                  (fun x c => set_workloads Deployment
                                (map (patched_by DOWN x)
                                   (workloads_of Deployment c)) c)
                  accepting (fun x => readable x = true))
        with (xs := D1) (w := w1) as (wa & Hrun & Hcl & _);
        [ | exact Hok | exact Hacc | ];
        [ intros x w0 Hx Hacc0;
          destruct (modify_workload_cluster Deployment DOWN x w0 Hacc0 Hx)
            as (w2 & Hr2 & Hc2);
          exists w2; split; [exact Hr2|]; split; [exact Hc2|];
          rewrite Hc2; exact Hacc0
        | unfold bind at 1;
          rewrite (for_each_app_run body D1 (d :: D2) w1 wa Hrun) ]
  end.
  cbn [for_each]. unfold bind at 1.
  rewrite (modify_workload_raise DOWN d _ _ (line_174_error d) wa
             (unreadable_build DOWN d Hbad)).
  exists wa. split; [reflexivity|].
  rewrite Hcl, fold_set_workloads. cbn [cluster with_trace workloads_of
    set_workloads cluster_deployments cluster_stateful_sets].
  split; [|reflexivity].
  assert (Hsub : forall x, x ∈ D1 -> x ∈ cluster_deployments (cluster w)).
  { intros x Hx.
    assert (Hin : x ∈ listed ns (cluster_deployments (cluster w)))
      by (rewrite HD; apply elem_of_app; left; exact Hx).
    unfold listed in Hin. apply list_elem_of_filter in Hin. apply Hin. }
  rewrite fold_patched.
  - apply map_ext_in. intros x Hx. apply list_elem_of_In in Hx.
    rewrite (existsb_same_key_elem _ D1 x Hnd Hsub Hx). reflexivity.
  - exact Hnd.
  - pose proof (NoDup_key_listed ns _ Hnd) as Hl. rewrite HD, map_app in Hl.
    apply NoDup_app in Hl. apply Hl.
  - exact Hsub.
Qed.

Lemma down_stops_half_way_witness :
  exists w',
    down MiniRe.engine ["ns1"] (initial_world half_cluster (fun _ => 0%Q))
    = (Raise ValueError, w') /\
    replica_counts (cluster_deployments (cluster w')) = [0; 2; 1] /\
    replica_counts (cluster_stateful_sets (cluster w')) = [1].
Proof.
  destruct (down_stops_half_way MiniRe.engine ["ns1"]
              [compiled_or_empty "ns1"]
              (initial_world half_cluster (fun _ => 0%Q)) "ns1" []
              [workload_in "ns1" "a" 3] [workload_in "ns1" "c" 1]
              {| metadata := {| name := "b"; namespace := "ns1";
                                annotations :=
                                  Some {[ updown_annotation := "many" ]} |};
                 spec := {| replicas := 2; containers := [] |} |})
    as (w' & Hrun & Hd & Hs).
  - repeat constructor.
  - intros nm n. reflexivity.
  - apply (bool_decide_unpack _). vm_compute. exact I.
  - reflexivity.
  - reflexivity.
  - repeat constructor.
  - reflexivity.
  - exists w'. split; [exact Hrun|]. rewrite Hd, Hs. split; reflexivity.
Defined.

(** ** The throttler inside [up] *)

Lemma for_each_map {A B : Type} (f : A -> B) (body : B -> M unit)
    (xs : list A) :
  for_each (map f xs) body = for_each xs (fun x => body (f x)).
Proof.
  induction xs as [|x xs IH]; cbn [map for_each]; [reflexivity|].
  rewrite IH. reflexivity.
Qed.

Lemma for_each_app {A : Type} (body : A -> M unit) (xs ys : list A)
    (w : World) :
  for_each (xs ++ ys) body w
  = bind (for_each xs body) (fun _ => for_each ys body) w.
Proof.
  revert w. induction xs as [|x xs IH]; intros w; cbn [app for_each].
  - reflexivity.
  - unfold bind in *. destruct (body x w) as [[[]|e] w1]; [|reflexivity].
    apply IH.
Qed.

(** Actions that return on an accepting cluster, keep it accepting, and
    neither count nor sleep, each behind a call of the throttler. From a
    counter [c], which counts as the batch size when it is above it, and
    for [n] actions they pause [(min c batch_size + n - 1) / batch_size]
    times. *)
Lemma throttled_actions (ns : string) (batch_size batch_interval : Z) :
  1 <= batch_size -> 0 < batch_interval ->
  forall (actions : list (M unit)) (w : World) (c : Z),
    Forall (fun o => keeps unthrottled o /\
                     forall w0, accepting (cluster w0) ->
                       exists w1, o w0 = (Ret tt, w1) /\
                                  accepting (cluster w1)) actions ->
    accepting (cluster w) ->
    default 0 (scale_up_counters w !! ns) = c ->
    0 <= c ->
    (actions = [] -> 1 <= c <= batch_size) ->
    let m := Z.min c batch_size + Z.of_nat (length actions) - 1 in
    exists w',
      for_each actions
        (fun o => bind (wait_on_batch_full ns batch_size batch_interval)
                    (fun _ => o)) w = (Ret tt, w') /\
      sleeps (trace w')
      = sleeps (trace w)
        ++ replicate (Z.to_nat (m / batch_size)) batch_interval /\
      default 0 (scale_up_counters w' !! ns) = m mod batch_size + 1.
Proof.
  intros Hk Hi. cbv zeta.
  induction actions as [|o actions IH]; intros w c Hgood Hacc Hc Hr Hn.
  - specialize (Hn eq_refl). cbn [length] in *. exists w.
    split; [reflexivity|].
    change (Z.of_nat 0) with 0 in *. rewrite Z.min_l by lia.
    replace (c + 0 - 1) with (c - 1) by lia.
    rewrite Z.div_small, Z.mod_small by lia.
    cbn. rewrite app_nil_r. split; [reflexivity|]. lia.
  - clear Hn. apply Forall_cons in Hgood as [[Hquiet Hret] Hgood].
    cbn [for_each length]. unfold bind at 1 2.
    rewrite wait_on_batch_full_run. cbv zeta. rewrite Hc.
    assert (Hset : forall (v : Z) (w0 : World),
              scale_up_counters w0 = <[ns := v]> (scale_up_counters w) ->
              default 0 (scale_up_counters w0 !! ns) = v)
      by (intros v w0 ->; rewrite lookup_insert_eq; reflexivity).
    destruct (Z.ltb_spec 0 batch_interval) as [_|]; [|lia].
    rewrite andb_true_r.
    destruct (Z.ltb_spec batch_size (c + 1)) as [Hfull|Hroom].
    + rewrite (Z.min_r c batch_size) by lia.
      match goal with
      | |- context [o ?w1] =>
          destruct (Hret w1 Hacc) as (w2 & Ho & Hacc2);
            pose proof (Hquiet w1 _ _ Ho) as [Hq1 Hq2]
      end.
      rewrite Ho.
      destruct (IH w2 1 Hgood Hacc2) as (w' & Hrun & Hs & Hcnt);
        [apply Hset; rewrite Hq1; cbn; try rewrite insert_insert_eq; reflexivity | lia | lia |].
      exists w'. split; [exact Hrun|].
      rewrite (Z.min_l 1 batch_size) in Hs, Hcnt by lia.
      replace (1 + Z.of_nat (length actions) - 1)
        with (Z.of_nat (length actions)) in Hs, Hcnt by lia.
      assert (Hd : (batch_size + Z.of_nat (S (length actions)) - 1) / batch_size
                   = 1 + Z.of_nat (length actions) / batch_size).
      { replace (batch_size + Z.of_nat (S (length actions)) - 1)
          with (1 * batch_size + Z.of_nat (length actions)) by lia.
        apply Z.div_add_l. lia. }
      assert (Hm : (batch_size + Z.of_nat (S (length actions)) - 1)
                     mod batch_size
                   = Z.of_nat (length actions) mod batch_size).
      { replace (batch_size + Z.of_nat (S (length actions)) - 1)
          with (Z.of_nat (length actions) + 1 * batch_size) by lia.
        apply Z.mod_add. lia. }
      rewrite Hd, Hm. split; [|exact Hcnt].
      rewrite Hs, Hq2. cbn [trace with_trace with_scale_up_counters].
      rewrite sleeps_app. cbn [sleeps omap]. rewrite <- app_assoc.
      f_equal.
      assert (0 <= Z.of_nat (length actions) / batch_size)
        by (apply Z.div_pos; lia).
      rewrite Z2Nat.inj_add by lia. reflexivity.
    + rewrite (Z.min_l c batch_size) by lia.
      match goal with
      | |- context [o ?w1] =>
          destruct (Hret w1 Hacc) as (w2 & Ho & Hacc2);
            pose proof (Hquiet w1 _ _ Ho) as [Hq1 Hq2]
      end.
      rewrite Ho.
      destruct (IH w2 (c + 1) Hgood Hacc2) as (w' & Hrun & Hs & Hcnt);
        [apply Hset; rewrite Hq1; cbn; try rewrite insert_insert_eq; reflexivity | lia | lia |].
      exists w'. split; [exact Hrun|].
      rewrite (Z.min_l (c + 1) batch_size) in Hs, Hcnt by lia.
      replace (c + Z.of_nat (S (length actions)) - 1)
        with (c + 1 + Z.of_nat (length actions) - 1) by lia.
      rewrite Hs, Hcnt, Hq2. split; reflexivity.
Qed.

Lemma modify_workload_action (k : WorkloadKind) (d : Workload) :
  readable d = true ->
  keeps unthrottled (modify_workload UP d (kind_label k) (updater_of k)) /\
  forall w0, accepting (cluster w0) ->
    exists w1,
      modify_workload UP d (kind_label k) (updater_of k) w0 = (Ret tt, w1) /\
      accepting (cluster w1).
Proof.
  intros Hok. split.
  - apply (keeps_modify_workload unthrottled unthrottled_refl
             unthrottled_trans unthrottled_emit
             (fun c w0 => unthrottled_refl w0)).
  - intros w0 Hacc.
    destruct (modify_workload_cluster k UP d w0 Hacc Hok) as (w1 & Hr & Hc).
    exists w1. split; [exact Hr|]. rewrite Hc. intros nm n.
    destruct k; apply Hacc.
Qed.

(** X19. [up] for patterns that resolve to one namespace with at least
    one workload, on a server that refuses nothing, with readable
    workloads, a batch size of at least one and a positive interval: the
    StatefulSets and the Deployments of the namespace are counted
    together, on the counter that earlier calls left at [c >= 0], which
    counts as the batch size when it is above it; with [n] workloads and
    [m = min c batch_size + n - 1] the call sleeps [m / batch_size]
    times, each time for the interval, and leaves the counter at
    [m mod batch_size + 1]. *)
Theorem up_pauses_per_batch (re : ReEngine) (patterns : list string)
    (compiled : list (re_pattern re)) (batch_size batch_timeout : Z)
    (w : World) (ns : string) (c : Z) :
  Forall2 (fun p c0 => re_compile re (anchored p) = Ret c0) patterns compiled ->
  resolved_by re compiled (cluster w) = [ns] ->
  accepting (cluster w) ->
  all_in [ns] (fun x => readable x = true) (cluster w) ->
  1 <= batch_size -> 0 < batch_timeout ->
  default 0 (scale_up_counters w !! ns) = c -> 0 <= c ->
  let n := Z.of_nat (length (listed ns (cluster_stateful_sets (cluster w)))
                     + length (listed ns (cluster_deployments (cluster w)))) in
  1 <= n ->
  let m := Z.min c batch_size + n - 1 in
  exists w',
    up re patterns batch_size batch_timeout w = (Ret tt, w') /\
    sleeps (trace w')
    = sleeps (trace w)
      ++ replicate (Z.to_nat (m / batch_size)) batch_timeout /\
    default 0 (scale_up_counters w' !! ns) = m mod batch_size + 1.
Proof.
  intros Hc HR Hacc Hok Hk Hi Hcnt Hr n Hn m. subst m.
  unfold up.
  rewrite (bind_run _ _ _ _ _ (logging_run _ w)).
  rewrite (bind_run _ _ _ _ _ (resolve_namespaces_run re patterns compiled _ Hc)).
  cbn [cluster with_trace]. rewrite HR. cbn [for_each].
  unfold bind at 1.
  rewrite (bind_run _ _ _ _ _ (list_namespaced_deployment_run ns _)).
  rewrite (bind_run _ _ _ _ _ (list_namespaced_stateful_set_run ns _)).
  rewrite (bind_run _ _ _ _ _ (logging_run _ _)).
  cbn [cluster with_trace].
  set (S := listed ns (cluster_stateful_sets (cluster w))) in *.
  set (D := listed ns (cluster_deployments (cluster w))) in *.
  set (actions :=
         map (fun ss => modify_workload UP ss "StatefulSet"
                          AppsV1Api.patch_namespaced_stateful_set) S
         ++ map (fun d => modify_workload UP d "Deployment"
                            AppsV1Api.patch_namespaced_deployment) D).
  match goal with
  | |- context [bind (for_each S _) _ ?w1] =>
      destruct (throttled_actions ns batch_size batch_timeout Hk Hi
                  actions w1 c) as (w' & Hrun & Hs & Hcount)
  end.
  - unfold actions. apply Forall_app. split; apply Forall_forall;
      intros o Ho; apply list_elem_of_In, in_map_iff in Ho as (x & <- & Hx);
      apply list_elem_of_In in Hx;
      [apply (modify_workload_action StatefulSet)
      |apply (modify_workload_action Deployment)];
      unfold S, D, listed in Hx; apply list_elem_of_filter in Hx as [Hns Hx];
      [apply (Hok StatefulSet x Hx) | apply (Hok Deployment x Hx)];
      apply String.eqb_eq in Hns; rewrite Hns; left.
  - exact Hacc.
  - exact Hcnt.
  - exact Hr.
  - intros Hnil. apply (f_equal (@length _)) in Hnil.
    unfold actions in Hnil. rewrite length_app, !length_map in Hnil.
    cbn [length] in Hnil. unfold n in Hn. lia.
  - cbv zeta in Hrun, Hs, Hcount. unfold actions in Hrun, Hs, Hcount.
    rewrite length_app, !length_map in Hs, Hcount.
    rewrite for_each_app, !for_each_map in Hrun.
    unfold bind at 1 in Hrun.
    destruct (for_each S _ _) as [[[]|e] wa] eqn:Hloop1 in Hrun.
    2:{ inversion Hrun. }
    exists w'. rewrite (bind_run _ _ _ _ _ Hloop1). cbv beta.
    rewrite Hrun.
    cbn [trace with_trace] in Hs. rewrite !sleeps_app in Hs.
    cbn [sleeps omap] in Hs. rewrite !app_nil_r in Hs.
    split; [reflexivity|]. split; [exact Hs | exact Hcount].
Qed.

Lemma up_pauses_per_batch_witness :
  exists w',
    up MiniRe.engine ["ns1"] 2 5 (counting_busy_world 5) = (Ret tt, w') /\
    sleeps (trace w') = [5; 5; 5] /\
    default 0 (scale_up_counters w' !! "ns1") = 1.
Proof.
  destruct (up_pauses_per_batch MiniRe.engine ["ns1"]
              [compiled_or_empty "ns1"] 2 5 (counting_busy_world 5) "ns1" 5)
    as (w' & Hrun & Hs & Hc).
  - repeat constructor.
  - reflexivity.
  - intros nm n. reflexivity.
  - intros k x Hx _. destruct k; cbn in Hx;
      repeat (apply elem_of_cons in Hx as [->|Hx]); try reflexivity;
      inversion Hx.
  - lia.
  - lia.
  - reflexivity.
  - lia.
  - vm_compute. discriminate.
  - exists w'. split; [exact Hrun|]. split; [exact Hs | exact Hc].
Defined.

(** In a process that has not counted yet, the same call sleeps twice. *)
Example up_pauses_from_the_start :
  let w' := snd (up MiniRe.engine ["ns1"] 2 5
                   (initial_world busy_cluster (fun _ => 0%Q))) in
  sleeps (trace w') = [5; 5] /\
  default 0 (scale_up_counters w' !! "ns1") = 1.
Proof. split; reflexivity. Qed.

(** ** [down] and [up] a second time *)

Lemma scale_workloads_idempotent (action : NamespaceAction)
    (nss : list string) (ws : list Workload) :
  scale_workloads action nss (scale_workloads action nss ws)
  = scale_workloads action nss ws.
Proof.
  unfold scale_workloads. rewrite map_map. apply map_ext. intros x.
  destruct (bool_decide (namespace (metadata x) ∈ nss)) eqn:E.
  - change (namespace (metadata (transition action x)))
      with (namespace (metadata x)).
    rewrite E. apply transition_idempotent.
  - rewrite E. reflexivity.
Qed.

(** X20. [down] and [up] are idempotent on the cluster: on a manageable
    cluster (no refusals, unique names, readable workloads) a second
    [down], or a second [up], with the same patterns returns and leaves
    every workload as the first call left it. *)
Theorem down_and_up_idempotent (re : ReEngine) (patterns : list string)
    (compiled : list (re_pattern re)) (batch_size batch_timeout : Z)
    (w : World) :
  Forall2 (fun p c => re_compile re (anchored p) = Ret c) patterns compiled ->
  manageable (resolved_by re compiled (cluster w)) (cluster w) ->
  (exists w1 w2,
     down re patterns w = (Ret tt, w1) /\
     down re patterns w1 = (Ret tt, w2) /\
     cluster w2 = cluster w1) /\
  (exists w1 w2,
     up re patterns batch_size batch_timeout w = (Ret tt, w1) /\
     up re patterns batch_size batch_timeout w1 = (Ret tt, w2) /\
     cluster w2 = cluster w1).
Proof.
  intros Hc Hm. split.
  - destruct (down_cluster re patterns compiled w Hc Hm) as (w1 & Hrun1 & Hc1).
    assert (HR : resolved_by re compiled (cluster w1)
                 = resolved_by re compiled (cluster w))
      by (rewrite Hc1; reflexivity).
    assert (Hm1 : manageable (resolved_by re compiled (cluster w1))
                    (cluster w1))
      by (rewrite HR, Hc1; apply manageable_scale, Hm).
    destruct (down_cluster re patterns compiled w1 Hc Hm1)
      as (w2 & Hrun2 & Hc2).
    exists w1, w2. split; [exact Hrun1|]. split; [exact Hrun2|].
    rewrite Hc2, HR, Hc1. unfold scale_cluster.
    cbn [cluster_namespaces cluster_deployments cluster_stateful_sets
           cluster_rejects].
    rewrite !scale_workloads_idempotent. reflexivity.
  - destruct (up_cluster re patterns compiled batch_size batch_timeout w Hc Hm)
      as (w1 & Hrun1 & Hc1).
    assert (HR : resolved_by re compiled (cluster w1)
                 = resolved_by re compiled (cluster w))
      by (rewrite Hc1; reflexivity).
    assert (Hm1 : manageable (resolved_by re compiled (cluster w1))
                    (cluster w1))
      by (rewrite HR, Hc1; apply manageable_scale, Hm).
    destruct (up_cluster re patterns compiled batch_size batch_timeout w1
                Hc Hm1) as (w2 & Hrun2 & Hc2).
    exists w1, w2. split; [exact Hrun1|]. split; [exact Hrun2|].
    rewrite Hc2, HR, Hc1. unfold scale_cluster.
    cbn [cluster_namespaces cluster_deployments cluster_stateful_sets
           cluster_rejects].
    rewrite !scale_workloads_idempotent. reflexivity.
Qed.

Lemma down_and_up_idempotent_witness :
  exists w1 w2,
    down MiniRe.engine team_patterns teams_world = (Ret tt, w1) /\
    down MiniRe.engine team_patterns w1 = (Ret tt, w2) /\
    cluster w2 = cluster w1.
Proof.
  exact (proj1 (down_and_up_idempotent MiniRe.engine team_patterns
                  team_compiled 0 0 teams_world teams_compiled
                  teams_manageable)).
Defined.

(** ** The order in which [up] and [down] handle the workloads *)

Lemma handled_app (t1 t2 : list Event) :
  handled (t1 ++ t2) = handled t1 ++ handled t2.
Proof. unfold handled. apply omap_app. Qed.

(** A loop whose every step returns, keeps [Inv] and adds [out] to what
    [proj] reads from the world. *)
Lemma for_each_log {A T : Type} (body : A -> M unit) (out : A -> list T)
    (proj : World -> list T) (Inv : World -> Prop) (Q : A -> Prop) :
  (forall a w, Q a -> Inv w ->
     exists w', body a w = (Ret tt, w') /\
                proj w' = proj w ++ out a /\ Inv w') ->
  forall (xs : list A) (w : World),
    Forall Q xs -> Inv w ->
    exists w',
      for_each xs body w = (Ret tt, w') /\
      proj w' = proj w ++ concat (map out xs) /\
      Inv w'.
Proof.
  intros Hbody. induction xs as [|a xs IH]; intros w HQ HI.
  - exists w. split; [reflexivity|]. cbn. rewrite app_nil_r. auto.
  - apply Forall_cons in HQ as [Ha Hxs].
    destruct (Hbody a w Ha HI) as (w1 & Hrun1 & Hp1 & HI1).
    destruct (IH w1 Hxs HI1) as (w' & Hrun & Hp & HI').
    exists w'. cbn [for_each map concat]. unfold bind. rewrite Hrun1.
    split; [exact Hrun|]. split; [|exact HI'].
    rewrite Hp, Hp1, <- app_assoc. reflexivity.
Qed.

Lemma updater_of_trace (k : WorkloadKind) (nm ns : string) (body : Patch)
    (w : World) :
  handled (trace (snd (updater_of k nm ns body w))) = handled (trace w).
Proof.
  destruct k; cbn [updater_of];
    unfold AppsV1Api.patch_namespaced_deployment,
      AppsV1Api.patch_namespaced_stateful_set, bind, emit;
    cbn [cluster with_trace]; destruct (_ || _);
    cbn [snd trace with_trace with_cluster]; rewrite handled_app;
    apply app_nil_r.
Qed.

(** One call for a listed object that is readable returns,
    whatever the server does, and logs one outcome for it. *)
Lemma modify_workload_logged (c0 : Cluster) (R : list string)
    (k : WorkloadKind) (action : NamespaceAction) (d : Workload) (w : World) :
  readable d = true -> in_order c0 R w ->
  exists w',
    modify_workload action d (kind_label k) (updater_of k) w = (Ret tt, w') /\
    handled (trace w')
    = handled (trace w)
      ++ [(kind_label k, namespace (metadata d), name (metadata d))] /\
    in_order c0 R w'.
Proof.
  intros Hok [Hnames Hall].
  destruct (readable_build action d Hok) as (n & p & Hb).
  pose proof (patch_for_build _ _ _ _ Hb) as Hp.
  destruct (patch_nonempty p) eqn:Hne.
  2:{ eexists. split; [exact (modify_workload_intact _ _ _ _ n p w Hb Hne)|].
      cbn [trace with_trace]. rewrite handled_app.
      split; [reflexivity|]. split; assumption. }
  pose proof (updater_of_trace k (name (metadata d)) (namespace (metadata d))
                p w) as Htr.
  destruct (updater_of_outcome k (name (metadata d))
              (namespace (metadata d)) p w)
    as (r0 & w0 & Hu & _ & Hother & Hcase).
  rewrite Hu in Htr. cbn [snd] in Htr.
  assert (Hinv : in_order c0 R w0).
  { split.
    - intros k'. rewrite <- (Hnames k').
      assert (Hdec : k' = k \/ k' <> k)
        by (destruct k', k; auto; right; discriminate).
      destruct Hdec as [->|Hk]; [|rewrite (Hother k' Hk); reflexivity].
      destruct Hcase as [[_ ->] | (_ & _ & ->)]; [reflexivity|].
      unfold patch_in. rewrite map_map. apply map_ext. intros x.
      destruct (is_target _ _ x); reflexivity.
    - intros k' y Hy Hns.
      assert (Hdec : k' = k \/ k' <> k)
        by (destruct k', k; auto; right; discriminate).
      destruct Hdec as [->|Hk];
        [|rewrite (Hother k' Hk) in Hy; exact (Hall k' y Hy Hns)].
      destruct Hcase as [[_ Hws] | (_ & _ & Hws)]; rewrite Hws in Hy;
        [exact (Hall k y Hy Hns)|].
      unfold patch_in in Hy.
      apply list_elem_of_In, in_map_iff in Hy as (x & <- & Hx).
      apply list_elem_of_In in Hx.
      destruct (is_target _ _ x).
      + rewrite <- Hp. apply apply_patch_readable; [exact Hok|].
        exact (Hall k x Hx Hns).
      + exact (Hall k x Hx Hns). }
  destruct Hcase as [[-> _] | (-> & _)].
  - eexists. split; [exact (modify_workload_failed _ _ _ _ n p _ w w0 Hb Hne Hu eq_refl)|].
    cbn [trace with_trace]. rewrite handled_app, Htr.
    split; [reflexivity | exact Hinv].
  - eexists. split; [exact (modify_workload_applied _ _ _ _ n p w w0 Hb Hne Hu)|].
    cbn [trace with_trace]. rewrite handled_app, Htr.
    split; [reflexivity | exact Hinv].
Qed.

Lemma handled_in_same (label ns : string) (ws : list Workload) :
  forall ws' : list Workload,
    map key ws' = map key ws ->
    handled_in label ns ws' = handled_in label ns ws.
Proof.
  unfold handled_in, listed.
  induction ws as [|x ws IH]; intros [|x' ws'] H; try discriminate.
  - reflexivity.
  - cbn [map] in H. inversion H as [[Hns Hnm Hrest]].
    assert (Hin : AppsV1Api.in_namespace ns x' = AppsV1Api.in_namespace ns x)
      by (unfold AppsV1Api.in_namespace; rewrite Hns; reflexivity).
    rewrite !filter_cons.
    destruct (decide (AppsV1Api.in_namespace ns x' = true)) as [H1|H1];
      destruct (decide (AppsV1Api.in_namespace ns x = true)) as [H2|H2];
      try (rewrite Hin in H1; contradiction);
      cbn [map]; rewrite (IH ws' Hrest); [rewrite Hns, Hnm|]; reflexivity.
Qed.

(** The loop over the listed objects of one kind in one namespace. *)
Lemma for_each_logged (c0 : Cluster) (R : list string) (k : WorkloadKind)
    (body : Workload -> M unit) (ns : string) :
  (forall d w, readable d = true -> in_order c0 R w ->
     exists w',
       body d w = (Ret tt, w') /\
       handled (trace w')
       = handled (trace w)
         ++ [(kind_label k, namespace (metadata d), name (metadata d))] /\
       in_order c0 R w') ->
  ns ∈ R ->
  forall (ws : list Workload) (w : World),
    (forall x, x ∈ ws -> namespace (metadata x) ∈ R -> readable x = true) ->
    in_order c0 R w ->
    exists w',
      for_each (listed ns ws) body w = (Ret tt, w') /\
      handled (trace w') = handled (trace w) ++ handled_in (kind_label k) ns ws /\
      in_order c0 R w'.
Proof.
  intros Hbody Hns ws w Hok Hinv.
  destruct (for_each_log body
              (fun d => [(kind_label k, namespace (metadata d),
                          name (metadata d))])
              (fun w0 => handled (trace w0)) (in_order c0 R)
              (fun d => readable d = true) Hbody (listed ns ws) w)
    as (w' & Hrun & Hh & Hinv').
  - apply Forall_forall. intros d Hd. unfold listed in Hd.
    apply list_elem_of_filter in Hd as [Hn Hd].
    apply (Hok d Hd). apply String.eqb_eq in Hn. rewrite Hn. exact Hns.
  - exact Hinv.
  - exists w'. split; [exact Hrun|]. split; [|exact Hinv'].
    rewrite Hh. f_equal. unfold handled_in. clear.
    induction (listed ns ws) as [|x l IH]; [reflexivity|].
    cbn [map concat app]. rewrite IH. reflexivity.
Qed.

Lemma in_order_cluster (c0 : Cluster) (R : list string) (w w' : World) :
  cluster w' = cluster w -> in_order c0 R w -> in_order c0 R w'.
Proof. unfold in_order. intros ->. auto. Qed.

Lemma in_order_start (R : list string) (w : World) :
  all_in R (fun x => readable x = true) (cluster w) ->
  in_order (cluster w) R w.
Proof. intros H. split; [intros k; reflexivity | exact H]. Qed.

(** The throttler handles no workload. *)
Lemma wait_on_batch_full_handled (ns : string) (batch_size batch_interval : Z)
    (w : World) :
  exists w',
    wait_on_batch_full ns batch_size batch_interval w = (Ret tt, w') /\
    cluster w' = cluster w /\
    handled (trace w') = handled (trace w).
Proof.
  rewrite wait_on_batch_full_run. cbv zeta.
  destruct (_ && _); eexists; (split; [reflexivity|]);
    (split; [reflexivity|]); cbn [trace with_trace with_scale_up_counters];
    [|reflexivity].
  rewrite handled_app. apply app_nil_r.
Qed.

Lemma up_body_logged (c0 : Cluster) (R : list string) (k : WorkloadKind)
    (ns : string) (batch_size batch_timeout : Z) (d : Workload) (w : World) :
  readable d = true -> in_order c0 R w ->
  exists w',
    bind (wait_on_batch_full ns batch_size batch_timeout)
      (fun _ => modify_workload UP d (kind_label k) (updater_of k)) w
    = (Ret tt, w') /\
    handled (trace w')
    = handled (trace w)
      ++ [(kind_label k, namespace (metadata d), name (metadata d))] /\
    in_order c0 R w'.
Proof.
  intros Hok Hinv.
  destruct (wait_on_batch_full_handled ns batch_size batch_timeout w)
    as (w1 & Hw & Hc & Ht).
  rewrite (bind_run _ _ _ _ _ Hw). rewrite <- Ht.
  apply modify_workload_logged; [exact Hok|].
  exact (in_order_cluster _ _ _ _ Hc Hinv).
Qed.

(** Both loops of one namespace: the first over the objects of kind
    [k1], the second over those of kind [k2], both listed before. *)
Lemma namespace_logged (c0 : Cluster) (R : list string)
    (k1 k2 : WorkloadKind) (body1 body2 : Workload -> M unit) (ns : string)
    (w0 w : World) :
  (forall d w, readable d = true -> in_order c0 R w ->
     exists w',
       body1 d w = (Ret tt, w') /\
       handled (trace w')
       = handled (trace w)
         ++ [(kind_label k1, namespace (metadata d), name (metadata d))] /\
       in_order c0 R w') ->
  (forall d w, readable d = true -> in_order c0 R w ->
     exists w',
       body2 d w = (Ret tt, w') /\
       handled (trace w')
       = handled (trace w)
         ++ [(kind_label k2, namespace (metadata d), name (metadata d))] /\
       in_order c0 R w') ->
  ns ∈ R -> in_order c0 R w0 ->
  cluster w = cluster w0 -> handled (trace w) = handled (trace w0) ->
  exists w',
    bind (for_each (listed ns (workloads_of k1 (cluster w0))) body1)
      (fun _ => for_each (listed ns (workloads_of k2 (cluster w0))) body2) w
    = (Ret tt, w') /\
    handled (trace w')
    = handled (trace w0)
      ++ (handled_in (kind_label k1) ns (workloads_of k1 c0)
          ++ handled_in (kind_label k2) ns (workloads_of k2 c0)) /\
    in_order c0 R w'.
Proof.
  intros Hb1 Hb2 Hns Hinv Hc Ht.
  assert (Hok : forall k x, x ∈ workloads_of k (cluster w0) ->
                  namespace (metadata x) ∈ R -> readable x = true)
    by (intros k x; apply (proj2 Hinv k x)).
  destruct (for_each_logged c0 R k1 body1 ns Hb1 Hns
              (workloads_of k1 (cluster w0)) w (Hok k1)
              (in_order_cluster _ _ _ _ Hc Hinv))
    as (w1 & Hr1 & Hh1 & Hinv1).
  destruct (for_each_logged c0 R k2 body2 ns Hb2 Hns
              (workloads_of k2 (cluster w0)) w1 (Hok k2) Hinv1)
    as (w2 & Hr2 & Hh2 & Hinv2).
  exists w2. rewrite (bind_run _ _ _ _ _ Hr1).
  split; [exact Hr2|]. split; [|exact Hinv2].
  rewrite Hh2, Hh1, Ht, <- app_assoc.
  rewrite (handled_in_same _ ns _ _ (proj1 Hinv k1)).
  rewrite (handled_in_same _ ns _ _ (proj1 Hinv k2)).
  reflexivity.
Qed.

(** X21. When the patterns compile and every workload of the resolved
    namespaces is readable (a dict of annotations in which the
    saved-replicas annotation is absent or an integer), [down] returns,
    whatever the server answers to the patches, and handles the
    workloads in this order: the resolved namespaces from the last to
    the first, in each
    namespace the Deployments in listing order and then the
    StatefulSets in listing order, each exactly once per occurrence of
    its namespace. *)
Theorem down_handles_in_order (re : ReEngine) (patterns : list string)
    (compiled : list (re_pattern re)) (w : World) :
  Forall2 (fun p c => re_compile re (anchored p) = Ret c) patterns compiled ->
  all_in (resolved_by re compiled (cluster w))
    (fun x => readable x = true) (cluster w) ->
  exists w',
    down re patterns w = (Ret tt, w') /\
    handled (trace w')
    = handled (trace w)
      ++ concat (map (down_order (cluster w))
                   (rev (resolved_by re compiled (cluster w)))).
Proof.
  intros Hc Hall. set (R := resolved_by re compiled (cluster w)) in *.
  unfold down.
  rewrite (bind_run _ _ _ _ _ (logging_run _ w)).
  rewrite (bind_run _ _ _ _ _ (resolve_namespaces_run re patterns compiled _ Hc)).
  cbn [cluster with_trace]. fold R.
  match goal with
  | |- exists w', for_each ?xs ?body ?w1 = _ /\ _ =>
      pose proof (fun H => for_each_log body (down_order (cluster w))
                              (fun w0 => handled (trace w0))
                              (in_order (cluster w) R) (fun ns => ns ∈ R)
                              H xs w1)
        as Hloop
  end.
  destruct Hloop as (w' & Hrun & Hh & _).
  - intros ns w0 Hns Hinv.
    rewrite (bind_run _ _ _ _ _ (logging_run _ w0)).
    rewrite (bind_run _ _ _ _ _ (list_namespaced_deployment_run ns _)).
    rewrite (bind_run _ _ _ _ _ (list_namespaced_stateful_set_run ns _)).
    cbn [cluster with_trace].
    apply (namespace_logged (cluster w) R Deployment StatefulSet _ _ ns w0);
      try assumption; try reflexivity.
    + intros d w1. apply (modify_workload_logged _ _ Deployment).
    + intros d w1. apply (modify_workload_logged _ _ StatefulSet).
    + cbn [trace with_trace]. rewrite !handled_app. cbn.
      rewrite !app_nil_r. reflexivity.
  - apply Forall_forall. intros ns Hns.
    apply list_elem_of_In, in_rev, list_elem_of_In, Hns.
  - apply (in_order_cluster _ _ w); [reflexivity|].
    apply in_order_start, Hall.
  - exists w'. split; [exact Hrun|].
    rewrite Hh. cbn [trace with_trace]. rewrite !handled_app. cbn.
    rewrite !app_nil_r. reflexivity.
Qed.

(** X22. When the patterns compile and every workload of the resolved
    namespaces is readable, [up] returns, whatever the
    batch size, the interval and the server's answers, and handles the
    workloads in this order: the resolved namespaces from the first to
    the last, in each namespace the StatefulSets in listing order and
    then the Deployments in listing order. *)
Theorem up_handles_in_order (re : ReEngine) (patterns : list string)
    (compiled : list (re_pattern re)) (batch_size batch_timeout : Z)
    (w : World) :
  Forall2 (fun p c => re_compile re (anchored p) = Ret c) patterns compiled ->
  all_in (resolved_by re compiled (cluster w))
    (fun x => readable x = true) (cluster w) ->
  exists w',
    up re patterns batch_size batch_timeout w = (Ret tt, w') /\
    handled (trace w')
    = handled (trace w)
      ++ concat (map (up_order (cluster w))
                   (resolved_by re compiled (cluster w))).
Proof.
  intros Hc Hall. set (R := resolved_by re compiled (cluster w)) in *.
  unfold up.
  rewrite (bind_run _ _ _ _ _ (logging_run _ w)).
  rewrite (bind_run _ _ _ _ _ (resolve_namespaces_run re patterns compiled _ Hc)).
  cbn [cluster with_trace]. fold R.
  match goal with
  | |- exists w', for_each ?xs ?body ?w1 = _ /\ _ =>
      pose proof (fun H => for_each_log body (up_order (cluster w))
                              (fun w0 => handled (trace w0))
                              (in_order (cluster w) R) (fun ns => ns ∈ R)
                              H xs w1)
        as Hloop
  end.
  destruct Hloop as (w' & Hrun & Hh & _).
  - intros ns w0 Hns Hinv.
    rewrite (bind_run _ _ _ _ _ (list_namespaced_deployment_run ns _)).
    rewrite (bind_run _ _ _ _ _ (list_namespaced_stateful_set_run ns _)).
    rewrite (bind_run _ _ _ _ _ (logging_run _ _)).
    cbn [cluster with_trace].
    apply (namespace_logged (cluster w) R StatefulSet Deployment _ _ ns w0);
      try assumption; try reflexivity.
    + intros d w1. apply (up_body_logged _ _ StatefulSet).
    + intros d w1. apply (up_body_logged _ _ Deployment).
    + cbn [trace with_trace]. rewrite !handled_app. cbn.
      rewrite !app_nil_r. reflexivity.
  - apply Forall_forall. intros ns Hns. exact Hns.
  - apply (in_order_cluster _ _ w); [reflexivity|].
    apply in_order_start, Hall.
  - exists w'. split; [exact Hrun|].
    rewrite Hh. cbn [trace with_trace]. rewrite !handled_app. cbn.
    rewrite !app_nil_r. reflexivity.
Qed.

Lemma ordered_readable :
  all_in (resolved_by MiniRe.engine team_compiled ordered_cluster)
    (fun x => readable x = true) ordered_cluster.
Proof.
  intros k x Hx _. destruct k; cbn in Hx;
    repeat (apply elem_of_cons in Hx as [->|Hx]); try reflexivity;
    inversion Hx.
Defined.

Lemma down_handles_in_order_witness :
  exists w',
    down MiniRe.engine team_patterns ordered_world = (Ret tt, w') /\
    handled (trace w')
    = [("Deployment", "team-a-prod", "api");
       ("Deployment", "team-a-prod", "worker");
       ("StatefulSet", "team-a-prod", "db");
       ("Deployment", "team-a-prod", "api");
       ("Deployment", "team-a-prod", "worker");
       ("StatefulSet", "team-a-prod", "db");
       ("Deployment", "team-a-dev", "web");
       ("StatefulSet", "team-a-dev", "cache")].
Proof.
  destruct (down_handles_in_order MiniRe.engine team_patterns team_compiled
              ordered_world teams_compiled ordered_readable)
    as (w' & Hrun & Hh).
  exists w'. split; [exact Hrun|]. rewrite Hh. reflexivity.
Defined.

Lemma up_handles_in_order_witness :
  exists w',
    up MiniRe.engine team_patterns 1 30 ordered_world = (Ret tt, w') /\
    handled (trace w')
    = [("StatefulSet", "team-a-dev", "cache");
       ("Deployment", "team-a-dev", "web");
       ("StatefulSet", "team-a-prod", "db");
       ("Deployment", "team-a-prod", "api");
       ("Deployment", "team-a-prod", "worker");
       ("StatefulSet", "team-a-prod", "db");
       ("Deployment", "team-a-prod", "api");
       ("Deployment", "team-a-prod", "worker")].
Proof.
  destruct (up_handles_in_order MiniRe.engine team_patterns team_compiled
              1 30 ordered_world teams_compiled ordered_readable)
    as (w' & Hrun & Hh).
  exists w'. split; [exact Hrun|]. rewrite Hh. reflexivity.
Defined.
